(** * ManualCropper: the interactive crop-region editor

    A shallow embedding of [src/components/ManualCropper.tsx]: the pointer
    handlers that draw, move and resize the normalized selection rectangle,
    the coordinate mapper, the first-layout zoom heuristic and the confirm
    workflow.

    Numbers.  A JavaScript [number] is modelled as an exact rational [Q]:
    [Math.min]/[Math.max] are [Qmin]/[Qmax], [Math.abs] is [Qabs], and the
    comparisons are decided exactly.  Binary64 rounding, [NaN] and the
    infinities are outside the model, so the statements about a gesture
    that goes through the coordinate mapper assume a canvas of positive
    size ([canvasLaidOut]): there the mapper divides by nothing but
    positive numbers.

    React.  A handler reads the state of the render it was created in and
    queues its updates; no handler of this component reads a state variable
    after it has set it, so each handler is a function from the state before
    the event to the state after it.  Calls made to the host (the callbacks
    received as props) and to the event object are recorded, in order, in a
    list of [Call]s.

    The wheel navigation, the restoration of the scroll position and the
    drawing of the two canvases are not part of the model. *)

From Stdlib Require Import ZArith QArith Qminmax Qabs Qround Lqa Lia.
From Stdlib Require Import List Ascii String Bool Arith.
From Stdlib Require Import DecimalString DecimalNat.
Import ListNotations.

Local Open Scope Q_scope.

(** ** Data model *)

(** [interface NormalizedRect] (lines 27-32). *)
Record NormalizedRect : Type := mkRect {
  xmin : Q;
  ymin : Q;
  xmax : Q;
  ymax : Q
}.

(** [type InteractionMode] (lines 35-46): eleven string literals. *)
Inductive InteractionMode : Type :=
  | none
  | drawing
  | moving
  | resizing_n
  | resizing_s
  | resizing_e
  | resizing_w
  | resizing_nw
  | resizing_ne
  | resizing_sw
  | resizing_se.

(** [tool: 'select' | 'pan'] (line 19). *)
Inductive Tool : Type := select | pan.

(** [{x: number, y: number}], used for drag points, pan positions and
    viewport anchors. *)
Record Point : Type := mkPoint { px : Q; py : Q }.

(** The fields of a [React.PointerEvent] that the handlers read. *)
Record PointerEvent : Type := mkEvent {
  clientX : Q;
  clientY : Q;
  pointerId : nat
}.

(** [interface PageImage] of [services/parser.ts]. *)
Record PageImage : Type := mkPage {
  pageIndex : nat;
  imageData : string;
  width : Q;
  height : Q
}.

(** The image canvas as the mapper sees it: its intrinsic size
    ([canvas.width], [canvas.height]) and its [getBoundingClientRect()]. *)
Record Canvas : Type := mkCanvas {
  canvasWidth : Q;
  canvasHeight : Q;
  rectLeft : Q;
  rectTop : Q;
  rectWidth : Q;
  rectHeight : Q
}.

(** The scroll container: the fields of [containerRef.current] that are
    read or written. *)
Record Container : Type := mkContainer {
  clientWidth : Q;
  clientHeight : Q;
  scrollLeft : Q;
  scrollTop : Q;
  scrollWidth : Q;
  scrollHeight : Q
}.

(** [showToast] state: [{message: string, visible: boolean}]. *)
Record Toast : Type := mkToast { message : string; visible : bool }.

(** The props that stay fixed during a session. *)
Record Props : Type := mkProps {
  pageImages : list PageImage;
  initialPageIndex : Z;
  isEditing : bool;
  initialRect : option NormalizedRect;
  nextIndex : nat
}.

(** Everything the component owns or touches: its [useState] cells, its
    refs, the two lifted cells the host stores for it ([tool], [zoom]), and
    the parts of the DOM it reads.  [selectionGen] counts the updates of
    the [selection] cell, which is how the [useEffect] on [selection]
    (lines 99-101) knows that it has to run. *)
Record State : Type := mkState {
  currentPageIndex : Z;
  selection : option NormalizedRect;
  selectionGen : nat;
  fitScale : Q;
  isLayoutReady : bool;
  interactionMode : InteractionMode;
  showToast : Toast;
  dragStartPoint : option Point;
  initialSelectionRef : option NormalizedRect;
  lastPanPosition : option Point;
  viewportCenter : option Point;
  preservedScrollRatio : option Point;
  hasInitializedZoom : bool;
  tool : Tool;
  zoom : Q;
  imageCanvasRef : option Canvas;
  containerRef : option Container;
  pointerCapture : list nat
}.

(** What the component calls on the host and on the event. *)
Inductive Call : Type :=
  | OnConfirm (page : Z) (rect : NormalizedRect)
  | OnClose
  | OnSelectionChange (hasSelection : bool)
  | PreventDefault
  | StopPropagation
  | SetTimeout (ms : nat).

(** ** State updates *)

Definition setCurrentPageIndex (v : Z) (s : State) : State :=
  mkState v (selection s) (selectionGen s) (fitScale s) (isLayoutReady s)
    (interactionMode s) (showToast s) (dragStartPoint s)
    (initialSelectionRef s) (lastPanPosition s) (viewportCenter s)
    (preservedScrollRatio s) (hasInitializedZoom s) (tool s) (zoom s)
    (imageCanvasRef s) (containerRef s) (pointerCapture s).

(** [setSelection(v)].  A non-null argument is a freshly built object, or
    the [initialRect] prop on the one layout pass that seeds the selection,
    so React sees a change; [setSelection(null)] on a null selection is no
    change. *)
Definition setSelection (v : option NormalizedRect) (s : State) : State :=
  match v, selection s with
  | None, None => s
  | _, _ =>
    mkState (currentPageIndex s) v (S (selectionGen s)) (fitScale s)
      (isLayoutReady s) (interactionMode s) (showToast s) (dragStartPoint s)
      (initialSelectionRef s) (lastPanPosition s) (viewportCenter s)
      (preservedScrollRatio s) (hasInitializedZoom s) (tool s) (zoom s)
      (imageCanvasRef s) (containerRef s) (pointerCapture s)
  end.

Definition setFitScale (v : Q) (s : State) : State :=
  mkState (currentPageIndex s) (selection s) (selectionGen s) v
    (isLayoutReady s) (interactionMode s) (showToast s) (dragStartPoint s)
    (initialSelectionRef s) (lastPanPosition s) (viewportCenter s)
    (preservedScrollRatio s) (hasInitializedZoom s) (tool s) (zoom s)
    (imageCanvasRef s) (containerRef s) (pointerCapture s).

Definition setIsLayoutReady (v : bool) (s : State) : State :=
  mkState (currentPageIndex s) (selection s) (selectionGen s) (fitScale s) v
    (interactionMode s) (showToast s) (dragStartPoint s)
    (initialSelectionRef s) (lastPanPosition s) (viewportCenter s)
    (preservedScrollRatio s) (hasInitializedZoom s) (tool s) (zoom s)
    (imageCanvasRef s) (containerRef s) (pointerCapture s).

Definition setInteractionMode (v : InteractionMode) (s : State) : State :=
  mkState (currentPageIndex s) (selection s) (selectionGen s) (fitScale s)
    (isLayoutReady s) v (showToast s) (dragStartPoint s)
    (initialSelectionRef s) (lastPanPosition s) (viewportCenter s)
    (preservedScrollRatio s) (hasInitializedZoom s) (tool s) (zoom s)
    (imageCanvasRef s) (containerRef s) (pointerCapture s).

Definition setShowToast (v : Toast) (s : State) : State :=
  mkState (currentPageIndex s) (selection s) (selectionGen s) (fitScale s)
    (isLayoutReady s) (interactionMode s) v (dragStartPoint s)
    (initialSelectionRef s) (lastPanPosition s) (viewportCenter s)
    (preservedScrollRatio s) (hasInitializedZoom s) (tool s) (zoom s)
    (imageCanvasRef s) (containerRef s) (pointerCapture s).

Definition setDragStartPoint (v : option Point) (s : State) : State :=
  mkState (currentPageIndex s) (selection s) (selectionGen s) (fitScale s)
    (isLayoutReady s) (interactionMode s) (showToast s) v
    (initialSelectionRef s) (lastPanPosition s) (viewportCenter s)
    (preservedScrollRatio s) (hasInitializedZoom s) (tool s) (zoom s)
    (imageCanvasRef s) (containerRef s) (pointerCapture s).

Definition setInitialSelectionRef (v : option NormalizedRect) (s : State)
  : State :=
  mkState (currentPageIndex s) (selection s) (selectionGen s) (fitScale s)
    (isLayoutReady s) (interactionMode s) (showToast s) (dragStartPoint s)
    v (lastPanPosition s) (viewportCenter s)
    (preservedScrollRatio s) (hasInitializedZoom s) (tool s) (zoom s)
    (imageCanvasRef s) (containerRef s) (pointerCapture s).

Definition setLastPanPosition (v : option Point) (s : State) : State :=
  mkState (currentPageIndex s) (selection s) (selectionGen s) (fitScale s)
    (isLayoutReady s) (interactionMode s) (showToast s) (dragStartPoint s)
    (initialSelectionRef s) v (viewportCenter s)
    (preservedScrollRatio s) (hasInitializedZoom s) (tool s) (zoom s)
    (imageCanvasRef s) (containerRef s) (pointerCapture s).

Definition setViewportCenter (v : option Point) (s : State) : State :=
  mkState (currentPageIndex s) (selection s) (selectionGen s) (fitScale s)
    (isLayoutReady s) (interactionMode s) (showToast s) (dragStartPoint s)
    (initialSelectionRef s) (lastPanPosition s) v
    (preservedScrollRatio s) (hasInitializedZoom s) (tool s) (zoom s)
    (imageCanvasRef s) (containerRef s) (pointerCapture s).

Definition setPreservedScrollRatio (v : option Point) (s : State) : State :=
  mkState (currentPageIndex s) (selection s) (selectionGen s) (fitScale s)
    (isLayoutReady s) (interactionMode s) (showToast s) (dragStartPoint s)
    (initialSelectionRef s) (lastPanPosition s) (viewportCenter s)
    v (hasInitializedZoom s) (tool s) (zoom s)
    (imageCanvasRef s) (containerRef s) (pointerCapture s).

Definition setHasInitializedZoom (v : bool) (s : State) : State :=
  mkState (currentPageIndex s) (selection s) (selectionGen s) (fitScale s)
    (isLayoutReady s) (interactionMode s) (showToast s) (dragStartPoint s)
    (initialSelectionRef s) (lastPanPosition s) (viewportCenter s)
    (preservedScrollRatio s) v (tool s) (zoom s)
    (imageCanvasRef s) (containerRef s) (pointerCapture s).

Definition setTool (v : Tool) (s : State) : State :=
  mkState (currentPageIndex s) (selection s) (selectionGen s) (fitScale s)
    (isLayoutReady s) (interactionMode s) (showToast s) (dragStartPoint s)
    (initialSelectionRef s) (lastPanPosition s) (viewportCenter s)
    (preservedScrollRatio s) (hasInitializedZoom s) v (zoom s)
    (imageCanvasRef s) (containerRef s) (pointerCapture s).

Definition setZoom (v : Q) (s : State) : State :=
  mkState (currentPageIndex s) (selection s) (selectionGen s) (fitScale s)
    (isLayoutReady s) (interactionMode s) (showToast s) (dragStartPoint s)
    (initialSelectionRef s) (lastPanPosition s) (viewportCenter s)
    (preservedScrollRatio s) (hasInitializedZoom s) (tool s) v
    (imageCanvasRef s) (containerRef s) (pointerCapture s).

Definition setContainerRef (v : option Container) (s : State) : State :=
  mkState (currentPageIndex s) (selection s) (selectionGen s) (fitScale s)
    (isLayoutReady s) (interactionMode s) (showToast s) (dragStartPoint s)
    (initialSelectionRef s) (lastPanPosition s) (viewportCenter s)
    (preservedScrollRatio s) (hasInitializedZoom s) (tool s) (zoom s)
    (imageCanvasRef s) v (pointerCapture s).

Definition setPointerCaptureList (v : list nat) (s : State) : State :=
  mkState (currentPageIndex s) (selection s) (selectionGen s) (fitScale s)
    (isLayoutReady s) (interactionMode s) (showToast s) (dragStartPoint s)
    (initialSelectionRef s) (lastPanPosition s) (viewportCenter s)
    (preservedScrollRatio s) (hasInitializedZoom s) (tool s) (zoom s)
    (imageCanvasRef s) (containerRef s) v.

(** [wrapperRef.current.setPointerCapture(id)] and the guarded release of
    [handlePointerUp] (lines 462-466). *)
Definition setPointerCapture (id : nat) (s : State) : State :=
  if existsb (Nat.eqb id) (pointerCapture s) then s
  else setPointerCaptureList (id :: pointerCapture s) s.

Definition releasePointerCapture (id : nat) (s : State) : State :=
  if existsb (Nat.eqb id) (pointerCapture s)
  then setPointerCaptureList
         (filter (fun j => negb (Nat.eqb id j)) (pointerCapture s)) s
  else s.

(** ** Number helpers *)

(** [a < b] as the boolean a JavaScript [if] tests. *)
Definition Qltb (a b : Q) : bool := negb (Qle_bool b a).

(** ** Coordinate mapper *)

(** [getNormalizedCoordinates] (lines 333-345), for a canvas whose
    intrinsic and displayed sizes are not zero ([canvasLaidOut] below).
    With an empty bounding rectangle the code divides by zero and gets 0,
    1000 or NaN; that case is outside the model, and what is proved of the
    mapper assumes a canvas that is laid out. *)
Definition getNormalizedCoordinates (e : PointerEvent) (s : State) : Point :=
  match imageCanvasRef s with
  | None => mkPoint 0 0
  | Some c =>
    let visualX := clientX e - rectLeft c in
    let visualY := clientY e - rectTop c in
    let internalX := visualX * (canvasWidth c / rectWidth c) in
    let internalY := visualY * (canvasHeight c / rectHeight c) in
    mkPoint (Qmax 0 (Qmin 1000 ((internalX / canvasWidth c) * 1000)))
            (Qmax 0 (Qmin 1000 ((internalY / canvasHeight c) * 1000)))
  end.

(** The way back, as the selection box is laid out (lines 626-631): the box
    is positioned at [selection.xmin / 10] percent of the wrapper, and the
    image canvas fills the wrapper ([absolute inset-0 w-full h-full]), so a
    normalized coordinate [n] sits at [n / 10] percent of the canvas'
    bounding rectangle. *)
Definition cssPercent (n : Q) : Q := n / 10.

Definition percentOf (p len : Q) : Q := p / 100 * len.

Definition toClientX (c : Canvas) (n : Q) : Q :=
  rectLeft c + percentOf (cssPercent n) (rectWidth c).

Definition toClientY (c : Canvas) (n : Q) : Q :=
  rectTop c + percentOf (cssPercent n) (rectHeight c).

(** ** Selection geometry

    The three branches of [handlePointerMove] that build [newRect]
    (lines 415-452), one definition per branch. *)

(** Lines 417-434: [interactionMode === 'moving']. *)
Definition moveRect (initial : NormalizedRect) (dx dy : Q) : NormalizedRect :=
  let width := xmax initial - xmin initial in
  let height := ymax initial - ymin initial in
  let newX := xmin initial + dx in
  let newY := ymin initial + dy in
  let newX := if Qltb newX 0 then 0 else newX in
  let newY := if Qltb newY 0 then 0 else newY in
  let newX := if Qltb 1000 (newX + width) then 1000 - width else newX in
  let newY := if Qltb 1000 (newY + height) then 1000 - height else newY in
  mkRect newX newY (newX + width) (newY + height).

(** Lines 435-441: [interactionMode === 'drawing'].  The anchor of the
    envelope is [initial.xmin], [initial.ymin]; [dragStartPoint] is not
    read. *)
Definition drawRect (initial : NormalizedRect) (x y : Q) : NormalizedRect :=
  mkRect (Qmin (xmin initial) x) (Qmin (ymin initial) y)
         (Qmax (xmin initial) x) (Qmax (ymin initial) y).

(** Lines 443-446. *)
Definition isWest (m : InteractionMode) : bool :=
  match m with resizing_w | resizing_nw | resizing_sw => true | _ => false end.

Definition isEast (m : InteractionMode) : bool :=
  match m with resizing_e | resizing_ne | resizing_se => true | _ => false end.

Definition isNorth (m : InteractionMode) : bool :=
  match m with resizing_n | resizing_nw | resizing_ne => true | _ => false end.

Definition isSouth (m : InteractionMode) : bool :=
  match m with resizing_s | resizing_sw | resizing_se => true | _ => false end.

(** Lines 442-452: the [else] branch.  [newRect] starts as a copy of
    [initial] and each assignment reads [initial], never [newRect]. *)
Definition resizeRect (m : InteractionMode) (initial : NormalizedRect)
  (dx dy : Q) : NormalizedRect :=
  mkRect
    (if isWest m then Qmin (xmin initial + dx) (xmax initial - 10)
     else xmin initial)
    (if isNorth m then Qmin (ymin initial + dy) (ymax initial - 10)
     else ymin initial)
    (if isEast m then Qmax (xmax initial + dx) (xmin initial + 10)
     else xmax initial)
    (if isSouth m then Qmax (ymax initial + dy) (ymin initial + 10)
     else ymax initial).

(** [newRect] as [handlePointerMove] computes it from the mode, the
    snapshot [initial], the current point [(x, y)] and the drag delta. *)
Definition newRectFor (m : InteractionMode) (initial : NormalizedRect)
  (x y dx dy : Q) : NormalizedRect :=
  match m with
  | moving => moveRect initial dx dy
  | drawing => drawRect initial x y
  | _ => resizeRect m initial dx dy
  end.

(** ** Pointer handlers

    The handlers are attached to the wrapper element and its children, so
    [wrapperRef.current] is set whenever one of them runs. *)

(** [startDragState] (lines 349-360). *)
Definition startDragState (e : PointerEvent) (mode : InteractionMode)
  (s : State) : State :=
  let p := getNormalizedCoordinates e s in
  let s1 := setInteractionMode mode (setDragStartPoint (Some p) s) in
  match selection s with
  | Some sel => setInitialSelectionRef (Some sel) s1
  | None =>
    let r := mkRect (px p) (py p) (px p) (py p) in
    setSelection (Some r) (setInitialSelectionRef (Some r) s1)
  end.

(** [handleHandleDown] (lines 362-368). *)
Definition handleHandleDown (e : PointerEvent) (mode : InteractionMode)
  (s : State) : State * list Call :=
  match tool s with
  | pan => (s, [])
  | select =>
    (startDragState e mode (setPointerCapture (pointerId e) s),
     [PreventDefault; StopPropagation])
  end.

(** [handleBoxDown] (lines 370-376). *)
Definition handleBoxDown (e : PointerEvent) (s : State) : State * list Call :=
  match tool s with
  | pan => (s, [])
  | select =>
    (startDragState e moving (setPointerCapture (pointerId e) s),
     [PreventDefault; StopPropagation])
  end.

(** [handleBackgroundDown] (lines 378-390). *)
Definition handleBackgroundDown (e : PointerEvent) (s : State)
  : State * list Call :=
  match tool s with
  | pan =>
    (setLastPanPosition (Some (mkPoint (clientX e) (clientY e)))
       (setInteractionMode moving (setPointerCapture (pointerId e) s)),
     [PreventDefault])
  | select =>
    (startDragState e drawing (setPointerCapture (pointerId e) s),
     [PreventDefault])
  end.

(** Where a pointer-down lands.  The selection body and the handles are
    descendants of the background layer (lines 618-662), so a pointer-down
    on one of them reaches [handleBackgroundDown] as well unless the first
    handler stopped the propagation. *)
Inductive HitTarget : Type :=
  | Background
  | SelectionBody
  | ResizeHandle (m : InteractionMode).

(** What is on screen (lines 623-661): the body whenever there is a
    selection, and three handles, east, south and south-east, unless the
    tool is [pan]. *)
Definition rendered (t : HitTarget) (s : State) : bool :=
  match t, selection s with
  | Background, _ => true
  | SelectionBody, Some _ => true
  | ResizeHandle m, Some _ =>
    match tool s, m with
    | select, (resizing_e | resizing_s | resizing_se) => true
    | _, _ => false
    end
  | _, None => false
  end.

Definition isStopPropagation (c : Call) : bool :=
  match c with StopPropagation => true | _ => false end.

Definition pointerDown (t : HitTarget) (e : PointerEvent) (s : State)
  : State * list Call :=
  let first :=
    match t with
    | Background => (s, [])
    | SelectionBody => handleBoxDown e s
    | ResizeHandle m => handleHandleDown e m s
    end in
  if existsb isStopPropagation (snd first) then first
  else
    let second := handleBackgroundDown e (fst first) in
    (fst second, (snd first ++ snd second)%list).

(** The offset that the element keeps when [v] is assigned to
    [scrollLeft] or [scrollTop]: the browser clamps it to the scroll
    range, from 0 to the scroll size minus the client size. *)
Definition clampScroll (extent client v : Q) : Q :=
  Qmax 0 (Qmin (extent - client) v).

(** The pan branch writes the scroll offsets of the container
    (lines 399-400): [scrollLeft -= deltaX] stores the clamped offset,
    which is what the next move reads back.  Offsets are exact: a browser
    that snaps them to whole pixels is not modelled. *)
Definition scrollBy (deltaX deltaY : Q) (c : Container) : Container :=
  mkContainer (clientWidth c) (clientHeight c)
    (clampScroll (scrollWidth c) (clientWidth c) (scrollLeft c - deltaX))
    (clampScroll (scrollHeight c) (clientHeight c) (scrollTop c - deltaY))
    (scrollWidth c) (scrollHeight c).

(** [handlePointerMove] (lines 392-455). *)
Definition handlePointerMove (e : PointerEvent) (s : State)
  : State * list Call :=
  match tool s with
  | pan =>
    match interactionMode s, lastPanPosition s, containerRef s with
    | moving, Some last, Some c =>
      let deltaX := clientX e - px last in
      let deltaY := clientY e - py last in
      (setLastPanPosition (Some (mkPoint (clientX e) (clientY e)))
         (setContainerRef (Some (scrollBy deltaX deltaY c)) s),
       [PreventDefault])
    | _, _, _ => (s, [])
    end
  | select =>
    match interactionMode s with
    | none => (s, [])
    | mode =>
      match dragStartPoint s, initialSelectionRef s with
      | Some start, Some initial =>
        let p := getNormalizedCoordinates e s in
        let dx := px p - px start in
        let dy := py p - py start in
        (setSelection (Some (newRectFor mode initial (px p) (py p) dx dy)) s,
         [PreventDefault])
      | _, _ => (s, [])
      end
    end
  end.

(** The test of lines 469: below ten units on either axis. *)
Definition tooSmall (r : NormalizedRect) : bool :=
  Qltb (Qabs (xmax r - xmin r)) 10 || Qltb (Qabs (ymax r - ymin r)) 10.

(** [handlePointerUp] (lines 457-477); also the [onPointerCancel]
    handler. *)
Definition handlePointerUp (e : PointerEvent) (s : State) : State :=
  let s1 := match tool s with
            | pan => setLastPanPosition None s
            | select => s
            end in
  let s2 := releasePointerCapture (pointerId e) s1 in
  let s3 := match interactionMode s, selection s with
            | drawing, Some sel =>
              if tooSmall sel then setSelection None s2 else s2
            | _, _ => s2
            end in
  setInitialSelectionRef None
    (setDragStartPoint None (setInteractionMode none s3)).

(** ** Confirm, keyboard and layout *)

Section Session.

Variable props : Props.

(** The template literal of line 488. *)
Definition toastMessage (n : nat) : string :=
  ("第 " ++ NilEmpty.string_of_uint (Nat.to_uint n) ++ " 题 已添加")%string.

(** [handleConfirm] (lines 479-499); [ref.confirm()] calls it
    (lines 104-108). *)
Definition handleConfirm (s : State) : State * list Call :=
  match selection s with
  | None => (s, [])
  | Some sel =>
    if isEditing props
    then (setSelection None s, [OnConfirm (currentPageIndex s) sel])
    else
      (setShowToast (mkToast (toastMessage (nextIndex props)) true)
         (setSelection None s),
       [OnConfirm (currentPageIndex s) sel; SetTimeout 1500])
  end.

(** The callback of the timer of lines 492-494. *)
Definition hideToast (s : State) : State :=
  setShowToast (mkToast (message (showToast s)) false) s.

(** [getCurrentXRatio] (lines 111-118). *)
Definition getCurrentXRatio (s : State) : Q :=
  match containerRef s with
  | Some c => (scrollLeft c + clientWidth c / 2) / scrollWidth c
  | None => 1 # 2
  end.

Inductive Key : Type :=
  | Space | ArrowLeft | ArrowRight | Escape | Enter | OtherKey.

(** The fields of the [KeyboardEvent] and of the document that
    [handleKeyDown] reads.  [inputFocused] is
    [document.activeElement?.tagName === 'INPUT'] (lines 242 and 249): it
    is true for an [<input>] element only, not for a [<textarea>] or an
    editable element. *)
Record KeyEvent : Type := mkKeyEvent {
  key : Key;
  repeat : bool;
  inputFocused : bool
}.

(** [handleKeyDown] (lines 240-270). *)
Definition handleKeyDown (e : KeyEvent) (s : State) : State * list Call :=
  let toggled :=
    match key e with
    | Space =>
      if negb (repeat e) && negb (inputFocused e)
      then (setTool (match tool s with select => pan | pan => select end) s,
            [PreventDefault])
      else (s, [])
    | _ => (s, [])
    end in
  let s1 := fst toggled in
  if inputFocused e then toggled
  else
    match key e with
    | ArrowLeft =>
      (setCurrentPageIndex (Z.max 0 (currentPageIndex s - 1))
         (setPreservedScrollRatio (Some (mkPoint (getCurrentXRatio s) 0)) s1),
       snd toggled)
    | ArrowRight =>
      (setCurrentPageIndex
         (Z.min (Z.of_nat (List.length (pageImages props)) - 1)
                (currentPageIndex s + 1))
         (setPreservedScrollRatio (Some (mkPoint (getCurrentXRatio s) 0)) s1),
       snd toggled)
    | Escape => (s1, (snd toggled ++ [OnClose])%list)
    | Enter =>
      match selection s with
      | Some _ =>
        let confirmed := handleConfirm s1 in
        (fst confirmed,
         (snd toggled ++ PreventDefault :: snd confirmed)%list)
      | None => toggled
      end
    | _ => toggled
    end.

(** [pageImages[currentPageIndex]] (line 96). *)
Definition currentPage (s : State) : option PageImage :=
  if (currentPageIndex s <? 0)%Z then None
  else nth_error (pageImages props) (Z.to_nat (currentPageIndex s)).

Definition padding : Q := 0.

Definition rectCenter (r : NormalizedRect) : Point :=
  mkPoint ((xmin r + xmax r) / 2 / 1000) ((ymin r + ymax r) / 2 / 1000).

(** The default zoom of lines 160-166. *)
Definition defaultZoom (scaleX scaleY : Q) : Q :=
  if Qltb scaleY scaleX then
    let widthFitZoom := scaleX / scaleY in
    let targetZoom := Qmin (widthFitZoom * 1) 3 in
    Qmax targetZoom 1
  else 1.

(** [calculateLayout] (lines 121-197). *)
Definition calculateLayout (preserveView : bool) (s : State) : State :=
  match containerRef s, currentPage s with
  | Some c, Some page =>
    let containerWidth := clientWidth c - padding in
    let containerHeight := clientHeight c - padding in
    if Qle_bool containerWidth 0 || Qle_bool containerHeight 0 then s
    else
      let scaleX := containerWidth / width page in
      let scaleY := containerHeight / height page in
      let laidOut :=
        match isEditing props, initialRect props, hasInitializedZoom s with
        | true, Some r, false =>
          let fitWidthScale := containerWidth / width page in
          let s1 := setFitScale fitWidthScale s in
          let s2 :=
            if preserveView then s1
            else
              let s3 := setZoom 1 s1 in
              if (currentPageIndex s =? initialPageIndex props)%Z
              then setViewportCenter (Some (rectCenter r))
                     (setSelection (Some r) s3)
              else s3 in
          setHasInitializedZoom true s2
        | _, _, _ =>
          let fitScreenScale := Qmin scaleX scaleY in
          let s1 := setFitScale fitScreenScale s in
          if preserveView then s1
          else if negb (hasInitializedZoom s) then
            let s2 := setZoom (defaultZoom scaleX scaleY) s1 in
            let s3 :=
              match initialRect props with
              | Some r =>
                if (currentPageIndex s =? initialPageIndex props)%Z
                then setViewportCenter (Some (rectCenter r))
                       (setSelection (Some r) s2)
                else setViewportCenter (Some (mkPoint (1 # 2) 0))
                       (setSelection None s2)
              | None =>
                setViewportCenter (Some (mkPoint (1 # 2) 0))
                  (setSelection None s2)
              end in
            setHasInitializedZoom true (setTool select s3)
          else
            let s2 := setSelection None s1 in
            match preservedScrollRatio s with
            | Some ratio =>
              setPreservedScrollRatio None (setViewportCenter (Some ratio) s2)
            | None => setViewportCenter (Some (mkPoint (1 # 2) 0)) s2
            end
        end in
      setIsLayoutReady true laidOut
  | _, _ => s
  end.

(** ** Events and renders *)

Inductive Event : Type :=
  | EvPointerDown (t : HitTarget) (e : PointerEvent)
  | EvPointerMove (e : PointerEvent)
  | EvPointerUp (e : PointerEvent)
  | EvConfirm
  | EvKeyDown (e : KeyEvent)
  | EvResize (c : Container)
  | EvToastTimeout.

Definition handle (ev : Event) (s : State) : State * list Call :=
  match ev with
  | EvPointerDown t e => pointerDown t e s
  | EvPointerMove e => handlePointerMove e s
  | EvPointerUp e => (handlePointerUp e s, [])
  | EvConfirm => handleConfirm s
  | EvKeyDown e => handleKeyDown e s
  | EvResize c => (calculateLayout true (setContainerRef (Some c) s), [])
  | EvToastTimeout => (hideToast s, [])
  end.

(** The effect of lines 99-101 runs after a render in which the
    [selection] cell was updated. *)
Definition selectionEffect (before after : State) : list Call :=
  if Nat.eqb (selectionGen before) (selectionGen after) then []
  else [OnSelectionChange (match selection after with
                           | Some _ => true
                           | None => false
                           end)].

(** The layout effect of lines 200-216 runs again when [calculateLayout]
    is rebuilt, which among the things an event can change is the page
    index. *)
Definition layoutEffect (before after : State) : State :=
  if (currentPageIndex before =? currentPageIndex after)%Z then after
  else calculateLayout false after.

(** One event: the handler, the render that follows with its effect on
    [selection], then the layout effect and, if it changed the state, a
    second render. *)
Definition step (ev : Event) (s : State) : State * list Call :=
  let handled := handle ev s in
  let s1 := fst handled in
  let s2 := layoutEffect s s1 in
  (s2, (snd handled ++ selectionEffect s s1 ++ selectionEffect s1 s2)%list).

Fixpoint run (evs : list Event) (s : State) : State * list Call :=
  match evs with
  | [] => (s, [])
  | ev :: rest =>
    let r1 := step ev s in
    let r2 := run rest (fst r1) in
    (fst r2, (snd r1 ++ snd r2)%list)
  end.

(** The state of the first render: the [useState] and [useRef] initial
    values (lines 62-87), with what the host and the DOM provide. *)
Definition initialState (t : Tool) (z : Q) (canvas : option Canvas)
  (container : option Container) : State :=
  mkState (initialPageIndex props) None 0 1 false none (mkToast "" false)
    None None None None None false t z canvas container [].

(** Mounting: the first layout pass, the first run of the effect on
    [selection], and the render caused by the layout pass. *)
Definition mount (t : Tool) (z : Q) (canvas : option Canvas)
  (container : option Container) : State * list Call :=
  let s0 := initialState t z canvas container in
  let s1 := calculateLayout false s0 in
  (s1, OnSelectionChange false :: selectionEffect s0 s1).

End Session.

(** The names of the modes as the source spells them. *)
Definition modeName (m : InteractionMode) : string :=
  match m with
  | none => "none"
  | drawing => "drawing"
  | moving => "moving"
  | resizing_n => "resizing-n"
  | resizing_s => "resizing-s"
  | resizing_e => "resizing-e"
  | resizing_w => "resizing-w"
  | resizing_nw => "resizing-nw"
  | resizing_ne => "resizing-ne"
  | resizing_sw => "resizing-sw"
  | resizing_se => "resizing-se"
  end.

Definition allModes : list InteractionMode :=
  [none; drawing; moving; resizing_n; resizing_s; resizing_e; resizing_w;
   resizing_nw; resizing_ne; resizing_sw; resizing_se].

Definition onSelectionChanges (calls : list Call) : list bool :=
  flat_map (fun c => match c with
                     | OnSelectionChange b => [b]
                     | _ => []
                     end) calls.

Definition isOnClose (c : Call) : bool :=
  match c with OnClose => true | _ => false end.

(** ** Well-formed rectangles *)

(** The invariant of the data model: inside the page and not inverted. *)
Definition inPage (r : NormalizedRect) : Prop :=
  0 <= xmin r /\ xmin r <= xmax r /\ xmax r <= 1000 /\
  0 <= ymin r /\ ymin r <= ymax r /\ ymax r <= 1000.

(** The same rectangle, coordinate by coordinate. *)
Definition rectEq (a b : NormalizedRect) : Prop :=
  xmin a == xmin b /\ ymin a == ymin b /\
  xmax a == xmax b /\ ymax a == ymax b.

(** The gap that the resize clamps keep. *)
Definition minSpan (r : NormalizedRect) : Prop :=
  xmin r <= xmax r - 10 /\ ymin r <= ymax r - 10.

(** The canvas, when there is one, has positive intrinsic and displayed
    sizes, so that no division of the mapper is by zero. *)
Definition canvasLaidOut (s : State) : Prop :=
  match imageCanvasRef s with
  | Some c =>
    0 < canvasWidth c /\ 0 < canvasHeight c /\
    0 < rectWidth c /\ 0 < rectHeight c
  | None => True
  end.

(** The display scale of a canvas: displayed size over intrinsic size. *)
Definition scaleBetween (lo hi intrinsic displayed : Q) : Prop :=
  lo * intrinsic <= displayed /\ displayed <= hi * intrinsic.

(** The eight resize modes. *)
Definition isResizing (m : InteractionMode) : bool :=
  match m with
  | none | drawing | moving => false
  | _ => true
  end.

Definition resizingModes : list InteractionMode :=
  filter isResizing allModes.

(** The edges a mode adjusts: west, east, north, south. *)
Definition adjustedEdges (m : InteractionMode) : bool * bool * bool * bool :=
  (isWest m, isEast m, isNorth m, isSouth m).

(** ** Sample sessions

    Concrete inputs on which the statements below are run.  The states are
    those the model computes from the events named in their definitions. *)

(** A two-page document of 2000 x 2800 pixels per page, shown in a
    container of 800 x 600; once laid out, the canvas is displayed at 0.4
    of its intrinsic size. *)
Definition samplePages : list PageImage :=
  [mkPage 1 "data:image/png;base64,AAAA" 2000 2800;
   mkPage 2 "data:image/png;base64,BBBB" 2000 2800].

Definition portraitProps : Props := mkProps samplePages 0 false None 1.

Definition sampleCanvas : Canvas := mkCanvas 2000 2800 100 50 800 1120.

Definition sampleContainer : Container := mkContainer 800 600 0 0 800 1120.

Definition portraitState : State := Eval vm_compute in
  fst (mount portraitProps select 1 (Some sampleCanvas)
         (Some sampleContainer)).

(** A two-page document of 1000 x 1000 pixels per page in a container of
    the same size: one client pixel is one normalized unit. *)
Definition unitPages : list PageImage :=
  [mkPage 1 "data:image/png;base64,CCCC" 1000 1000;
   mkPage 2 "data:image/png;base64,DDDD" 1000 1000].

Definition addProps : Props := mkProps unitPages 0 false None 3.

Definition editProps : Props :=
  mkProps unitPages 1 true (Some (mkRect 100 100 300 300)) 3.

Definition unitCanvas : Canvas := mkCanvas 1000 1000 0 0 1000 1000.

Definition unitContainer : Container :=
  mkContainer 1000 1000 0 0 1000 1000.

(** A session in add-mode, mounted and laid out. *)
Definition freshState : State := Eval vm_compute in
  fst (mount addProps select 1 (Some unitCanvas) (Some unitContainer)).

(** The same session with a selection on the page. *)
Definition selectedState : State := Eval vm_compute in
  setSelection (Some (mkRect 100 100 300 300)) freshState.

Definition pointerAt (x y : Q) : PointerEvent := mkEvent x y 1.

(** The gesture that draws that selection, and the state it leaves. *)
Definition drawSelection : list Event :=
  [EvPointerDown Background (pointerAt 100 100);
   EvPointerMove (pointerAt 300 300);
   EvPointerUp (pointerAt 300 300)].

Definition drawnState : State := Eval vm_compute in
  fst (run addProps drawSelection freshState).

(** The selection of [selectedState] grabbed by its body at (200, 200), by
    its south-east handle at (298, 298), and a new drawing started on the
    background at (500, 500), from [freshState] and from [selectedState]. *)
Definition movingState : State := Eval vm_compute in
  fst (step addProps (EvPointerDown SelectionBody (pointerAt 200 200))
         selectedState).

Definition resizingState : State := Eval vm_compute in
  fst (step addProps (EvPointerDown (ResizeHandle resizing_se)
                        (pointerAt 298 298)) selectedState).

Definition drawingState : State := Eval vm_compute in
  fst (step addProps (EvPointerDown Background (pointerAt 500 500))
         freshState).

Definition redrawingState : State := Eval vm_compute in
  fst (step addProps (EvPointerDown Background (pointerAt 500 500))
         selectedState).

(** The degenerate rectangle that [startDragState] builds at a point
    (lines 357-358). *)
Definition pointRect (a : Point) : NormalizedRect :=
  mkRect (px a) (py a) (px a) (py a).

(** The min/max envelope of two points. *)
Definition envelope (a b : Point) : NormalizedRect :=
  mkRect (Qmin (px a) (px b)) (Qmin (py a) (py b))
         (Qmax (px a) (px b)) (Qmax (py a) (py b)).

(** An edit session after mounting: the first layout seeds the selection
    with [initialRect]. *)
Definition editState : State := Eval vm_compute in
  fst (mount editProps select 1 (Some unitCanvas) (Some unitContainer)).

(** [selectedState] after the space bar switched to the pan tool. *)
Definition panState : State := Eval vm_compute in
  fst (step addProps (EvKeyDown (mkKeyEvent Space false false))
         selectedState).

(** The zoom and the latch are written by [calculateLayout] only. *)
Definition zoomAndLatch (s : State) : Q * bool :=
  (zoom s, hasInitializedZoom s).

(** The invariant that the gestures other than resizing keep: the
    selection and the drag snapshot, when there is one, are inside the
    page, and no resize is under way. *)
Definition optInPage (o : option NormalizedRect) : Prop :=
  match o with
  | Some r => inPage r
  | None => True
  end.

Definition pageInvariant (s : State) : Prop :=
  optInPage (selection s) /\
  optInPage (initialSelectionRef s) /\
  isResizing (interactionMode s) = false.

Definition isResizeHandleDown (ev : Event) : bool :=
  match ev with
  | EvPointerDown (ResizeHandle _) _ => true
  | _ => false
  end.

(** * The rest of the component

    Wheel navigation, the page buttons, the restoration of the scroll
    position and the geometry of the overlay, with the toolbar of the host
    that writes the lifted [tool] and [zoom]. *)

(** ** Wheel navigation *)

(** The fields of the [WheelEvent] that [handleWheel] reads. *)
Record WheelEvent : Type := mkWheel {
  ctrlKey : bool;
  deltaY : Q
}.

(** The component with the [scrollThrottle] ref (line 86). *)
Record NavState : Type := mkNav {
  component : State;
  scrollThrottle : bool
}.

(** [const threshold = 10] (line 293). *)
Definition threshold : Q := 10.

(** [handleWheel] (lines 283-326).  The listener is attached to the
    container, so it runs only when there is one. *)
Definition handleWheel (props : Props) (e : WheelEvent) (n : NavState)
  : NavState * list Call :=
  let s := component n in
  match containerRef s with
  | None => (n, [])
  | Some c =>
    if ctrlKey e then (n, [])
    else if scrollThrottle n then (n, [])
    else
      let isScrollable := Qltb (clientHeight c) (scrollHeight c) in
      let delta := deltaY e in
      if Qltb 0 delta then
        let isAtBottom :=
          Qltb (Qabs (scrollHeight c - clientHeight c - scrollTop c))
               threshold in
        if negb isScrollable || isAtBottom then
          if (currentPageIndex s
              <? Z.of_nat (List.length (pageImages props)) - 1)%Z
          then
            (mkNav (setCurrentPageIndex (currentPageIndex s + 1)
                      (setPreservedScrollRatio
                         (Some (mkPoint (getCurrentXRatio s) 0)) s))
                   true,
             [PreventDefault; SetTimeout 500])
          else (n, [])
        else (n, [])
      else if Qltb delta 0 then
        let isAtTop := Qltb (scrollTop c) threshold in
        if negb isScrollable || isAtTop then
          if (0 <? currentPageIndex s)%Z
          then
            (mkNav (setCurrentPageIndex (currentPageIndex s - 1)
                      (setPreservedScrollRatio
                         (Some (mkPoint (getCurrentXRatio s) 1)) s))
                   true,
             [PreventDefault; SetTimeout 500])
          else (n, [])
        else (n, [])
      else (n, [])
  end.

(** The callback of the timers of lines 307 and 322. *)
Definition releaseThrottle (n : NavState) : NavState :=
  mkNav (component n) false.

(** ** Page buttons *)

(** The previous-page button (lines 671-681); [disabled] on the first
    page. *)
Definition clickPrevious (s : State) : State :=
  if (currentPageIndex s =? 0)%Z then s
  else
    setCurrentPageIndex (Z.max 0 (currentPageIndex s - 1))
      (setPreservedScrollRatio (Some (mkPoint (getCurrentXRatio s) 0)) s).

(** The next-page button (lines 694-704); [disabled] on the last page. *)
Definition clickNext (props : Props) (s : State) : State :=
  if (currentPageIndex s
      =? Z.of_nat (List.length (pageImages props)) - 1)%Z then s
  else
    setCurrentPageIndex
      (Z.min (Z.of_nat (List.length (pageImages props)) - 1)
             (currentPageIndex s + 1))
      (setPreservedScrollRatio (Some (mkPoint (getCurrentXRatio s) 0)) s).

(** ** Scroll restoration *)


(** ** Overlay *)

(** The rectangle that the overlay clears (lines 555-558 and 565), in the
    pixels of a canvas of the size of the page. *)
Record Hole : Type := mkHole { holeX : Q; holeY : Q; holeW : Q; holeH : Q }.

Definition overlayHole (page : PageImage) (r : NormalizedRect) : Hole :=
  mkHole ((xmin r / 1000) * width page)
         ((ymin r / 1000) * height page)
         (((xmax r - xmin r) / 1000) * width page)
         (((ymax r - ymin r) / 1000) * height page).

(** The percentages of the selection box (lines 626-631). *)
Record BoxStyle : Type := mkBoxStyle {
  leftPercent : Q;
  topPercent : Q;
  widthPercent : Q;
  heightPercent : Q
}.

Definition selectionBoxStyle (r : NormalizedRect) : BoxStyle :=
  mkBoxStyle (xmin r / 10) (ymin r / 10)
             ((xmax r - xmin r) / 10) ((ymax r - ymin r) / 10).

(** ** The toolbar of the host

    The zoom buttons of the host (App, lines 562-571 of
    [src/unnamed/part_001]) write the lifted zoom. *)

Definition zoomOut (s : State) : State :=
  setZoom (Qmax (1 # 10) (zoom s - (1 # 4))) s.

Definition zoomIn (s : State) : State :=
  setZoom (Qmin 10 (zoom s + (1 # 4))) s.

Definition zoomReset (s : State) : State := setZoom 1 s.

(** ** Every event of the editor *)

Inductive NavEvent : Type :=
  | NavComponent (ev : Event)
  | NavWheel (e : WheelEvent)
  | NavThrottleTimeout
  | NavPreviousButton
  | NavNextButton
  | NavToolButton (t : Tool)
  | NavZoomOut
  | NavZoomIn
  | NavZoomReset.

(** An event that is not one of [Event]: its handler, then the render
    with its effects, as in [step]. *)
Definition navStep (props : Props) (ev : NavEvent) (n : NavState)
  : NavState * list Call :=
  let s := component n in
  let withEffects (handled : NavState * list Call) :=
    let s1 := component (fst handled) in
    let s2 := layoutEffect props s s1 in
    (mkNav s2 (scrollThrottle (fst handled)),
     (snd handled ++ selectionEffect s s1 ++ selectionEffect s1 s2)%list) in
  match ev with
  | NavComponent ev' =>
    (mkNav (fst (step props ev' s)) (scrollThrottle n),
     snd (step props ev' s))
  | NavWheel e => withEffects (handleWheel props e n)
  | NavThrottleTimeout => (releaseThrottle n, [])
  | NavPreviousButton =>
    withEffects (mkNav (clickPrevious s) (scrollThrottle n), [])
  | NavNextButton =>
    withEffects (mkNav (clickNext props s) (scrollThrottle n), [])
  | NavToolButton t => (mkNav (setTool t s) (scrollThrottle n), [])
  | NavZoomOut => (mkNav (zoomOut s) (scrollThrottle n), [])
  | NavZoomIn => (mkNav (zoomIn s) (scrollThrottle n), [])
  | NavZoomReset => (mkNav (zoomReset s) (scrollThrottle n), [])
  end.

Fixpoint navRun (props : Props) (evs : list NavEvent) (n : NavState)
  : NavState * list Call :=
  match evs with
  | [] => (n, [])
  | ev :: rest =>
    let r1 := navStep props ev n in
    let r2 := navRun props rest (fst r1) in
    (fst r2, (snd r1 ++ snd r2)%list)
  end.

(** The page index points at a page. *)
Definition pageInRange (props : Props) (s : State) : Prop :=
  (0 <= currentPageIndex s < Z.of_nat (List.length (pageImages props)))%Z.

(** The zoom is between the floor and the ceiling of the zoom buttons. *)
Definition zoomInRange (s : State) : Prop :=
  1 # 10 <= zoom s /\ zoom s <= 10.

Definition isWheel (ev : NavEvent) : bool :=
  match ev with NavWheel _ => true | _ => false end.

(** Sample inputs for the statements about navigation. *)
Definition navFresh : NavState := mkNav freshState false.

Definition navSelected : NavState := mkNav selectedState false.

Definition keyPress (k : Key) : KeyEvent := mkKeyEvent k false false.

(** What a change of page leaves behind: the new index, no selection, the
    anchor that the scroll restoration will use, and the view settings and
    the mode of before. *)
Definition arrivedAt (s s2 : State) (target : Z) (anchor : Point) : Prop :=
  currentPageIndex s2 = target /\
  selection s2 = None /\
  viewportCenter s2 = Some anchor /\
  preservedScrollRatio s2 = None /\
  isLayoutReady s2 = true /\
  zoom s2 = zoom s /\
  tool s2 = tool s /\
  interactionMode s2 = interactionMode s.

(** What [onSelectionChange] hears when a selection, if any, is dropped. *)
Definition droppedSelection (s : State) : list bool :=
  match selection s with
  | Some _ => [false]
  | None => []
  end.

(** The wheel conditions of lines 295-299 and 310-314 as propositions. *)
Definition atBottom (c : Container) : Prop :=
  scrollHeight c <= clientHeight c \/
  Qabs (scrollHeight c - clientHeight c - scrollTop c) < threshold.

Definition atTop (c : Container) : Prop :=
  scrollHeight c <= clientHeight c \/ scrollTop c < threshold.

(** A container that shows the middle of a tall page. *)
Definition midPageContainer : Container :=
  mkContainer 1000 1000 0 400 1000 2000.

Definition navMidPage : NavState :=
  mkNav (setContainerRef (Some midPageContainer) selectedState) false.

(** A pan drag: the pointer moves that follow the pointer-down. *)
Definition dragThrough (moves : list PointerEvent) (s : State) : State :=
  fold_left (fun acc e => fst (handlePointerMove e acc)) moves s.

(** The last position of a drag that started at [start]. *)
Fixpoint lastPosition (start : Point) (moves : list PointerEvent) : Point :=
  match moves with
  | [] => start
  | e :: rest => lastPosition (mkPoint (clientX e) (clientY e)) rest
  end.


(** The pan tool with the pointer down at (400, 300). *)
Definition panningState : State := Eval vm_compute in
  fst (step addProps (EvPointerDown Background (pointerAt 400 300)) panState).

(** The offsets of the container lie in its scroll range. *)
Definition scrolledInRange (c : Container) : Prop :=
  0 <= scrollLeft c <= scrollWidth c - clientWidth c /\
  0 <= scrollTop c <= scrollHeight c - clientHeight c.

(** A pan that started at [start] with the container [c] can follow the
    pointer to [p] without reaching an end of the scroll range. *)
Definition panInRange (c : Container) (start p : Point) : Prop :=
  0 <= scrollLeft c - (px p - px start) <= scrollWidth c - clientWidth c /\
  0 <= scrollTop c - (py p - py start) <= scrollHeight c - clientHeight c.

(** The same pointer-down over a page that is zoomed in: the container
    shows a part of it and can scroll both ways. *)
Definition zoomedContainer : Container :=
  mkContainer 800 600 300 400 1600 2240.

Definition panningZoomedState : State := Eval vm_compute in
  setContainerRef (Some zoomedContainer) panningState.

(** The size at which the wrapper shows the page (lines 596-597). *)
Definition displayedWidth (page : PageImage) (s : State) : Q :=
  width page * fitScale s * zoom s.

Definition displayedHeight (page : PageImage) (s : State) : Q :=
  height page * fitScale s * zoom s.

(** An edit session before any layout pass. *)
Definition editUnlaidState : State := Eval vm_compute in
  initialState editProps select 1 (Some unitCanvas) (Some unitContainer).

(** * The host

    The part of [App] ([src/unnamed/part_001]) that opens the editor,
    receives its commits and turns a normalized rectangle into pixels. *)

(** [PageImage.pageIndex], under a name that the fields of the
    questions do not hide. *)
Definition pageNumberOf (p : PageImage) : nat := pageIndex p.

(** [Math.round]: the nearest integer, halves upwards. *)
Definition round (q : Q) : Z := Qfloor (q + (1 # 2)).

(** What is used of the arithmetic of binary64.  An operation returns the
    double nearest to its exact result [x]: within the range of the format
    the two differ by at most [2^-53] of [x], or by [2^-1075] where [x] is
    subnormal. *)
Definition unitRoundoff : Q := Eval vm_compute in (1 # (2 ^ 53)%positive).

Definition underflowError : Q :=
  Eval vm_compute in (1 # (2 ^ 1075)%positive).

Definition binary64Range : Q := Eval vm_compute in inject_Z (2 ^ 1023).

Definition roundsAsBinary64 (fl : Q -> Q) : Prop :=
  forall x : Q,
    Qabs x <= binary64Range ->
    Qabs (fl x - x) <= Qabs x * unitRoundoff + underflowError.

(** Rounding to the nearest double keeps the order of the exact results,
    and leaves a number that is a double as it is. *)
Definition monotoneRounding (fl : Q -> Q) : Prop :=
  forall x y : Q, x <= y -> fl x <= fl y.

Definition representable (fl : Q -> Q) (x : Q) : Prop := fl x == x.

Module App.

(** [QuestionSegment] is declared in [types.ts], which is not among the
    sources; the fields are those that [App] reads and writes. *)
Record QuestionSegment : Type := mkQuestion {
  id : string;
  content : string;
  type : string;
  isImage : bool;
  pageIndex : option nat;
  rect : option NormalizedRect
}.

(** The [useState] cells of [App] that the editor workflow uses
    (lines 133-151).  [selectedIds] is a [Set<string>]: a list without
    repetition, in insertion order. *)
Record Host : Type := mkHost {
  questions : list QuestionSegment;
  pageImages : list PageImage;
  isManualCropping : bool;
  editingQuestionId : option string;
  isBatchMode : bool;
  selectedIds : list string
}.

(** What [cropImage] resolves with: the original image, or the pixels of a
    box of the original. *)
Inductive CropResult : Type :=
  | WholeImage
  | Cropped (xStart yStart width height : Z).

(** [cropImage] (lines 182-224).  [loads] tells whether the image decodes
    ([onload] or [onerror]) and [hasContext] whether the canvas gives a 2d
    context. *)
Definition cropImage (loads hasContext : bool)
  (xmin ymin xmax ymax originalWidth originalHeight : Q) : CropResult :=
  if loads then
    let xStart := round ((xmin / 1000) * originalWidth) in
    let xEnd := round ((xmax / 1000) * originalWidth) in
    let yStart := round ((ymin / 1000) * originalHeight) in
    let yEnd := round ((ymax / 1000) * originalHeight) in
    let width := (xEnd - xStart)%Z in
    let height := (yEnd - yStart)%Z in
    if ((width <=? 0) || (height <=? 0))%Z then WholeImage
    else if hasContext then Cropped xStart yStart width height
    else WholeImage
  else WholeImage.

(** A string cell read as a condition ([if (editingQuestionId)],
    [!!editingQuestionId]): [null] and the empty string are falsy. *)
Definition truthy (v : option string) : option string :=
  match v with
  | Some EmptyString => None
  | _ => v
  end.

(** [cropImage] with the rounding of its binary64 operations written
    out: [fl] takes the exact result of a division or of a product to the
    double that the operation returns.  [Math.round] and the difference of
    two of its results are exact.  [cropImage] above is the case in which
    no operation rounds. *)
Definition cropImageRounded (fl : Q -> Q) (loads hasContext : bool)
  (xmin ymin xmax ymax originalWidth originalHeight : Q) : CropResult :=
  if loads then
    let xStart := round (fl (fl (xmin / 1000) * originalWidth)) in
    let xEnd := round (fl (fl (xmax / 1000) * originalWidth)) in
    let yStart := round (fl (fl (ymin / 1000) * originalHeight)) in
    let yEnd := round (fl (fl (ymax / 1000) * originalHeight)) in
    let width := (xEnd - xStart)%Z in
    let height := (yEnd - yStart)%Z in
    if ((width <=? 0) || (height <=? 0))%Z then WholeImage
    else if hasContext then Cropped xStart yStart width height
    else WholeImage
  else WholeImage.

(** [pageImages[pageIndex]]. *)
Definition pageAt (pages : list PageImage) (i : Z) : option PageImage :=
  if (i <? 0)%Z then None else nth_error pages (Z.to_nat i).

(** The id of a manually cropped question: [`manual-${Date.now()}`]. *)
Definition manualId (now : N) : string :=
  ("manual-" ++ NilEmpty.string_of_uint (N.to_uint now))%string.

(** [handleManualCropConfirm] (lines 302-349), after [cropImage] has
    resolved with [croppedDataUrl].  The callback reads [editingQuestionId]
    and [pageImages] of the render it was built in ([captured]); its
    updates are applied to the state at the time the crop resolves
    ([h]), the one of the question list through an updater function. *)
Definition handleManualCropConfirm (captured : Host) (pageIndex : Z)
  (r : NormalizedRect) (croppedDataUrl : string) (now : N) (h : Host)
  : Host :=
  match pageAt (pageImages captured) pageIndex with
  | None => h
  | Some page =>
    match truthy (editingQuestionId captured) with
    | Some editing =>
      mkHost
        (map (fun q =>
                if String.eqb (id q) editing
                then mkQuestion (id q) croppedDataUrl (type q) (isImage q)
                       (Some (pageNumberOf page)) (Some r)
                else q)
             (questions h))
        (pageImages h) false None (isBatchMode h) (selectedIds h)
    | None =>
      mkHost
        (questions h
         ++ [mkQuestion (manualId now) croppedDataUrl "other" true
               (Some (pageNumberOf page)) (Some r)])
        (pageImages h) (isManualCropping h) (editingQuestionId h)
        (isBatchMode h) (selectedIds h)
    end
  end.

(** [handleCloseCropper] (lines 351-354). *)
Definition handleCloseCropper (h : Host) : Host :=
  mkHost (questions h) (pageImages h) false None (isBatchMode h)
    (selectedIds h).

(** [questions.find(q => q.id === id)]. *)
Definition findQuestion (qid : string) (h : Host) : option QuestionSegment :=
  find (fun q => String.eqb (id q) qid) (questions h).

(** [handleEditQuestion] (lines 294-300). *)
Definition handleEditQuestion (qid : string) (h : Host) : Host :=
  match findQuestion qid h with
  | Some q =>
    match isImage q, pageIndex q with
    | true, Some _ =>
      mkHost (questions h) (pageImages h) true (Some qid) (isBatchMode h)
        (selectedIds h)
    | _, _ => h
    end
  | None => h
  end.

(** [pageImages.findIndex(p => p.pageIndex === n)], with -1 when no page
    matches. *)
Fixpoint findIndexFrom (n : nat) (pages : list PageImage) (from : Z) : Z :=
  match pages with
  | [] => (-1)%Z
  | p :: rest =>
    if Nat.eqb (pageNumberOf p) n then from
    else findIndexFrom n rest (from + 1)%Z
  end.

(** [getInitialPageIndex] (lines 499-508). *)
Definition getInitialPageIndex (h : Host) : Z :=
  match truthy (editingQuestionId h) with
  | Some editing =>
    match findQuestion editing h with
    | Some q =>
      match pageIndex q with
      | Some n =>
        let index := findIndexFrom n (pageImages h) 0 in
        if (0 <=? index)%Z then index else 0%Z
      | None => 0%Z
      end
    | None => 0%Z
    end
  | None => 0%Z
  end.

(** [getInitialRect] (lines 510-516). *)
Definition getInitialRect (h : Host) : option NormalizedRect :=
  match truthy (editingQuestionId h) with
  | Some editing =>
    match findQuestion editing h with
    | Some q => rect q
    | None => None
    end
  | None => None
  end.

(** The props that [App] gives the editor (lines 832-847). *)
Definition editorProps (h : Host) : Props :=
  mkProps (pageImages h) (getInitialPageIndex h)
    (match truthy (editingQuestionId h) with
     | Some _ => true
     | None => false
     end)
    (getInitialRect h)
    (List.length (questions h) + 1).

(** [Set.prototype.has], [add] and [delete] on the list of ids. *)
Definition has (qid : string) (ids : list string) : bool :=
  existsb (String.eqb qid) ids.

Definition add (qid : string) (ids : list string) : list string :=
  if has qid ids then ids else (ids ++ [qid])%list.

Definition delete (qid : string) (ids : list string) : list string :=
  filter (fun i => negb (String.eqb qid i)) ids.

(** [new Set(questions.map(q => q.id))]. *)
Definition setOf (ids : list string) : list string :=
  fold_left (fun acc i => add i acc) ids [].

(** [handleDeleteQuestion] (lines 285-292). *)
Definition handleDeleteQuestion (qid : string) (h : Host) : Host :=
  mkHost (filter (fun q => negb (String.eqb (id q) qid)) (questions h))
    (pageImages h) (isManualCropping h) (editingQuestionId h)
    (isBatchMode h) (delete qid (selectedIds h)).

(** [toggleBatchMode] (lines 367-373). *)
Definition toggleBatchMode (h : Host) : Host :=
  mkHost (questions h) (pageImages h) false None (negb (isBatchMode h)) [].

(** [toggleSelect] (lines 375-385). *)
Definition toggleSelect (qid : string) (h : Host) : Host :=
  mkHost (questions h) (pageImages h) (isManualCropping h)
    (editingQuestionId h) (isBatchMode h)
    (if has qid (selectedIds h) then delete qid (selectedIds h)
     else add qid (selectedIds h)).

(** [toggleSelectAll] (lines 387-393). *)
Definition toggleSelectAll (h : Host) : Host :=
  mkHost (questions h) (pageImages h) (isManualCropping h)
    (editingQuestionId h) (isBatchMode h)
    (if Nat.eqb (List.length (selectedIds h)) (List.length (questions h))
     then []
     else setOf (map id (questions h))).

(** [reset] (lines 356-364). *)
Definition reset (h : Host) : Host :=
  mkHost [] [] (isManualCropping h) None false [].

(** [/\.[^/.]+$/] from a position on: one or more characters, none of them
    a slash or a dot, up to the end of the string. *)
Fixpoint isExtension (s : string) : bool :=
  match s with
  | EmptyString => false
  | String c rest =>
    negb (Ascii.eqb c "/"%char) && negb (Ascii.eqb c "."%char)
    && match rest with
       | EmptyString => true
       | String _ _ => isExtension rest
       end
  end.

(** [name.replace(/\.[^/.]+$/, "")]: the leftmost match is removed. *)
Fixpoint stripExtension (name : string) : string :=
  match name with
  | EmptyString => EmptyString
  | String c rest =>
    if Ascii.eqb c "."%char && isExtension rest then EmptyString
    else String c (stripExtension rest)
  end.

(** What [parseFile] resolves with: the pages of a PDF document, or the
    text of a Word or text file. *)
Inductive ParseResult : Type :=
  | Pages (pages : list PageImage)
  | Text (text : string).

(** The character that delimits the attribute of the title card. *)
Definition doubleQuote : string := String (ascii_of_nat 34) "".

(** The title card of lines 240-245. *)
Definition titleQuestion (name : string) (now : N) : QuestionSegment :=
  mkQuestion ("title-" ++ NilEmpty.string_of_uint (N.to_uint now))
    ("<div style=" ++ doubleQuote
     ++ "text-align: center; font-weight: bold; font-size: 28px; "
     ++ "line-height: 1.4; color: #1e293b; padding: 20px 10px;"
     ++ doubleQuote ++ ">" ++ stripExtension name ++ "</div>")
    "text" false None None.

(** [handleFileSelect] (lines 226-283), after [parseFile] has settled:
    [parsed] is [None] when it was rejected.  [titleNow] and [bodyNow] are
    the two readings of [Date.now()]. *)
Definition handleFileSelect (name : string) (parsed : option ParseResult)
  (titleNow bodyNow : N) (h : Host) : Host :=
  match parsed with
  | Some (Pages pages) =>
    mkHost [titleQuestion name titleNow] pages true None false []
  | Some (Text text) =>
    mkHost [titleQuestion name titleNow;
            mkQuestion ("body-" ++ NilEmpty.string_of_uint (N.to_uint bodyNow))
              text "other" false None None]
      [] (isManualCropping h) None false []
  | None => mkHost [] [] (isManualCropping h) None false []
  end.

(** What [generateQuestionBlob] (lines 396-429) gives for a card: an
    image, [null], or a rejection. *)
Inductive BlobOutcome : Type := Blob | NoBlob | BlobFails.

(** The name of the file of the card at position [i] of the list
    (line 447). *)
Definition exportFileName (i : nat) : string :=
  ("题目_" ++ NilEmpty.string_of_uint (Nat.to_uint (i + 1)) ++ ".png")%string.

(** The loop of lines 440-451, from position [i] of the list: the names of
    the files put into the archive, or [None] when a blob is rejected. *)
Fixpoint exportFiles (blobOf : QuestionSegment -> BlobOutcome)
  (selected : list string) (qs : list QuestionSegment) (i : nat)
  : option (list string) :=
  match qs with
  | [] => Some []
  | q :: rest =>
    if has (id q) selected then
      match blobOf q with
      | Blob =>
        option_map (cons (exportFileName i))
          (exportFiles blobOf selected rest (S i))
      | NoBlob => exportFiles blobOf selected rest (S i)
      | BlobFails => None
      end
    else exportFiles blobOf selected rest (S i)
  end.

(** [handleBatchExport] (lines 431-495): the state afterwards and the
    files of the archive that was saved, if one was.  [zip.generateAsync]
    is taken to resolve. *)
Definition handleBatchExport (blobOf : QuestionSegment -> BlobOutcome)
  (h : Host) : Host * option (list string) :=
  match selectedIds h with
  | [] => (h, None)
  | _ :: _ =>
    match exportFiles blobOf (selectedIds h) (questions h) 0 with
    | Some [] => (h, None)
    | Some files =>
      (mkHost (questions h) (pageImages h) (isManualCropping h)
         (editingQuestionId h) false [],
       Some files)
    | None => (h, None)
    end
  end.

(** What the user can do to the question list and to the batch
    selection.  A card exists only for a question of the list, so
    [toggleSelect] and [handleDeleteQuestion] are called with the id of a
    question of the list. *)
Inductive Action : Type :=
  | Confirm (pageIndex : Z) (r : NormalizedRect) (croppedDataUrl : string)
            (now : N)
  | Close
  | Edit (qid : string)
  | Delete (qid : string)
  | ToggleBatchMode
  | ToggleSelect (qid : string)
  | ToggleSelectAll
  | Reset
  | FileSelect (name : string) (parsed : option ParseResult)
               (titleNow bodyNow : N)
  | BatchExport (blobOf : QuestionSegment -> BlobOutcome).

Definition questionIds (h : Host) : list string := map id (questions h).

Definition enabled (a : Action) (h : Host) : bool :=
  match a with
  | ToggleSelect qid => has qid (questionIds h)
  | _ => true
  end.

Definition act (a : Action) (h : Host) : Host :=
  match a with
  | Confirm i r url now => handleManualCropConfirm h i r url now h
  | Close => handleCloseCropper h
  | Edit qid => handleEditQuestion qid h
  | Delete qid => handleDeleteQuestion qid h
  | ToggleBatchMode => toggleBatchMode h
  | ToggleSelect qid => if enabled a h then toggleSelect qid h else h
  | ToggleSelectAll => toggleSelectAll h
  | Reset => reset h
  | FileSelect name parsed titleNow bodyNow =>
    handleFileSelect name parsed titleNow bodyNow h
  | BatchExport blobOf => fst (handleBatchExport blobOf h)
  end.

(** Every selected id is the id of a question of the list. *)
Definition selectionWithinList (h : Host) : Prop :=
  forall qid : string,
    has qid (selectedIds h) = true -> has qid (questionIds h) = true.

(** A document of three pages numbered from 1, as [parsePdfToImages]
    numbers them, with a title card. *)
Definition sampleHost : Host :=
  mkHost
    [mkQuestion "title-1" "<div>exam</div>" "text" false None None]
    [mkPage 1 "data:image/png;base64,AAAA" 2000 2800;
     mkPage 2 "data:image/png;base64,BBBB" 2000 2800;
     mkPage 3 "data:image/png;base64,CCCC" 2000 2800]
    true None false [].

End App.

(** A pointer-down on a resize handle, among all the events of the
    editor. *)
Definition isNavResizeHandleDown (ev : NavEvent) : bool :=
  match ev with
  | NavComponent ev' => isResizeHandleDown ev'
  | _ => false
  end.

(** The commits among the calls of the component. *)
Definition commits (calls : list Call) : list (Z * NormalizedRect) :=
  flat_map (fun c => match c with
                     | OnConfirm i r => [(i, r)]
                     | _ => []
                     end) calls.

(** * The services *)

(** ** [services/parser.ts] *)

Module Parser.

(** [String.prototype.split('.')]: [current] is the piece being read. *)
Fixpoint split (current name : string) : list string :=
  match name with
  | EmptyString => [current]
  | String c rest =>
    if Ascii.eqb c "."%char then current :: split "" rest
    else split (current ++ String c "") rest
  end.

(** [Array.prototype.pop]: the last element, [undefined] on an empty
    array. *)
Definition pop (pieces : list string) : option string :=
  match pieces with
  | [] => None
  | _ :: _ => Some (last pieces ""%string)
  end.

(** [toLowerCase] on the letters A-Z.  The bytes of other characters are
    left as they are: none of them is mapped to a letter of ["pdf"],
    ["docx"] or ["txt"]. *)
Definition lowerAscii (c : ascii) : ascii :=
  let n := nat_of_ascii c in
  if ((65 <=? n) && (n <=? 90))%nat then ascii_of_nat (n + 32) else c.

Fixpoint toLowerCase (s : string) : string :=
  match s with
  | EmptyString => EmptyString
  | String c rest => String (lowerAscii c) (toLowerCase rest)
  end.

Inductive FileType : Type := pdf | docx | txt.

(** The dispatch of [parseFile] (lines 14-27): the parser that is run, or
    [None] when the function throws the error of line 25. *)
Definition parseFile (name : string) : option FileType :=
  match option_map toLowerCase (pop (split "" name)) with
  | Some fileType =>
    if String.eqb fileType "pdf" then Some pdf
    else if String.eqb fileType "docx" then Some docx
    else if String.eqb fileType "txt" then Some txt
    else None
  | None => None
  end.

(** What happens to page [i] of the document in the loop of
    [parsePdfToImages]: the canvas gives no 2d context, the page is
    rendered to an image of the size of its viewport, or one of the awaited
    calls is rejected. *)
Inductive PageOutcome : Type :=
  | NoContext
  | Rendered (imageData : string) (width height : Q)
  | Rejected.

(** The loop of lines 39-60, from page [i] for [count] more pages. *)
Fixpoint renderPages (render : nat -> PageOutcome) (i count : nat)
  (pages : list PageImage) : option (list PageImage) :=
  match count with
  | O => Some pages
  | S count' =>
    match render i with
    | NoContext => renderPages render (S i) count' pages
    | Rendered data w h =>
      renderPages render (S i) count' (pages ++ [mkPage i data w h])
    | Rejected => None
    end
  end.

(** [parsePdfToImages] (lines 32-67): [numPages] is [None] when the
    document cannot be loaded; the result is [None] when the function
    throws the error of line 65. *)
Definition parsePdfToImages (numPages : option nat)
  (render : nat -> PageOutcome) : option (list PageImage) :=
  match numPages with
  | Some n => renderPages render 1 n []
  | None => None
  end.

End Parser.

(** The size in pixels of the image of a page.  [parsePdfToImages] stores
    the size of the viewport, which need not be whole, as [width] and
    [height] (lines 57-58) and renders into a canvas whose [width] and
    [height] were assigned the same numbers (lines 48-49); a canvas keeps
    the integer part of what is assigned. *)
Definition imageWidth (p : PageImage) : Z := Qfloor (width p).

Definition imageHeight (p : PageImage) : Z := Qfloor (height p).

(** [parseFile] with the parsers it hands the file to: [docxHtml] is what
    [parseDocxToHtml] gives ([None] when it throws) and [text] is
    [file.text()]. *)
Definition parseUpload (name : string) (numPages : option nat)
  (render : nat -> Parser.PageOutcome) (docxHtml : option string)
  (text : string) : option App.ParseResult :=
  match Parser.parseFile name with
  | Some Parser.pdf =>
    option_map App.Pages (Parser.parsePdfToImages numPages render)
  | Some Parser.docx => option_map App.Text docxHtml
  | Some Parser.txt => Some (App.Text text)
  | None => None
  end.

(** ** [services/geminiService.ts] *)

Module Gemini.

(** The size of the canvas that [resizeImageForAnalysis] draws on
    (lines 21-37), from the size of the image.  The quotient is exact. *)
Definition resizeImageForAnalysis (width height maxDimension : Z) : Z * Z :=
  if ((maxDimension <? width) || (maxDimension <? height))%Z then
    if (height <? width)%Z then
      (maxDimension,
       round (inject_Z (height * maxDimension) / inject_Z width))
    else
      (round (inject_Z (width * maxDimension) / inject_Z height),
       maxDimension)
  else (width, height).

(** [interface BoxSegment] (lines 130-136). *)
Record BoxSegment : Type := mkBox {
  ymin : Q;
  ymax : Q;
  xmin : Q;
  xmax : Q;
  type : string
}.

(** [parseApiKey] (lines 4-10): [None] when it throws. *)
Definition parseApiKey (key : option string) : option string :=
  match key with
  | Some k => if String.eqb k "" then None else Some k
  | None => None
  end.

Definition MAX_RETRIES : nat := 3.

Inductive Effect : Type :=
  | GenerateContent
  | Warn (attempt : nat)
  | Delay (ms : N)
  | LogError.

Inductive Outcome : Type :=
  | Throws (message : string)
  | Returns (segments : list BoxSegment).

(** The loop of lines 162-197, from [attempt] for [fuel] more attempts.
    [respond attempt] is [Some segments] when the request of that attempt
    succeeds and its text parses, and [None] when the body of the [try]
    throws. *)
Fixpoint attempts (respond : nat -> option (list BoxSegment))
  (attempt fuel : nat) : option (list BoxSegment) * list Effect :=
  match fuel with
  | O => (None, [])
  | S fuel' =>
    match respond attempt with
    | Some segments => (Some segments, [GenerateContent])
    | None =>
      let waited :=
        if (attempt <? MAX_RETRIES)%nat
        then [Delay (1000 * N.of_nat attempt)]
        else [] in
      let rest := attempts respond (S attempt) fuel' in
      (fst rest, (GenerateContent :: Warn attempt :: waited ++ snd rest)%list)
    end
  end.

(** [segmentPageImage] (lines 138-201), after the image has been
    resized. *)
Definition segmentPageImage (key : option string)
  (respond : nat -> option (list BoxSegment)) : Outcome * list Effect :=
  match parseApiKey key with
  | None => (Throws "缺少 API Key。", [])
  | Some _ =>
    let tried := attempts respond 1 MAX_RETRIES in
    match fst tried with
    | Some segments => (Returns segments, snd tried)
    | None => (Returns [], (snd tried ++ [LogError])%list)
    end
  end.

(** How many requests were sent, and how long the function slept. *)
Definition requests (effects : list Effect) : nat :=
  List.length (filter (fun e => match e with
                                | GenerateContent => true
                                | _ => false
                                end) effects).

Definition slept (effects : list Effect) : N :=
  fold_right (fun e total => match e with
                             | Delay ms => (ms + total)%N
                             | _ => total
                             end) 0%N effects.

End Gemini.

(** * Verification *)

(** ** Arithmetic helpers *)

Lemma Qltb_true (a b : Q) : Qltb a b = true <-> a < b.
Proof.
  unfold Qltb. rewrite negb_true_iff, <- not_true_iff_false, Qle_bool_iff.
  split; [apply Qnot_le_lt | apply Qlt_not_le].
Qed.

Lemma Qltb_false (a b : Q) : Qltb a b = false <-> b <= a.
Proof.
  unfold Qltb. rewrite negb_false_iff. apply Qle_bool_iff.
Qed.

(** Name every [Qmin] and [Qmax] of the goal, keep its specification, and
    leave the rest to linear arithmetic. *)
Ltac name_minmax :=
  repeat match goal with
  | |- context [Qmin ?a ?b] =>
    let m := fresh "m" in
    pose proof (Q.min_spec a b); set (m := Qmin a b) in *; clearbody m
  | |- context [Qmax ?a ?b] =>
    let m := fresh "m" in
    pose proof (Q.max_spec a b); set (m := Qmax a b) in *; clearbody m
  | H : context [Qmin ?a ?b] |- _ =>
    let m := fresh "m" in
    pose proof (Q.min_spec a b); set (m := Qmin a b) in *; clearbody m
  | H : context [Qmax ?a ?b] |- _ =>
    let m := fresh "m" in
    pose proof (Q.max_spec a b); set (m := Qmax a b) in *; clearbody m
  end.

Ltac minmax_lra := name_minmax; lra.

(** Split on every [Qltb] test in the goal. *)
Ltac split_ltb :=
  repeat match goal with
  | |- context [Qltb ?a ?b] =>
    let E := fresh "E" in
    destruct (Qltb a b) eqn:E;
    [apply Qltb_true in E | apply Qltb_false in E]
  end.

Lemma clamp_bounds (v : Q) : 0 <= Qmax 0 (Qmin 1000 v) <= 1000.
Proof. minmax_lra. Qed.

Lemma clamp_id (v : Q) : 0 <= v <= 1000 -> Qmax 0 (Qmin 1000 v) == v.
Proof. intros Hv. minmax_lra. Qed.

Lemma clamp_compat (v w : Q) :
  v == w -> Qmax 0 (Qmin 1000 v) == Qmax 0 (Qmin 1000 w).
Proof. intros Hvw. minmax_lra. Qed.

(** ** The coordinate mapper *)

Lemma normalized_scale (v cw rw : Q) :
  0 < cw -> 0 < rw -> v * (cw / rw) / cw * 1000 == v / rw * 1000.
Proof. intros Hcw Hrw. field. split; lra. Qed.

Lemma getNormalizedCoordinates_bounds (e : PointerEvent) (s : State) :
  canvasLaidOut s ->
  let p := getNormalizedCoordinates e s in
  (0 <= px p <= 1000) /\ (0 <= py p <= 1000).
Proof.
  intros _. unfold getNormalizedCoordinates.
  destruct (imageCanvasRef s) as [c|]; cbn [px py].
  - split; apply clamp_bounds.
  - split; lra.
Qed.

Lemma getNormalizedCoordinates_some (e : PointerEvent) (s : State)
  (c : Canvas) :
  imageCanvasRef s = Some c ->
  0 < canvasWidth c -> 0 < canvasHeight c ->
  0 < rectWidth c -> 0 < rectHeight c ->
  let p := getNormalizedCoordinates e s in
  px p == Qmax 0 (Qmin 1000 ((clientX e - rectLeft c) / rectWidth c * 1000))
  /\
  py p == Qmax 0 (Qmin 1000 ((clientY e - rectTop c) / rectHeight c * 1000)).
Proof.
  intros Hc Hcw Hch Hrw Hrh. unfold getNormalizedCoordinates.
  rewrite Hc. cbn [px py].
  split; apply clamp_compat, normalized_scale; assumption.
Qed.

Lemma round_trip_axis (v left len : Q) :
  0 < len -> left <= v <= left + len ->
  left + percentOf (cssPercent (Qmax 0 (Qmin 1000 ((v - left) / len * 1000))))
           len == v.
Proof.
  intros Hlen Hv.
  assert (Hin : 0 <= (v - left) / len * 1000 <= 1000).
  { assert (Hq : 0 <= (v - left) / len <= 1).
    { split.
      - apply Qle_shift_div_l; lra.
      - apply Qle_shift_div_r; lra. }
    lra. }
  unfold percentOf, cssPercent.
  rewrite (clamp_id _ Hin). field. lra.
Qed.

(** C8.  With a canvas whose display scale is between 0.1 and 10 on each
    axis, the mapper takes the pointer's offset in the displayed canvas to
    intrinsic pixels, scales to 0-1000 and clamps, so the result is the
    clamped fraction of the displayed size; both coordinates are in
    [0, 1000]; and for a pointer over the canvas, laying the result out
    again over the same bounding rectangle gives the pointer's position
    back (exactly, in rational arithmetic). *)
Theorem C8_mapper_clamps_and_round_trips
  (c : Canvas) (e : PointerEvent) (s : State)
  (Hcanvas : imageCanvasRef s = Some c)
  (Hcw : 0 < canvasWidth c) (Hch : 0 < canvasHeight c)
  (Hsx : scaleBetween (1 # 10) 10 (canvasWidth c) (rectWidth c))
  (Hsy : scaleBetween (1 # 10) 10 (canvasHeight c) (rectHeight c)) :
  let internalX := (clientX e - rectLeft c) * (canvasWidth c / rectWidth c) in
  let internalY := (clientY e - rectTop c) * (canvasHeight c / rectHeight c) in
  let p := getNormalizedCoordinates e s in
  p = mkPoint (Qmax 0 (Qmin 1000 (internalX / canvasWidth c * 1000)))
              (Qmax 0 (Qmin 1000 (internalY / canvasHeight c * 1000))) /\
  px p == Qmax 0 (Qmin 1000 ((clientX e - rectLeft c) / rectWidth c * 1000))
  /\
  py p == Qmax 0 (Qmin 1000 ((clientY e - rectTop c) / rectHeight c * 1000))
  /\
  (0 <= px p <= 1000) /\ (0 <= py p <= 1000) /\
  (rectLeft c <= clientX e <= rectLeft c + rectWidth c ->
   toClientX c (px p) == clientX e) /\
  (rectTop c <= clientY e <= rectTop c + rectHeight c ->
   toClientY c (py p) == clientY e).
Proof.
  destruct Hsx as [Hsx1 Hsx2], Hsy as [Hsy1 Hsy2].
  assert (Hrw : 0 < rectWidth c) by lra.
  assert (Hrh : 0 < rectHeight c) by lra.
  destruct (getNormalizedCoordinates_some e s c Hcanvas Hcw Hch Hrw Hrh)
    as [Hx Hy].
  assert (Hlaid : canvasLaidOut s).
  { unfold canvasLaidOut. rewrite Hcanvas.
    split; [|split; [|split]]; assumption. }
  destruct (getNormalizedCoordinates_bounds e s Hlaid) as [Bx By].
  cbv zeta in *.
  split; [unfold getNormalizedCoordinates; rewrite Hcanvas; reflexivity|].
  repeat split; try assumption; try tauto.
  - intros Hover. unfold toClientX, percentOf, cssPercent. rewrite Hx.
    apply (round_trip_axis (clientX e) (rectLeft c) (rectWidth c));
      assumption.
  - intros Hover. unfold toClientY, percentOf, cssPercent. rewrite Hy.
    apply (round_trip_axis (clientY e) (rectTop c) (rectHeight c));
      assumption.
Qed.

Lemma C8_mapper_witness :
  let e := pointerAt 300 330 in
  let s := portraitState in
  let p := getNormalizedCoordinates e s in
  px p == 250 /\ py p == 250 /\
  toClientX sampleCanvas (px p) == 300 /\
  toClientY sampleCanvas (py p) == 330.
Proof.
  intros e s p.
  assert (Hcw : 0 < canvasWidth sampleCanvas) by reflexivity.
  assert (Hch : 0 < canvasHeight sampleCanvas) by reflexivity.
  assert (Hsx : scaleBetween (1 # 10) 10 (canvasWidth sampleCanvas)
                  (rectWidth sampleCanvas)).
  { split; vm_compute; discriminate. }
  assert (Hsy : scaleBetween (1 # 10) 10 (canvasHeight sampleCanvas)
                  (rectHeight sampleCanvas)).
  { split; vm_compute; discriminate. }
  destruct (C8_mapper_clamps_and_round_trips sampleCanvas e s eq_refl
              Hcw Hch Hsx Hsy) as (_ & _ & _ & _ & _ & Hrx & Hry).
  split; [reflexivity|]. split; [reflexivity|]. split.
  - apply Hrx. split; vm_compute; discriminate.
  - apply Hry. split; vm_compute; discriminate.
Defined.

(** ** Reading the state after an update *)

Lemma selection_setSelection (v : option NormalizedRect) (s : State) :
  selection (setSelection v s) = v.
Proof. destruct v; [reflexivity|]. unfold setSelection.
  destruct (selection s) eqn:E; [reflexivity | exact E].
Qed.

Lemma selection_releasePointerCapture (id : nat) (s : State) :
  selection (releasePointerCapture id s) = selection s.
Proof. unfold releasePointerCapture.
  destruct (existsb _ _); reflexivity.
Qed.

Lemma selection_setPointerCapture (id : nat) (s : State) :
  selection (setPointerCapture id s) = selection s.
Proof. unfold setPointerCapture.
  destruct (existsb _ _); reflexivity.
Qed.

(** A pointer move of the select tool in the middle of a gesture stores
    [newRectFor] of the snapshot. *)
Lemma handlePointerMove_select (e : PointerEvent) (s : State)
  (start : Point) (initial : NormalizedRect) :
  tool s = select -> interactionMode s <> none ->
  dragStartPoint s = Some start -> initialSelectionRef s = Some initial ->
  let p := getNormalizedCoordinates e s in
  selection (fst (handlePointerMove e s)) =
  Some (newRectFor (interactionMode s) initial (px p) (py p)
          (px p - px start) (py p - py start)).
Proof.
  intros Htool Hmode Hstart Hinit. unfold handlePointerMove.
  rewrite Htool, Hstart, Hinit.
  destruct (interactionMode s); try congruence; reflexivity.
Qed.

(** The sample selection is the one a drag from (100, 100) to (300, 300)
    draws in a fresh session, and the gesture leaves the state machine
    idle. *)
Lemma selectedState_is_drawn :
  exists r : NormalizedRect,
    selection drawnState = Some r /\
    rectEq r (mkRect 100 100 300 300) /\
    interactionMode drawnState = interactionMode selectedState /\
    tool drawnState = tool selectedState /\
    onSelectionChanges (snd (run addProps drawSelection freshState))
    = [true; true].
Proof.
  eexists. split; [reflexivity|].
  split; [unfold rectEq; vm_compute; repeat split|].
  split; [reflexivity|]. split; [reflexivity|].
  vm_compute. reflexivity.
Qed.

(** ** Moving *)

Lemma moveRect_spec (initial : NormalizedRect) (dx dy : Q) :
  inPage initial ->
  let r := moveRect initial dx dy in
  let tx := Qmin (Qmax dx (0 - xmin initial)) (1000 - xmax initial) in
  let ty := Qmin (Qmax dy (0 - ymin initial)) (1000 - ymax initial) in
  xmin r == xmin initial + tx /\ xmax r == xmax initial + tx /\
  ymin r == ymin initial + ty /\ ymax r == ymax initial + ty.
Proof.
  intros (Hx0 & Hx1 & Hx2 & Hy0 & Hy1 & Hy2). unfold moveRect.
  cbv zeta. cbn [xmin ymin xmax ymax].
  destruct (Qltb (xmin initial + dx) 0) eqn:Ex;
    [apply Qltb_true in Ex | apply Qltb_false in Ex];
  (destruct (Qltb (ymin initial + dy) 0) eqn:Ey;
    [apply Qltb_true in Ey | apply Qltb_false in Ey]);
  split_ltb; repeat split; minmax_lra.
Qed.

(** C4.  A pointer move in [moving] mode (select tool), from a snapshot
    that lies inside the page, translates the snapshot by the drag delta
    clamped on each axis to what keeps the rectangle inside the page; the
    width and the height are those of the snapshot, and the result is
    inside the page. *)
Theorem C4_moving_translates_within_page
  (e : PointerEvent) (s : State) (start : Point) (initial : NormalizedRect)
  (Hcanvas : canvasLaidOut s)
  (Htool : tool s = select)
  (Hmode : interactionMode s = moving)
  (Hstart : dragStartPoint s = Some start)
  (Hinit : initialSelectionRef s = Some initial)
  (Hin : inPage initial) :
  let p := getNormalizedCoordinates e s in
  let dx := px p - px start in
  let dy := py p - py start in
  let tx := Qmin (Qmax dx (0 - xmin initial)) (1000 - xmax initial) in
  let ty := Qmin (Qmax dy (0 - ymin initial)) (1000 - ymax initial) in
  exists r : NormalizedRect,
    selection (fst (handlePointerMove e s)) = Some r /\
    xmin r == xmin initial + tx /\ xmax r == xmax initial + tx /\
    ymin r == ymin initial + ty /\ ymax r == ymax initial + ty /\
    xmax r - xmin r == xmax initial - xmin initial /\
    ymax r - ymin r == ymax initial - ymin initial /\
    0 <= xmin r /\ xmax r <= 1000 /\ 0 <= ymin r /\ ymax r <= 1000 /\
    inPage r.
Proof.
  intros p dx dy tx ty.
  exists (moveRect initial dx dy).
  split.
  - rewrite (handlePointerMove_select e s start initial Htool
               ltac:(congruence) Hstart Hinit).
    rewrite Hmode. reflexivity.
  - destruct (moveRect_spec initial dx dy Hin) as (Hx0 & Hx1 & Hy0 & Hy1).
    fold tx ty in Hx0, Hx1, Hy0, Hy1.
    destruct Hin as (Ix0 & Ix1 & Ix2 & Iy0 & Iy1 & Iy2).
    assert (Htx : 0 - xmin initial <= tx <= 1000 - xmax initial)
      by (subst tx; minmax_lra).
    assert (Hty : 0 - ymin initial <= ty <= 1000 - ymax initial)
      by (subst ty; minmax_lra).
    unfold inPage. repeat split; try assumption; lra.
Qed.

Lemma C4_moving_witness :
  exists r : NormalizedRect,
    selection (fst (handlePointerMove (pointerAt 950 50) movingState))
    = Some r /\
    xmin r == 800 /\ xmax r == 1000 /\ ymin r == 0 /\ ymax r == 200.
Proof.
  assert (Hcanvas : canvasLaidOut movingState).
  { unfold canvasLaidOut. cbn. repeat split. }
  assert (Hin : inPage (mkRect 100 100 300 300)).
  { unfold inPage. cbn. repeat split; discriminate. }
  destruct (C4_moving_translates_within_page (pointerAt 950 50) movingState
              _ (mkRect 100 100 300 300)
              Hcanvas eq_refl eq_refl eq_refl eq_refl Hin)
    as (r & Hsel & Hx0 & Hx1 & Hy0 & Hy1 & _).
  exists r. split; [exact Hsel|].
  split; [rewrite Hx0; reflexivity|].
  split; [rewrite Hx1; reflexivity|].
  split; [rewrite Hy0; reflexivity|].
  rewrite Hy1; reflexivity.
Defined.

(** ** Resizing *)

Lemma resizeRect_minSpan (m : InteractionMode) (initial : NormalizedRect)
  (dx dy : Q) :
  minSpan initial -> minSpan (resizeRect m initial dx dy).
Proof.
  intros [Hx Hy]. unfold minSpan, resizeRect. cbn [xmin ymin xmax ymax].
  destruct (isWest m) eqn:W, (isEast m) eqn:E,
           (isNorth m) eqn:N, (isSouth m) eqn:S;
    split; minmax_lra.
Qed.

(** C5.  A pointer move in one of the eight resize modes (select tool),
    from a snapshot whose edges are at least 10 apart on both axes, stores
    [resizeRect]: the edges named by the compass direction are moved by the
    drag delta and clamped 10 units away from the opposite edge of the
    snapshot, the other edges are those of the snapshot, and the result
    still has its edges at least 10 apart, whatever the delta.  From
    (100, 100, 300, 300), a south-east drag by (50, -500) gives
    [xmax = 350] and [ymax = 110]. *)
Theorem C5_resizing_keeps_min_span
  (e : PointerEvent) (s : State) (start : Point) (initial : NormalizedRect)
  (Hcanvas : canvasLaidOut s)
  (Htool : tool s = select)
  (Hmode : isResizing (interactionMode s) = true)
  (Hstart : dragStartPoint s = Some start)
  (Hinit : initialSelectionRef s = Some initial)
  (Hspan : minSpan initial) :
  let m := interactionMode s in
  let p := getNormalizedCoordinates e s in
  let dx := px p - px start in
  let dy := py p - py start in
  exists r : NormalizedRect,
    selection (fst (handlePointerMove e s)) = Some r /\
    xmin r = (if isWest m then Qmin (xmin initial + dx) (xmax initial - 10)
              else xmin initial) /\
    xmax r = (if isEast m then Qmax (xmax initial + dx) (xmin initial + 10)
              else xmax initial) /\
    ymin r = (if isNorth m then Qmin (ymin initial + dy) (ymax initial - 10)
              else ymin initial) /\
    ymax r = (if isSouth m then Qmax (ymax initial + dy) (ymin initial + 10)
              else ymax initial) /\
    (isWest m = true -> xmin r <= xmax initial - 10) /\
    (isEast m = true -> xmin initial + 10 <= xmax r) /\
    (isNorth m = true -> ymin r <= ymax initial - 10) /\
    (isSouth m = true -> ymin initial + 10 <= ymax r) /\
    minSpan r /\
    map adjustedEdges resizingModes =
      [ (false, false, true, false); (false, false, false, true);
        (false, true, false, false); (true, false, false, false);
        (true, false, true, false); (false, true, true, false);
        (true, false, false, true); (false, true, false, true) ] /\
    rectEq (resizeRect resizing_se (mkRect 100 100 300 300) 50 (-500))
           (mkRect 100 100 350 110).
Proof.
  intros m p dx dy.
  exists (resizeRect m initial dx dy).
  split.
  { rewrite (handlePointerMove_select e s start initial Htool
               ltac:(intros H; rewrite H in Hmode; discriminate)
               Hstart Hinit).
    fold m p dx dy. f_equal.
    subst m. destruct (interactionMode s); try discriminate; reflexivity. }
  unfold resizeRect. cbn [xmin ymin xmax ymax].
  do 4 (split; [reflexivity|]).
  split; [intros ->; minmax_lra|].
  split; [intros ->; minmax_lra|].
  split; [intros ->; minmax_lra|].
  split; [intros ->; minmax_lra|].
  split; [apply (resizeRect_minSpan m initial dx dy); assumption|].
  split; [reflexivity|].
  unfold rectEq. cbn. repeat split.
Qed.

Lemma C5_resizing_witness :
  exists r : NormalizedRect,
    selection (fst (handlePointerMove (pointerAt 348 0) resizingState))
    = Some r /\
    xmin r == 100 /\ xmax r == 350 /\ ymin r == 100 /\ ymax r == 110.
Proof.
  assert (Hcanvas : canvasLaidOut resizingState).
  { unfold canvasLaidOut. cbn. repeat split. }
  assert (Hspan : minSpan (mkRect 100 100 300 300)).
  { unfold minSpan. cbn. split; discriminate. }
  destruct (C5_resizing_keeps_min_span (pointerAt 348 0) resizingState
              _ (mkRect 100 100 300 300)
              Hcanvas eq_refl eq_refl eq_refl eq_refl Hspan)
    as (r & Hsel & Hx0 & Hx1 & Hy0 & Hy1 & _).
  exists r. split; [exact Hsel|].
  split; [rewrite Hx0; reflexivity|].
  split; [rewrite Hx1; reflexivity|].
  split; [rewrite Hy0; reflexivity|].
  rewrite Hy1; reflexivity.
Defined.

(** ** Ending a gesture *)

Lemma tooSmall_true (r : NormalizedRect) :
  tooSmall r = true <->
  Qabs (xmax r - xmin r) < 10 \/ Qabs (ymax r - ymin r) < 10.
Proof.
  unfold tooSmall. rewrite orb_true_iff, !Qltb_true. reflexivity.
Qed.

(** C6.  A pointer-up (or cancel) that ends a [drawing] gesture with a
    selection on the page sets the selection to null when its width or its
    height is below 10 in absolute value and keeps it otherwise; the
    gesture is over either way. *)
Theorem C6_small_drawing_is_discarded
  (e : PointerEvent) (s : State) (r : NormalizedRect)
  (Hmode : interactionMode s = drawing)
  (Hsel : selection s = Some r) :
  let s' := handlePointerUp e s in
  (Qabs (xmax r - xmin r) < 10 \/ Qabs (ymax r - ymin r) < 10 ->
   selection s' = None) /\
  (~ (Qabs (xmax r - xmin r) < 10 \/ Qabs (ymax r - ymin r) < 10) ->
   selection s' = Some r) /\
  interactionMode s' = none /\
  dragStartPoint s' = None /\
  initialSelectionRef s' = None.
Proof.
  intros s'. subst s'. unfold handlePointerUp. rewrite Hmode, Hsel.
  cbn [selection interactionMode dragStartPoint initialSelectionRef
       setInitialSelectionRef setDragStartPoint setInteractionMode].
  repeat split.
  - intros Hsmall. apply tooSmall_true in Hsmall. rewrite Hsmall.
    apply selection_setSelection.
  - intros Hbig. destruct (tooSmall r) eqn:E.
    + apply tooSmall_true in E. contradiction.
    + rewrite selection_releasePointerCapture.
      destruct (tool s); exact Hsel.
Qed.

Lemma C6_small_drawing_witness :
  let s := fst (handlePointerMove (pointerAt 505 700) drawingState) in
  selection (handlePointerUp (pointerAt 505 700) s) = None /\
  interactionMode (handlePointerUp (pointerAt 505 700) s) = none.
Proof.
  intros s.
  destruct (C6_small_drawing_is_discarded (pointerAt 505 700) s _
              eq_refl eq_refl) as (Hsmall & _ & Hmode & _).
  split; [|exact Hmode].
  apply Hsmall. left. vm_compute. reflexivity.
Defined.

(** ** Drawing *)

Lemma drawRect_envelope (a b : Point) :
  drawRect (pointRect a) (px b) (py b) = envelope a b.
Proof. reflexivity. Qed.

Lemma envelope_comm (a b : Point) : rectEq (envelope a b) (envelope b a).
Proof.
  unfold rectEq, envelope. cbn [xmin ymin xmax ymax].
  repeat split; minmax_lra.
Qed.

Lemma drawRect_inPage (initial : NormalizedRect) (x y : Q) :
  0 <= xmin initial <= 1000 -> 0 <= ymin initial <= 1000 ->
  0 <= x <= 1000 -> 0 <= y <= 1000 ->
  inPage (drawRect initial x y).
Proof.
  intros Hx Hy Hpx Hpy. unfold inPage, drawRect.
  cbn [xmin ymin xmax ymax]. repeat split; minmax_lra.
Qed.

(** A pointer-down on the background with the select tool and no
    selection starts a drawing anchored at the pointer. *)
Lemma background_down_from_empty (e : PointerEvent) (s : State) :
  tool s = select -> selection s = None ->
  let s1 := fst (pointerDown Background e s) in
  let a := getNormalizedCoordinates e s in
  tool s1 = select /\ interactionMode s1 = drawing /\
  dragStartPoint s1 = Some a /\
  initialSelectionRef s1 = Some (pointRect a) /\
  selection s1 = Some (pointRect a) /\
  selectionGen s1 = S (selectionGen s) /\
  imageCanvasRef s1 = imageCanvasRef s /\
  snd (pointerDown Background e s) = [PreventDefault].
Proof.
  intros Htool Hsel. unfold pointerDown, handleBackgroundDown.
  cbn [fst snd existsb app]. rewrite Htool. cbn [fst snd].
  unfold startDragState. rewrite selection_setPointerCapture, Hsel.
  unfold getNormalizedCoordinates, setPointerCapture.
  destruct (existsb _ _); cbn; rewrite ?Htool; repeat split.
Qed.

(** The drawing branch when no selection exists at the pointer-down.  In
    every state in which a drawing is under way, a pointer move stores the
    envelope of the snapshot's corner [(xmin, ymin)] and of the pointer,
    and the envelope of two points does not depend on their order.  For a
    gesture of the select tool that starts with no selection the corner of
    the snapshot is the pointer-down point, so pressing at [ea] and moving
    to [eb] stores the same rectangle as pressing at [eb] and moving to
    [ea]. *)
Lemma drawing_envelope_from_empty (a b : Point) :
  drawRect (pointRect a) (px b) (py b) = envelope a b /\
  rectEq (drawRect (pointRect a) (px b) (py b))
         (drawRect (pointRect b) (px a) (py a)) /\
  (forall (s : State) (e : PointerEvent) (start : Point)
          (initial : NormalizedRect),
     canvasLaidOut s ->
     tool s = select -> interactionMode s = drawing ->
     dragStartPoint s = Some start -> initialSelectionRef s = Some initial ->
     getNormalizedCoordinates e s = b ->
     xmin initial = px a -> ymin initial = py a ->
     selection (fst (handlePointerMove e s)) = Some (envelope a b)) /\
  (forall (s : State) (ea eb : PointerEvent),
     canvasLaidOut s ->
     tool s = select -> selection s = None ->
     getNormalizedCoordinates ea s = a ->
     getNormalizedCoordinates eb s = b ->
     exists rab rba : NormalizedRect,
       selection (fst (handlePointerMove eb (fst (pointerDown Background ea s))))
       = Some rab /\
       selection (fst (handlePointerMove ea (fst (pointerDown Background eb s))))
       = Some rba /\
       rab = envelope a b /\ rectEq rab rba).
Proof.
  split; [reflexivity|]. split; [apply envelope_comm|].
  split.
  { intros s e start initial _ Htool Hmode Hstart Hinit Hb Hx Hy.
    rewrite (handlePointerMove_select e s start initial Htool
               ltac:(congruence) Hstart Hinit).
    rewrite Hmode, Hb. cbn [newRectFor]. unfold drawRect, envelope.
    rewrite Hx, Hy. reflexivity. }
  intros s ea eb _ Htool Hsel Ha Hb.
  exists (envelope a b), (envelope b a).
  assert (Hgesture : forall e1 e2 : PointerEvent,
    selection (fst (handlePointerMove e2 (fst (pointerDown Background e1 s))))
    = Some (envelope (getNormalizedCoordinates e1 s)
                     (getNormalizedCoordinates e2 s))).
  { intros e1 e2.
    destruct (background_down_from_empty e1 s Htool Hsel)
      as (Ht & Hm & Hd & Hi & _ & _ & Hc & _).
    rewrite (handlePointerMove_select e2 _ _ _ Ht
               ltac:(rewrite Hm; discriminate) Hd Hi).
    rewrite Hm. cbn [newRectFor].
    replace (getNormalizedCoordinates e2 (fst (pointerDown Background e1 s)))
      with (getNormalizedCoordinates e2 s)
      by (unfold getNormalizedCoordinates; rewrite Hc; reflexivity).
    reflexivity. }
  rewrite (Hgesture ea eb), (Hgesture eb ea), Ha, Hb.
  repeat split; apply envelope_comm.
Qed.

Lemma drawing_envelope_from_empty_example :
  let a := getNormalizedCoordinates (pointerAt 500 500) freshState in
  let b := getNormalizedCoordinates (pointerAt 700 200) freshState in
  (exists rab rba : NormalizedRect,
     selection (fst (handlePointerMove (pointerAt 700 200)
                       (fst (pointerDown Background (pointerAt 500 500)
                               freshState)))) = Some rab /\
     selection (fst (handlePointerMove (pointerAt 500 500)
                       (fst (pointerDown Background (pointerAt 700 200)
                               freshState)))) = Some rba /\
     rab = envelope a b /\ rectEq rab rba) /\
  selection (fst (handlePointerMove (pointerAt 700 200) drawingState))
  = Some (envelope a b).
Proof.
  intros a b.
  assert (Hfresh : canvasLaidOut freshState).
  { unfold canvasLaidOut. cbn. repeat split. }
  assert (Hdrawing : canvasLaidOut drawingState).
  { unfold canvasLaidOut. cbn. repeat split. }
  destruct (drawing_envelope_from_empty a b) as (_ & _ & Hmove & Hgesture).
  split.
  - exact (Hgesture freshState (pointerAt 500 500) (pointerAt 700 200)
             Hfresh eq_refl eq_refl eq_refl eq_refl).
  - exact (Hmove drawingState (pointerAt 700 200) _ _ Hdrawing
             eq_refl eq_refl eq_refl eq_refl eq_refl eq_refl eq_refl).
Defined.

(** C7.  With the selection (100, 100, 300, 300) on the page, a drawing
    is anchored at the corner of that selection and not at the point where
    the pointer went down, so it depends on the direction in which it is
    drawn.  The pointer-down at A = (500, 500) records A as the start of
    the drag but takes the old selection as the snapshot; the move to
    B = (700, 700) stores (100, 100, 700, 700).  Drawn the other way, from
    B to A, the same two points give (100, 100, 500, 500).  The two
    rectangles differ, and neither is the envelope (500, 500, 700, 700) of
    A and B. *)
Theorem C7_drawing_over_selection_depends_on_direction :
  let a := pointerAt 500 500 in
  let b := pointerAt 700 700 in
  let fromA := fst (step addProps (EvPointerDown Background a)
                      selectedState) in
  let fromB := fst (step addProps (EvPointerDown Background b)
                      selectedState) in
  canvasLaidOut selectedState /\
  tool selectedState = select /\
  selection selectedState = Some (mkRect 100 100 300 300) /\
  interactionMode fromA = drawing /\ interactionMode fromB = drawing /\
  initialSelectionRef fromA = Some (mkRect 100 100 300 300) /\
  initialSelectionRef fromB = Some (mkRect 100 100 300 300) /\
  (exists start : Point,
     dragStartPoint fromA = Some start /\
     px start == 500 /\ py start == 500) /\
  exists rab rba : NormalizedRect,
    selection (fst (step addProps (EvPointerMove b) fromA)) = Some rab /\
    selection (fst (step addProps (EvPointerMove a) fromB)) = Some rba /\
    rectEq rab (mkRect 100 100 700 700) /\
    rectEq rba (mkRect 100 100 500 500) /\
    ~ rectEq rab rba /\
    ~ rectEq rab (envelope (mkPoint 500 500) (mkPoint 700 700)) /\
    ~ rectEq rba (envelope (mkPoint 500 500) (mkPoint 700 700)).
Proof.
  cbv zeta.
  split; [unfold canvasLaidOut; cbn; split; [|split; [|split]]; reflexivity|].
  do 6 (split; [reflexivity|]).
  split; [eexists; split; [reflexivity|split; reflexivity]|].
  eexists. eexists.
  split; [reflexivity|]. split; [reflexivity|].
  split; [unfold rectEq; cbn; split; [|split; [|split]]; reflexivity|].
  split; [unfold rectEq; cbn; split; [|split; [|split]]; reflexivity|].
  split; [|split].
  - intros (_ & _ & Hx & _). vm_compute in Hx. discriminate Hx.
  - intros (Hx & _). vm_compute in Hx. discriminate Hx.
  - intros (Hx & _). vm_compute in Hx. discriminate Hx.
Qed.

(** ** Confirming *)

Lemma selectionEffect_same (s : State) : selectionEffect s s = [].
Proof. unfold selectionEffect. rewrite Nat.eqb_refl. reflexivity. Qed.

Lemma selectionEffect_cleared (s s' : State) :
  selectionGen s' = S (selectionGen s) -> selection s' = None ->
  selectionEffect s s' = [OnSelectionChange false].
Proof.
  intros Hgen Hsel. unfold selectionEffect. rewrite Hgen, Hsel.
  destruct (Nat.eqb_neq (selectionGen s) (S (selectionGen s))) as [_ Hne].
  rewrite Hne by lia. reflexivity.
Qed.

Lemma selectionEffect_no_close (s s' : State) :
  existsb isOnClose (selectionEffect s s') = false.
Proof. unfold selectionEffect. destruct (Nat.eqb _ _); reflexivity. Qed.

Lemma handleConfirm_no_close (props : Props) (s : State) :
  existsb isOnClose (snd (handleConfirm props s)) = false.
Proof.
  unfold handleConfirm.
  destruct (selection s); [destruct (isEditing props)|]; reflexivity.
Qed.

Lemma pointerDown_no_close (t : HitTarget) (e : PointerEvent) (s : State) :
  existsb isOnClose (snd (pointerDown t e s)) = false.
Proof.
  unfold pointerDown, handleBoxDown, handleHandleDown, handleBackgroundDown.
  destruct t, (tool s) eqn:Htool;
    cbn [fst snd existsb isStopPropagation orb app];
    rewrite ?Htool; reflexivity.
Qed.

Lemma handlePointerMove_no_close (e : PointerEvent) (s : State) :
  existsb isOnClose (snd (handlePointerMove e s)) = false.
Proof.
  unfold handlePointerMove.
  destruct (tool s), (interactionMode s); try reflexivity;
    try (destruct (dragStartPoint s), (initialSelectionRef s); reflexivity).
  destruct (lastPanPosition s), (containerRef s); reflexivity.
Qed.

(** The component calls [onClose] from one place: the Escape key, when no
    text input has the focus (line 261). *)
Lemma onClose_only_from_escape (props : Props) (ev : Event) (s : State) :
  existsb isOnClose (snd (step props ev s)) = true ->
  exists e : KeyEvent,
    ev = EvKeyDown e /\ key e = Escape /\ inputFocused e = false.
Proof.
  unfold step. cbn [snd]. rewrite !existsb_app, !selectionEffect_no_close.
  rewrite !orb_false_r.
  destruct ev as [t e | e | e | | e | c | ]; cbn [handle snd existsb].
  - rewrite pointerDown_no_close. discriminate.
  - rewrite handlePointerMove_no_close. discriminate.
  - discriminate.
  - rewrite handleConfirm_no_close. discriminate.
  - intros Hclose. exists e. split; [reflexivity|].
    revert Hclose. unfold handleKeyDown.
    destruct (inputFocused e) eqn:Hfocus.
    + destruct (key e); [destruct (negb (repeat e) && negb true)|..];
        cbn; discriminate.
    + destruct (key e) eqn:Hkey; [| | | auto | |].
      * destruct (negb (repeat e) && negb false); cbn; discriminate.
      * cbn. discriminate.
      * cbn. discriminate.
      * destruct (selection s); cbn [snd existsb app isOnClose orb];
          [rewrite handleConfirm_no_close|]; discriminate.
      * cbn. discriminate.
  - discriminate.
  - discriminate.
Qed.

(** In an edit session, confirming the seeded selection reaches the host
    through [onConfirm] and [onSelectionChange] only: [onClose] is not
    called. *)
Lemma C1_edit_confirm_never_calls_onClose :
  isEditing editProps = true /\
  selection editState = Some (mkRect 100 100 300 300) /\
  snd (step editProps EvConfirm editState) =
    [OnConfirm 1 (mkRect 100 100 300 300); OnSelectionChange false] /\
  ~ In OnClose (snd (step editProps EvConfirm editState)).
Proof.
  split; [reflexivity|]. split; [reflexivity|]. split; [reflexivity|].
  intros Hin. cbn in Hin.
  destruct Hin as [H | [H | []]]; discriminate H.
Qed.

(** C1 (amended).  Confirming with a selection calls
    [onConfirm(currentPageIndex, selection)] and sets the selection to
    null, which the host then hears through [onSelectionChange(false)].
    In edit-mode that is all: [onClose] is not called.  In add-mode the
    success toast is shown with the number of the next question and a
    1500 ms timer is started that hides it; [onClose] is not called
    either. *)
Theorem C1_confirm_commits_and_clears
  (props : Props) (s : State) (r : NormalizedRect)
  (Hsel : selection s = Some r) :
  let s' := fst (step props EvConfirm s) in
  let calls := snd (step props EvConfirm s) in
  selection s' = None /\
  ~ In OnClose calls /\
  (isEditing props = true ->
   calls = [OnConfirm (currentPageIndex s) r; OnSelectionChange false] /\
   showToast s' = showToast s) /\
  (isEditing props = false ->
   calls = [OnConfirm (currentPageIndex s) r; SetTimeout 1500;
            OnSelectionChange false] /\
   showToast s' = mkToast (toastMessage (nextIndex props)) true /\
   visible (showToast (hideToast s')) = false /\
   selection (hideToast s') = None).
Proof.
  intros s' calls. subst s' calls.
  unfold step, handle, handleConfirm. rewrite Hsel.
  assert (Hclear : setSelection None s =
    mkState (currentPageIndex s) None (S (selectionGen s)) (fitScale s)
      (isLayoutReady s) (interactionMode s) (showToast s) (dragStartPoint s)
      (initialSelectionRef s) (lastPanPosition s) (viewportCenter s)
      (preservedScrollRatio s) (hasInitializedZoom s) (tool s) (zoom s)
      (imageCanvasRef s) (containerRef s) (pointerCapture s)).
  { unfold setSelection. rewrite Hsel. reflexivity. }
  rewrite Hclear.
  destruct (isEditing props); cbn [fst snd];
    unfold layoutEffect; cbn [currentPageIndex setShowToast];
    rewrite Z.eqb_refl, selectionEffect_same;
    (rewrite selectionEffect_cleared by reflexivity);
    cbn [app selection].
  - split; [reflexivity|]. split.
    + intros [H | [H | []]]; discriminate H.
    + split; [intros _; split; reflexivity | intros H; discriminate H].
  - split; [reflexivity|]. split.
    + intros [H | [H | [H | []]]]; discriminate H.
    + split; [intros H; discriminate H | intros _; repeat split].
Qed.

Lemma C1_confirm_witness :
  selection (fst (step addProps EvConfirm selectedState)) = None /\
  snd (step addProps EvConfirm selectedState) =
    [OnConfirm 0 (mkRect 100 100 300 300); SetTimeout 1500;
     OnSelectionChange false] /\
  snd (step editProps EvConfirm editState) =
    [OnConfirm 1 (mkRect 100 100 300 300); OnSelectionChange false].
Proof.
  destruct (C1_confirm_commits_and_clears addProps selectedState
              (mkRect 100 100 300 300) eq_refl) as (Hnone & _ & _ & Hadd).
  destruct (C1_confirm_commits_and_clears editProps editState
              (mkRect 100 100 300 300) eq_refl) as (_ & _ & Hedit & _).
  split; [exact Hnone|].
  split; [exact (proj1 (Hadd eq_refl)) | exact (proj1 (Hedit eq_refl))].
Defined.

(** ** The pan tool *)

Lemma allModes_complete (m : InteractionMode) : In m allModes.
Proof. destruct m; cbn; tauto. Qed.

Lemma no_panning_mode (m : InteractionMode) : modeName m <> "panning"%string.
Proof. destruct m; discriminate. Qed.

(** With the pan tool, a pointer-down on the background leaves the state
    machine in the mode called [moving], the one a drag of the selection
    body uses with the select tool; no mode is called [panning]. *)
Lemma C3_pan_pointer_down_is_moving :
  tool panState = pan /\
  modeName (interactionMode
              (fst (step addProps (EvPointerDown Background (pointerAt 10 10))
                      panState))) = "moving"%string /\
  interactionMode
    (fst (step addProps (EvPointerDown Background (pointerAt 10 10))
            panState)) =
  interactionMode
    (fst (step addProps (EvPointerDown SelectionBody (pointerAt 200 200))
            selectedState)) /\
  existsb (fun m => String.eqb (modeName m) "panning") allModes = false.
Proof. repeat split. Qed.

(** C3 (amended).  With the pan tool, a pointer-down on any hit-target
    sets the mode to [moving], which the pan logic reuses, and records the
    client position of the pointer as the last pan position; none of the
    eleven modes is named [panning].  The handlers of the selection body
    and of the resize handles do nothing, the handles are not on screen,
    and neither the pointer-down nor a following pointer move changes the
    selection or the drag snapshot. *)
Theorem C3_pan_tool_reuses_moving
  (t : HitTarget) (e e' : PointerEvent) (s : State)
  (Htool : tool s = pan) :
  let s1 := fst (pointerDown t e s) in
  let s2 := fst (handlePointerMove e' s1) in
  interactionMode s1 = moving /\
  lastPanPosition s1 = Some (mkPoint (clientX e) (clientY e)) /\
  tool s1 = pan /\
  selection s1 = selection s /\ selectionGen s1 = selectionGen s /\
  dragStartPoint s1 = dragStartPoint s /\
  initialSelectionRef s1 = initialSelectionRef s /\
  handleBoxDown e s = (s, []) /\
  (forall m : InteractionMode,
     handleHandleDown e m s = (s, []) /\
     rendered (ResizeHandle m) s = false /\
     modeName m <> "panning"%string) /\
  selection s2 = selection s /\ selectionGen s2 = selectionGen s /\
  dragStartPoint s2 = dragStartPoint s /\
  initialSelectionRef s2 = initialSelectionRef s.
Proof.
  intros s1 s2.
  assert (Hbox : handleBoxDown e s = (s, []))
    by (unfold handleBoxDown; rewrite Htool; reflexivity).
  assert (Hhandle : forall m, handleHandleDown e m s = (s, []))
    by (intros m; unfold handleHandleDown; rewrite Htool; reflexivity).
  assert (Hs1 : s1 = fst (handleBackgroundDown e s)).
  { subst s1. unfold pointerDown.
    destruct t; rewrite ?Hbox, ?Hhandle; reflexivity. }
  assert (Hdown :
    interactionMode s1 = moving /\
    lastPanPosition s1 = Some (mkPoint (clientX e) (clientY e)) /\
    tool s1 = pan /\
    selection s1 = selection s /\ selectionGen s1 = selectionGen s /\
    dragStartPoint s1 = dragStartPoint s /\
    initialSelectionRef s1 = initialSelectionRef s).
  { rewrite Hs1. unfold handleBackgroundDown, setPointerCapture.
    rewrite Htool.
    destruct (existsb _ _); cbn; rewrite ?Htool; repeat split. }
  destruct Hdown as (Hm & Hl & Ht & Hsel & Hgen & Hd & Hi).
  assert (Hmove :
    selection s2 = selection s1 /\ selectionGen s2 = selectionGen s1 /\
    dragStartPoint s2 = dragStartPoint s1 /\
    initialSelectionRef s2 = initialSelectionRef s1).
  { subst s2. unfold handlePointerMove. rewrite Ht, Hm, Hl.
    destruct (containerRef s1); repeat split. }
  destruct Hmove as (Msel & Mgen & Md & Mi).
  repeat split; try congruence.
  - unfold rendered. rewrite Htool.
    destruct (selection s); reflexivity.
  - apply no_panning_mode.
Qed.

Lemma C3_pan_tool_witness :
  interactionMode
    (fst (pointerDown SelectionBody (pointerAt 200 200) panState)) = moving /\
  selection (fst (pointerDown SelectionBody (pointerAt 200 200) panState))
  = selection panState.
Proof.
  destruct (C3_pan_tool_reuses_moving SelectionBody (pointerAt 200 200)
              (pointerAt 250 250) panState eq_refl)
    as (Hm & _ & _ & Hsel & _).
  split; [exact Hm | exact Hsel].
Defined.

(** ** Layout *)

Lemma Qle_bool_false (a b : Q) : b < a -> Qle_bool a b = false.
Proof.
  intros Hlt. apply not_true_is_false. rewrite Qle_bool_iff.
  apply Qlt_not_le. exact Hlt.
Qed.

Lemma Qmin_compat (a a' b b' : Q) :
  a == a' -> b == b' -> Qmin a b == Qmin a' b'.
Proof. intros Ha Hb. minmax_lra. Qed.

Lemma defaultZoom_range (scaleX scaleY : Q) :
  1 <= defaultZoom scaleX scaleY <= 3.
Proof.
  unfold defaultZoom. destruct (Qltb scaleY scaleX); [minmax_lra | lra].
Qed.

(** Destruct whatever the goal matches on and compute, until neither
    makes progress. *)
Ltac break_match :=
  repeat match goal with
  | |- context [match ?x with _ => _ end] => destruct x eqn:?
  end.

Ltac case_compute :=
  repeat progress (break_match; cbn); auto; try congruence.

(** Once the latch is set, a layout pass leaves the zoom alone. *)
Lemma calculateLayout_latched (props : Props) (preserve : bool) (s : State) :
  hasInitializedZoom s = true ->
  zoom (calculateLayout props preserve s) = zoom s /\
  hasInitializedZoom (calculateLayout props preserve s) = true.
Proof.
  intros Hlatch. unfold calculateLayout, setSelection.
  rewrite Hlatch. cbn [negb]. case_compute.
Qed.

(** A layout pass that preserves the view leaves the zoom alone. *)
Lemma calculateLayout_preserving (props : Props) (s : State) :
  zoom (calculateLayout props true s) = zoom s.
Proof.
  unfold calculateLayout. case_compute.
Qed.

Lemma setSelection_zoomAndLatch (v : option NormalizedRect) (s : State) :
  zoomAndLatch (setSelection v s) = zoomAndLatch s.
Proof. unfold setSelection. destruct v, (selection s); reflexivity. Qed.

Lemma setPointerCapture_zoomAndLatch (id : nat) (s : State) :
  zoomAndLatch (setPointerCapture id s) = zoomAndLatch s.
Proof. unfold setPointerCapture. destruct (existsb _ _); reflexivity. Qed.

Lemma releasePointerCapture_zoomAndLatch (id : nat) (s : State) :
  zoomAndLatch (releasePointerCapture id s) = zoomAndLatch s.
Proof. unfold releasePointerCapture. destruct (existsb _ _); reflexivity. Qed.

Lemma startDragState_zoomAndLatch (e : PointerEvent) (m : InteractionMode)
  (s : State) :
  zoomAndLatch (startDragState e m s) = zoomAndLatch s.
Proof.
  unfold startDragState. destruct (selection s); [reflexivity|].
  rewrite setSelection_zoomAndLatch. reflexivity.
Qed.

Lemma handleBackgroundDown_zoomAndLatch (e : PointerEvent) (s : State) :
  zoomAndLatch (fst (handleBackgroundDown e s)) = zoomAndLatch s.
Proof.
  unfold handleBackgroundDown. destruct (tool s); cbn [fst].
  - rewrite startDragState_zoomAndLatch.
    apply setPointerCapture_zoomAndLatch.
  - rewrite <- (setPointerCapture_zoomAndLatch (pointerId e) s).
    reflexivity.
Qed.

Lemma pointerDown_zoomAndLatch (t : HitTarget) (e : PointerEvent)
  (s : State) :
  zoomAndLatch (fst (pointerDown t e s)) = zoomAndLatch s.
Proof.
  unfold pointerDown, handleBoxDown, handleHandleDown.
  destruct t; [| destruct (tool s) | destruct (tool s)];
    cbn [fst snd existsb isStopPropagation orb];
    rewrite ?handleBackgroundDown_zoomAndLatch,
            ?startDragState_zoomAndLatch,
            ?setPointerCapture_zoomAndLatch;
    reflexivity.
Qed.

Lemma handlePointerMove_zoomAndLatch (e : PointerEvent) (s : State) :
  zoomAndLatch (fst (handlePointerMove e s)) = zoomAndLatch s.
Proof.
  unfold handlePointerMove.
  destruct (tool s).
  - destruct (interactionMode s); try reflexivity;
      destruct (dragStartPoint s), (initialSelectionRef s);
      try reflexivity; cbn [fst]; apply setSelection_zoomAndLatch.
  - destruct (interactionMode s), (lastPanPosition s), (containerRef s);
      reflexivity.
Qed.

Lemma handlePointerUp_zoomAndLatch (e : PointerEvent) (s : State) :
  zoomAndLatch (handlePointerUp e s) = zoomAndLatch s.
Proof.
  unfold handlePointerUp.
  set (s1 := match tool s with
             | pan => setLastPanPosition None s
             | select => s
             end).
  assert (H1 : zoomAndLatch s1 = zoomAndLatch s)
    by (subst s1; destruct (tool s); reflexivity).
  set (s3 := match interactionMode s, selection s with
             | drawing, Some sel =>
               if tooSmall sel
               then setSelection None (releasePointerCapture (pointerId e) s1)
               else releasePointerCapture (pointerId e) s1
             | _, _ => releasePointerCapture (pointerId e) s1
             end).
  assert (H3 : zoomAndLatch s3 = zoomAndLatch s).
  { rewrite <- H1, <- (releasePointerCapture_zoomAndLatch (pointerId e) s1).
    subst s3.
    destruct (interactionMode s); try reflexivity.
    destruct (selection s) as [sel|]; [|reflexivity].
    destruct (tooSmall sel); [|reflexivity].
    apply setSelection_zoomAndLatch. }
  rewrite <- H3. reflexivity.
Qed.

Lemma handleConfirm_zoomAndLatch (props : Props) (s : State) :
  zoomAndLatch (fst (handleConfirm props s)) = zoomAndLatch s.
Proof.
  unfold handleConfirm.
  destruct (selection s) eqn:Hsel; [|reflexivity].
  destruct (isEditing props); cbn [fst].
  - apply setSelection_zoomAndLatch.
  - rewrite <- (setSelection_zoomAndLatch None s). reflexivity.
Qed.

Lemma handleKeyDown_zoomAndLatch (props : Props) (e : KeyEvent) (s : State) :
  zoomAndLatch (fst (handleKeyDown props e s)) = zoomAndLatch s.
Proof.
  unfold handleKeyDown.
  set (toggled := match key e with
                  | Space => _
                  | _ => (s, [])
                  end).
  assert (Ht : zoomAndLatch (fst toggled) = zoomAndLatch s).
  { subst toggled. destruct (key e); try reflexivity.
    destruct (negb (repeat e) && negb (inputFocused e)); reflexivity. }
  destruct (inputFocused e); [exact Ht|].
  destruct (key e); cbn [fst]; try exact Ht;
    try (rewrite <- Ht; reflexivity).
  destruct (selection s); [|exact Ht]. cbn [fst].
  rewrite handleConfirm_zoomAndLatch. exact Ht.
Qed.

Lemma handle_latched (props : Props) (ev : Event) (s : State) :
  hasInitializedZoom s = true ->
  zoom (fst (handle props ev s)) = zoom s /\
  hasInitializedZoom (fst (handle props ev s)) = true.
Proof.
  intros Hlatch.
  assert (Hframe :
    zoomAndLatch (fst (handle props ev s)) = zoomAndLatch s ->
    zoom (fst (handle props ev s)) = zoom s /\
    hasInitializedZoom (fst (handle props ev s)) = true).
  { unfold zoomAndLatch. intros H. injection H as Hz Hl.
    split; congruence. }
  destruct ev; cbn [handle fst] in *.
  - apply Hframe, pointerDown_zoomAndLatch.
  - apply Hframe, handlePointerMove_zoomAndLatch.
  - apply Hframe, handlePointerUp_zoomAndLatch.
  - apply Hframe, handleConfirm_zoomAndLatch.
  - apply Hframe, handleKeyDown_zoomAndLatch.
  - apply (calculateLayout_latched props true (setContainerRef (Some c) s)).
    exact Hlatch.
  - auto.
Qed.

Lemma step_latched (props : Props) (ev : Event) (s : State) :
  hasInitializedZoom s = true ->
  zoom (fst (step props ev s)) = zoom s /\
  hasInitializedZoom (fst (step props ev s)) = true.
Proof.
  intros Hlatch. unfold step. cbn [fst].
  destruct (handle_latched props ev s Hlatch) as [Hz Hl].
  unfold layoutEffect. destruct (Z.eqb _ _); [auto|].
  destruct (calculateLayout_latched props false _ Hl) as [Hz' Hl'].
  split; congruence.
Qed.

Lemma run_latched (props : Props) (evs : list Event) :
  forall s : State,
    hasInitializedZoom s = true ->
    zoom (fst (run props evs s)) = zoom s /\
    hasInitializedZoom (fst (run props evs s)) = true.
Proof.
  induction evs as [|ev rest IH]; intros s Hlatch; cbn [run fst].
  - auto.
  - destruct (step_latched props ev s Hlatch) as [Hz Hl].
    destruct (IH _ Hl) as [Hz' Hl']. split; congruence.
Qed.

(** The first layout pass of a session that is not editing. *)
Lemma calculateLayout_first_default
  (props : Props) (s : State) (c : Container) (page : PageImage) :
  isEditing props = false ->
  hasInitializedZoom s = false ->
  containerRef s = Some c ->
  currentPage props s = Some page ->
  0 < clientWidth c -> 0 < clientHeight c ->
  let scaleX := (clientWidth c - padding) / width page in
  let scaleY := (clientHeight c - padding) / height page in
  let s1 := calculateLayout props false s in
  fitScale s1 = Qmin scaleX scaleY /\
  zoom s1 = defaultZoom scaleX scaleY /\
  hasInitializedZoom s1 = true /\
  isLayoutReady s1 = true /\
  tool s1 = select.
Proof.
  intros Hedit Hlatch Hcont Hpage Hcw Hch. unfold calculateLayout.
  rewrite Hcont, Hpage, Hedit, Hlatch.
  rewrite (Qle_bool_false (clientWidth c - padding) 0)
    by (unfold padding; lra).
  rewrite (Qle_bool_false (clientHeight c - padding) 0)
    by (unfold padding; lra).
  cbn [orb negb]. unfold setSelection.
  destruct (initialRect props);
    [destruct (Z.eqb _ _)|]; cbn [selection setZoom setFitScale];
    destruct (selection s); repeat split.
Qed.

(** C9.  The first layout pass of a session that is not editing, with a
    sized container and a page, sets the fit scale to the smaller of
    [containerWidth / pageWidth] and [containerHeight / pageHeight]; it
    sets the zoom to [scaleX / scaleY] capped at 3 and floored at 1 when
    [scaleY < scaleX], and to 1 otherwise; and it sets the latch.  From
    then on no event changes the zoom, a container resize included, and a
    resize never does, even before the latch is set.  For a page of
    2000 x 2800 in a container of 800 x 600 the fit scale is 3/14, which is
    0.2143 to four places, and the zoom is 28/15. *)
Theorem C9_first_layout_default_zoom
  (props : Props) (s : State) (c : Container) (page : PageImage)
  (Hedit : isEditing props = false)
  (Hlatch : hasInitializedZoom s = false)
  (Hcont : containerRef s = Some c)
  (Hpage : currentPage props s = Some page)
  (Hcw : 0 < clientWidth c) (Hch : 0 < clientHeight c)
  (Hpw : 0 < width page) (Hph : 0 < height page) :
  let scaleX := clientWidth c / width page in
  let scaleY := clientHeight c / height page in
  let s1 := calculateLayout props false s in
  fitScale s1 == Qmin scaleX scaleY /\
  (scaleY < scaleX -> zoom s1 == Qmax (Qmin (scaleX / scaleY) 3) 1) /\
  (scaleX <= scaleY -> zoom s1 == 1) /\
  (1 <= zoom s1 <= 3) /\
  hasInitializedZoom s1 = true /\
  (forall evs : list Event,
     zoom (fst (run props evs s1)) = zoom s1 /\
     hasInitializedZoom (fst (run props evs s1)) = true) /\
  (forall (c' : Container) (s2 : State),
     zoom (fst (step props (EvResize c') s2)) = zoom s2) /\
  (let m := fst (mount portraitProps select 1 (Some sampleCanvas)
                   (Some sampleContainer)) in
   fitScale m == 3 # 14 /\
   Qabs (fitScale m - (2143 # 10000)) < 1 # 10000 /\
   zoom m == 28 # 15 /\
   hasInitializedZoom m = true).
Proof.
  intros scaleX scaleY s1.
  destruct (calculateLayout_first_default props s c page
              Hedit Hlatch Hcont Hpage Hcw Hch)
    as (Hfit & Hzoom & Hset & _ & _).
  fold s1 in Hfit, Hzoom, Hset.
  assert (Hx : (clientWidth c - padding) / width page == scaleX)
    by (subst scaleX; unfold padding; field; lra).
  assert (Hy : (clientHeight c - padding) / height page == scaleY)
    by (subst scaleY; unfold padding; field; lra).
  split; [rewrite Hfit; apply Qmin_compat; assumption|].
  split.
  { intros Hlt. rewrite Hzoom. unfold defaultZoom.
    rewrite (proj2 (Qltb_true _ _)) by (rewrite Hx, Hy; exact Hlt).
    cbv zeta.
    assert (Hq : (clientWidth c - padding) / width page
                 / ((clientHeight c - padding) / height page) * 1
                 == scaleX / scaleY).
    { assert (Hsy : 0 < scaleY).
      { subst scaleY. apply Qlt_shift_div_l; lra. }
      rewrite Hx, Hy. field. lra. }
    revert Hq. generalize (scaleX / scaleY).
    generalize ((clientWidth c - padding) / width page
                / ((clientHeight c - padding) / height page) * 1).
    intros a b Hab. minmax_lra. }
  split.
  { intros Hle. rewrite Hzoom. unfold defaultZoom.
    rewrite (proj2 (Qltb_false _ _)) by (rewrite Hx, Hy; exact Hle).
    reflexivity. }
  split; [rewrite Hzoom; apply defaultZoom_range|].
  split; [exact Hset|].
  split; [intros evs; apply run_latched; exact Hset|].
  split.
  { intros c' s2. unfold step. cbn [handle fst snd].
    unfold layoutEffect.
    assert (Hidx : currentPageIndex
                     (calculateLayout props true
                        (setContainerRef (Some c') s2))
                   = currentPageIndex s2).
    { unfold calculateLayout. break_match; reflexivity. }
    rewrite Hidx, Z.eqb_refl.
    apply (calculateLayout_preserving props (setContainerRef (Some c') s2)). }
  cbv zeta. split; [reflexivity|]. split; [reflexivity|].
  split; reflexivity.
Qed.

Lemma C9_first_layout_witness :
  let s := initialState portraitProps select 1 (Some sampleCanvas)
             (Some sampleContainer) in
  let s1 := calculateLayout portraitProps false s in
  fitScale s1 == 3 # 14 /\ zoom s1 == 28 # 15 /\
  zoom (fst (step portraitProps
               (EvResize (mkContainer 1200 500 0 0 1200 1680)) s1))
  = zoom s1.
Proof.
  intros s s1.
  assert (Hcw : 0 < clientWidth sampleContainer) by reflexivity.
  assert (Hch : 0 < clientHeight sampleContainer) by reflexivity.
  assert (Hpw : 0 < width (mkPage 1 "data:image/png;base64,AAAA" 2000 2800))
    by reflexivity.
  assert (Hph : 0 < height (mkPage 1 "data:image/png;base64,AAAA" 2000 2800))
    by reflexivity.
  destruct (C9_first_layout_default_zoom portraitProps s sampleContainer
              (mkPage 1 "data:image/png;base64,AAAA" 2000 2800)
              eq_refl eq_refl eq_refl eq_refl Hcw Hch Hpw Hph)
    as (Hfit & Hzoom & _ & _ & _ & _ & Hresize & _).
  split; [apply (Qeq_trans _ _ _ Hfit); reflexivity|].
  split; [apply (Qeq_trans _ _ _ (Hzoom eq_refl)); reflexivity|].
  apply Hresize.
Defined.

(** ** The page boundary

    Drawing and moving keep the selection inside the page. *)

Lemma moveRect_inPage (initial : NormalizedRect) (dx dy : Q) :
  inPage initial -> inPage (moveRect initial dx dy).
Proof.
  intros Hin.
  destruct (moveRect_spec initial dx dy Hin) as (Hx0 & Hx1 & Hy0 & Hy1).
  destruct Hin as (Ix0 & Ix1 & Ix2 & Iy0 & Iy1 & Iy2).
  revert Hx0 Hx1 Hy0 Hy1.
  set (tx := Qmin (Qmax dx (0 - xmin initial)) (1000 - xmax initial)).
  set (ty := Qmin (Qmax dy (0 - ymin initial)) (1000 - ymax initial)).
  intros Hx0 Hx1 Hy0 Hy1.
  assert (Htx : 0 - xmin initial <= tx <= 1000 - xmax initial)
    by (subst tx; minmax_lra).
  assert (Hty : 0 - ymin initial <= ty <= 1000 - ymax initial)
    by (subst ty; minmax_lra).
  unfold inPage. repeat split; lra.
Qed.

(** No handler of the component replaces the canvas, so a canvas that is
    laid out stays so. *)
Lemma setSelection_imageCanvasRef (v : option NormalizedRect) (s : State) :
  imageCanvasRef (setSelection v s) = imageCanvasRef s.
Proof. unfold setSelection. destruct v, (selection s); reflexivity. Qed.

Lemma setPointerCapture_imageCanvasRef (id : nat) (s : State) :
  imageCanvasRef (setPointerCapture id s) = imageCanvasRef s.
Proof. unfold setPointerCapture. destruct (existsb _ _); reflexivity. Qed.

Lemma releasePointerCapture_imageCanvasRef (id : nat) (s : State) :
  imageCanvasRef (releasePointerCapture id s) = imageCanvasRef s.
Proof. unfold releasePointerCapture. destruct (existsb _ _); reflexivity. Qed.

Lemma startDragState_imageCanvasRef (e : PointerEvent) (m : InteractionMode)
  (s : State) :
  imageCanvasRef (startDragState e m s) = imageCanvasRef s.
Proof.
  unfold startDragState. destruct (selection s); [reflexivity|].
  rewrite setSelection_imageCanvasRef. reflexivity.
Qed.

Lemma pointerDown_imageCanvasRef (t : HitTarget) (e : PointerEvent)
  (s : State) :
  imageCanvasRef (fst (pointerDown t e s)) = imageCanvasRef s.
Proof.
  assert (Hbackground :
    imageCanvasRef (fst (handleBackgroundDown e s)) = imageCanvasRef s).
  { unfold handleBackgroundDown. destruct (tool s); cbn [fst].
    - rewrite startDragState_imageCanvasRef.
      apply setPointerCapture_imageCanvasRef.
    - cbn [imageCanvasRef setLastPanPosition setInteractionMode].
      apply setPointerCapture_imageCanvasRef. }
  unfold pointerDown, handleBoxDown, handleHandleDown.
  destruct t; [exact Hbackground | |];
    (destruct (tool s) eqn:Htool;
     cbn [fst snd existsb isStopPropagation orb];
     [rewrite startDragState_imageCanvasRef;
      apply setPointerCapture_imageCanvasRef
     | exact Hbackground]).
Qed.

Lemma handlePointerMove_imageCanvasRef (e : PointerEvent) (s : State) :
  imageCanvasRef (fst (handlePointerMove e s)) = imageCanvasRef s.
Proof.
  unfold handlePointerMove. destruct (tool s).
  - destruct (interactionMode s); try reflexivity;
      destruct (dragStartPoint s), (initialSelectionRef s);
      try reflexivity; cbn [fst]; apply setSelection_imageCanvasRef.
  - destruct (interactionMode s), (lastPanPosition s), (containerRef s);
      reflexivity.
Qed.

Lemma handlePointerUp_imageCanvasRef (e : PointerEvent) (s : State) :
  imageCanvasRef (handlePointerUp e s) = imageCanvasRef s.
Proof.
  unfold handlePointerUp.
  cbn [imageCanvasRef setInitialSelectionRef setDragStartPoint
       setInteractionMode].
  destruct (interactionMode s), (selection s) as [sel|];
    try (destruct (tooSmall sel));
    rewrite ?setSelection_imageCanvasRef,
      releasePointerCapture_imageCanvasRef;
    destruct (tool s); reflexivity.
Qed.

Lemma handleConfirm_imageCanvasRef (props : Props) (s : State) :
  imageCanvasRef (fst (handleConfirm props s)) = imageCanvasRef s.
Proof.
  unfold handleConfirm. destruct (selection s) eqn:Hsel; [|reflexivity].
  destruct (isEditing props); cbn [fst imageCanvasRef setShowToast];
    apply setSelection_imageCanvasRef.
Qed.

Lemma calculateLayout_imageCanvasRef (props : Props) (preserve : bool)
  (s : State) :
  imageCanvasRef (calculateLayout props preserve s) = imageCanvasRef s.
Proof. unfold calculateLayout, setSelection. case_compute. Qed.

Lemma handleKeyDown_imageCanvasRef (props : Props) (e : KeyEvent)
  (s : State) :
  imageCanvasRef (fst (handleKeyDown props e s)) = imageCanvasRef s.
Proof.
  unfold handleKeyDown.
  set (toggled := match key e with
                  | Space => _
                  | _ => (s, [])
                  end).
  assert (Ht : imageCanvasRef (fst toggled) = imageCanvasRef s).
  { subst toggled. destruct (key e); try reflexivity.
    destruct (negb (repeat e) && negb (inputFocused e)); reflexivity. }
  destruct (inputFocused e); [exact Ht|].
  destruct (key e); cbn [fst imageCanvasRef setCurrentPageIndex
                         setPreservedScrollRatio]; try exact Ht.
  destruct (selection s); cbn [fst];
    rewrite ?handleConfirm_imageCanvasRef; exact Ht.
Qed.

Lemma step_imageCanvasRef (props : Props) (ev : Event) (s : State) :
  imageCanvasRef (fst (step props ev s)) = imageCanvasRef s.
Proof.
  unfold step. cbn [fst].
  assert (Hhandled : imageCanvasRef (fst (handle props ev s))
                     = imageCanvasRef s).
  { destruct ev; cbn [handle fst].
    - apply pointerDown_imageCanvasRef.
    - apply handlePointerMove_imageCanvasRef.
    - apply handlePointerUp_imageCanvasRef.
    - apply handleConfirm_imageCanvasRef.
    - apply handleKeyDown_imageCanvasRef.
    - rewrite calculateLayout_imageCanvasRef. reflexivity.
    - reflexivity. }
  unfold layoutEffect. destruct (Z.eqb _ _); [exact Hhandled|].
  rewrite calculateLayout_imageCanvasRef. exact Hhandled.
Qed.

Lemma step_canvasLaidOut (props : Props) (ev : Event) (s : State) :
  canvasLaidOut s -> canvasLaidOut (fst (step props ev s)).
Proof.
  unfold canvasLaidOut. rewrite step_imageCanvasRef. intros Hlaid.
  exact Hlaid.
Qed.

Lemma pointRect_inPage (e : PointerEvent) (s : State) :
  canvasLaidOut s ->
  inPage (pointRect (getNormalizedCoordinates e s)).
Proof.
  intros Hlaid.
  destruct (getNormalizedCoordinates_bounds e s Hlaid)
    as [[Hx0 Hx1] [Hy0 Hy1]].
  unfold inPage, pointRect. cbn [xmin ymin xmax ymax].
  repeat split; lra.
Qed.

Lemma startDragState_pageInvariant (e : PointerEvent) (m : InteractionMode)
  (s : State) :
  canvasLaidOut s ->
  isResizing m = false -> pageInvariant s ->
  pageInvariant (startDragState e m s).
Proof.
  intros Hlaid Hm (Hsel & _ & _). unfold startDragState, pageInvariant.
  destruct (selection s) as [sel|] eqn:Esel.
  - cbn [selection initialSelectionRef interactionMode
         setInitialSelectionRef setInteractionMode setDragStartPoint].
    rewrite Esel. split; [|split]; assumption.
  - rewrite selection_setSelection. unfold setSelection.
    cbn [selection initialSelectionRef interactionMode optInPage
         setInitialSelectionRef setInteractionMode setDragStartPoint].
    split; [|split]; try assumption; apply (pointRect_inPage e s Hlaid).
Qed.

Lemma setPointerCapture_pageInvariant (id : nat) (s : State) :
  pageInvariant s -> pageInvariant (setPointerCapture id s).
Proof.
  unfold setPointerCapture. destruct (existsb _ _); auto.
Qed.

Lemma pointerDown_pageInvariant (t : HitTarget) (e : PointerEvent)
  (s : State) :
  canvasLaidOut s ->
  isResizeHandleDown (EvPointerDown t e) = false ->
  pageInvariant s -> pageInvariant (fst (pointerDown t e s)).
Proof.
  intros Hlaid Ht Hinv.
  assert (Hcaptured : canvasLaidOut (setPointerCapture (pointerId e) s)).
  { unfold canvasLaidOut. rewrite setPointerCapture_imageCanvasRef.
    exact Hlaid. }
  assert (Hbackground : pageInvariant (fst (handleBackgroundDown e s))).
  { unfold handleBackgroundDown. destruct (tool s); cbn [fst].
    - apply startDragState_pageInvariant; [exact Hcaptured|reflexivity|].
      apply setPointerCapture_pageInvariant, Hinv.
    - apply (setPointerCapture_pageInvariant (pointerId e)) in Hinv.
      destruct Hinv as (Hsel & Href & _).
      split; [exact Hsel | split; [exact Href | reflexivity]]. }
  unfold pointerDown. destruct t as [| |m]; [exact Hbackground| |discriminate].
  unfold handleBoxDown. destruct (tool s) eqn:Htool;
    cbn [fst snd existsb isStopPropagation orb].
  - apply startDragState_pageInvariant; [exact Hcaptured|reflexivity|].
    apply setPointerCapture_pageInvariant, Hinv.
  - exact Hbackground.
Qed.

Lemma setSelection_pageInvariant (v : option NormalizedRect) (s : State) :
  optInPage v -> pageInvariant s -> pageInvariant (setSelection v s).
Proof.
  intros Hv (Hsel & Href & Hmode). unfold pageInvariant.
  rewrite selection_setSelection. unfold setSelection.
  destruct v, (selection s);
    (split; [exact Hv | split; [exact Href | exact Hmode]]).
Qed.

Lemma handlePointerMove_pageInvariant (e : PointerEvent) (s : State) :
  canvasLaidOut s ->
  pageInvariant s -> pageInvariant (fst (handlePointerMove e s)).
Proof.
  intros Hlaid Hinv. pose proof Hinv as (Hsel & Href & Hmode).
  unfold handlePointerMove. destruct (tool s).
  - destruct (interactionMode s) eqn:Em; try discriminate Hmode.
    + exact Hinv.
    + destruct (dragStartPoint s) as [start|]; [|exact Hinv].
      destruct (initialSelectionRef s) as [initial|]; [|exact Hinv].
      cbn [fst newRectFor]. apply setSelection_pageInvariant; [|exact Hinv].
      destruct Href as (Hx0 & Hx1 & Hx2 & Hy0 & Hy1 & Hy2).
      destruct (getNormalizedCoordinates_bounds e s Hlaid) as [Bx By].
      apply drawRect_inPage; try assumption; split; lra.
    + destruct (dragStartPoint s) as [start|]; [|exact Hinv].
      destruct (initialSelectionRef s) as [initial|]; [|exact Hinv].
      cbn [fst newRectFor]. apply setSelection_pageInvariant; [|exact Hinv].
      apply moveRect_inPage. exact Href.
  - destruct (interactionMode s) eqn:Em; try exact Hinv.
    destruct (lastPanPosition s); [|exact Hinv].
    destruct (containerRef s); [|exact Hinv].
    cbn [fst]. split; [exact Hsel | split; [exact Href|]].
    cbn [interactionMode setLastPanPosition setContainerRef].
    rewrite Em. reflexivity.
Qed.

Lemma releasePointerCapture_pageInvariant (id : nat) (s : State) :
  pageInvariant s -> pageInvariant (releasePointerCapture id s).
Proof.
  unfold releasePointerCapture. destruct (existsb _ _); auto.
Qed.

Lemma handlePointerUp_pageInvariant (e : PointerEvent) (s : State) :
  pageInvariant s -> pageInvariant (handlePointerUp e s).
Proof.
  intros (Hsel & _ & _). unfold handlePointerUp, pageInvariant.
  cbn [selection initialSelectionRef interactionMode
       setInitialSelectionRef setDragStartPoint setInteractionMode
       optInPage isResizing].
  split; [|split; reflexivity].
  assert (Hkept : selection (releasePointerCapture (pointerId e)
                    match tool s with
                    | select => s
                    | pan => setLastPanPosition None s
                    end) = selection s).
  { rewrite selection_releasePointerCapture. destruct (tool s); reflexivity. }
  destruct (interactionMode s); rewrite ?Hkept; try exact Hsel.
  destruct (selection s) as [sel|]; rewrite ?Hkept; [|exact I].
  destruct (tooSmall sel); [|rewrite Hkept; exact Hsel].
  rewrite selection_setSelection. exact I.
Qed.

Lemma handleConfirm_pageInvariant (props : Props) (s : State) :
  pageInvariant s -> pageInvariant (fst (handleConfirm props s)).
Proof.
  intros Hinv. unfold handleConfirm.
  destruct (selection s) eqn:Esel; [|exact Hinv].
  destruct Hinv as (_ & Href & Hmode).
  destruct (isEditing props); cbn [fst]; unfold pageInvariant, setSelection;
    rewrite Esel; (split; [exact I|split; assumption]).
Qed.

Lemma calculateLayout_pageInvariant (props : Props) (preserve : bool)
  (s : State) :
  optInPage (initialRect props) ->
  pageInvariant s -> pageInvariant (calculateLayout props preserve s).
Proof.
  intros Hrect (Hsel & Href & Hmode).
  unfold calculateLayout, pageInvariant, setSelection.
  case_compute; try (split; [|split]; assumption).
Qed.

Lemma handleKeyDown_pageInvariant (props : Props) (e : KeyEvent) (s : State) :
  pageInvariant s -> pageInvariant (fst (handleKeyDown props e s)).
Proof.
  intros Hinv. unfold handleKeyDown.
  set (toggled := match key e with
                  | Space => _
                  | _ => (s, [])
                  end).
  assert (Ht : pageInvariant (fst toggled)).
  { subst toggled. destruct (key e); try exact Hinv.
    destruct (negb (repeat e) && negb (inputFocused e)); exact Hinv. }
  assert (Hs : selection (fst toggled) = selection s).
  { subst toggled. destruct (key e); try reflexivity.
    destruct (negb (repeat e) && negb (inputFocused e)); reflexivity. }
  destruct (inputFocused e); [exact Ht|].
  destruct (key e); cbn [fst]; try exact Ht.
  destruct (selection s); [|exact Ht]. cbn [fst].
  apply handleConfirm_pageInvariant, Ht.
Qed.

(** Every event but a pointer-down on a resize handle keeps the
    invariant, when the canvas is laid out and the rectangle an edit
    session starts from is inside the page. *)
Lemma step_pageInvariant (props : Props) (ev : Event) (s : State) :
  canvasLaidOut s ->
  optInPage (initialRect props) ->
  isResizeHandleDown ev = false ->
  pageInvariant s -> pageInvariant (fst (step props ev s)).
Proof.
  intros Hlaid Hrect Hev Hinv. unfold step. cbn [fst].
  assert (Hhandled : pageInvariant (fst (handle props ev s))).
  { destruct ev; cbn [handle fst].
    - apply pointerDown_pageInvariant; assumption.
    - apply handlePointerMove_pageInvariant; assumption.
    - apply handlePointerUp_pageInvariant, Hinv.
    - apply handleConfirm_pageInvariant, Hinv.
    - apply handleKeyDown_pageInvariant, Hinv.
    - apply calculateLayout_pageInvariant; [exact Hrect|].
      destruct Hinv as (Hsel & Href & Hmode). split; [|split]; assumption.
    - destruct Hinv as (Hsel & Href & Hmode). split; [|split]; assumption. }
  unfold layoutEffect. destruct (Z.eqb _ _); [exact Hhandled|].
  apply calculateLayout_pageInvariant; assumption.
Qed.

Lemma run_pageInvariant (props : Props) (evs : list Event) :
  optInPage (initialRect props) ->
  forallb (fun ev => negb (isResizeHandleDown ev)) evs = true ->
  forall s : State,
    canvasLaidOut s ->
    pageInvariant s -> pageInvariant (fst (run props evs s)).
Proof.
  intros Hrect. induction evs as [|ev rest IH]; intros Hevs s Hlaid Hinv.
  - exact Hinv.
  - cbn [forallb] in Hevs. apply andb_true_iff in Hevs.
    destruct Hevs as [Hev Hrest]. apply negb_true_iff in Hev.
    cbn [run fst]. apply IH; [exact Hrest| |].
    + apply step_canvasLaidOut, Hlaid.
    + apply step_pageInvariant; assumption.
Qed.

(** ** The page boundary under resizing *)

(** C2.  The selection (100, 100, 300, 300) lies inside the page and its
    south-east handle is on screen.  Grabbed at (298, 298), two units
    inside the corner, and dragged to the corner of the page at
    (1000, 1000), the handle moves the east and south edges by 702 units,
    to 1002: the stored rectangle is not inside [0, 1000]. *)
Theorem C2_resize_pushes_edge_past_page :
  inPage (mkRect 100 100 300 300) /\
  selection selectedState = Some (mkRect 100 100 300 300) /\
  rendered (ResizeHandle resizing_se) selectedState = true /\
  interactionMode resizingState = resizing_se /\
  exists r : NormalizedRect,
    selection (fst (step addProps (EvPointerMove (pointerAt 1000 1000))
                      resizingState)) = Some r /\
    xmin r == 100 /\ ymin r == 100 /\ xmax r == 1002 /\ ymax r == 1002 /\
    ~ inPage r.
Proof.
  split. { unfold inPage. cbn. repeat split; discriminate. }
  split; [reflexivity|]. split; [reflexivity|]. split; [reflexivity|].
  eexists. split; [reflexivity|].
  split; [reflexivity|]. split; [reflexivity|].
  split; [reflexivity|]. split; [reflexivity|].
  intros (_ & _ & Hx & _). vm_compute in Hx. apply Hx. reflexivity.
Qed.

(** ** A click on the background *)

Lemma tooSmall_pointRect (a : Point) : tooSmall (pointRect a) = true.
Proof.
  apply tooSmall_true. left. cbn [pointRect xmin xmax].
  apply Qabs_case; intros _; lra.
Qed.

Lemma releasePointerCapture_selectionGen (id : nat) (s : State) :
  selectionGen (releasePointerCapture id s) = selectionGen s /\
  currentPageIndex (releasePointerCapture id s) = currentPageIndex s.
Proof.
  unfold releasePointerCapture. destruct (existsb _ _); split; reflexivity.
Qed.

Lemma setPointerCapture_currentPageIndex (id : nat) (s : State) :
  currentPageIndex (setPointerCapture id s) = currentPageIndex s.
Proof. unfold setPointerCapture. destruct (existsb _ _); reflexivity. Qed.

(** With the select tool and no selection, a pointer-down on the
    background followed by a pointer-up reports [true], then [false], and
    leaves no selection. *)
Lemma bare_click_from_empty (props : Props) (e e' : PointerEvent)
  (s : State) :
  canvasLaidOut s -> tool s = select -> selection s = None ->
  let a := getNormalizedCoordinates e s in
  let down := step props (EvPointerDown Background e) s in
  let click := run props [EvPointerDown Background e; EvPointerUp e'] s in
  selection (fst down) = Some (pointRect a) /\
  onSelectionChanges (snd down) = [true] /\
  onSelectionChanges (snd click) = [true; false] /\
  selection (fst click) = None /\
  interactionMode (fst click) = none.
Proof.
  intros _ Htool Hsel a down click.
  destruct (background_down_from_empty e s Htool Hsel)
    as (Ht & Hm & Hd & Hi & Hs1 & Hg1 & _ & Hcalls).
  set (s1 := fst (pointerDown Background e s)) in *.
  assert (Hidx1 : currentPageIndex s1 = currentPageIndex s).
  { subst s1. unfold pointerDown, handleBackgroundDown.
    cbn [fst snd existsb]. rewrite Htool. cbn [fst].
    unfold startDragState. rewrite selection_setPointerCapture, Hsel.
    unfold setSelection. cbn [selection setInitialSelectionRef].
    cbn [currentPageIndex setInteractionMode setDragStartPoint].
    apply setPointerCapture_currentPageIndex. }
  assert (Hdown : down = (s1, [PreventDefault; OnSelectionChange true])).
  { subst down. unfold step. cbn [handle]. fold s1. rewrite Hcalls.
    unfold layoutEffect. rewrite Hidx1, Z.eqb_refl.
    rewrite selectionEffect_same. unfold selectionEffect.
    rewrite Hg1, Hs1.
    destruct (Nat.eqb_neq (selectionGen s) (S (selectionGen s))) as [_ Hne].
    rewrite Hne by lia. reflexivity. }
  set (s2 := handlePointerUp e' s1).
  assert (Hup : selection s2 = None /\ interactionMode s2 = none /\
                selectionGen s2 = S (selectionGen s1) /\
                currentPageIndex s2 = currentPageIndex s1).
  { subst s2. unfold handlePointerUp. rewrite Hm, Hs1, Ht.
    rewrite tooSmall_pointRect.
    cbn [selection interactionMode selectionGen currentPageIndex
         setInitialSelectionRef setDragStartPoint setInteractionMode].
    unfold setSelection. rewrite selection_releasePointerCapture, Hs1.
    cbn [selection selectionGen currentPageIndex].
    destruct (releasePointerCapture_selectionGen (pointerId e') s1)
      as [Hg Hp].
    rewrite Hg, Hp. repeat split. }
  destruct Hup as (Hs2 & Hm2 & Hg2 & Hidx2).
  assert (Hclick : click = (s2, [PreventDefault; OnSelectionChange true;
                                 OnSelectionChange false])).
  { subst click. cbn [run]. fold down. rewrite Hdown. cbn [fst snd].
    unfold step. cbn [handle fst snd]. fold s2.
    unfold layoutEffect. rewrite Hidx2, Z.eqb_refl.
    rewrite selectionEffect_same.
    rewrite (selectionEffect_cleared s1 s2 Hg2 Hs2). reflexivity. }
  rewrite Hdown, Hclick. cbn [fst snd].
  repeat split; assumption.
Qed.

(** C10.  With the select tool and the selection (100, 100, 300, 300) on
    the page, a pointer-down on the background at (500, 500) creates no
    selection at the pointer: the selection stays what it was and becomes
    the snapshot of the drag, and [onSelectionChange] is not called.  The
    pointer-up that follows leaves the selection in place, again without a
    call.  A move to (700, 700) in between stores the envelope of the old
    corner (100, 100) and the pointer, not the envelope of the two pointer
    positions. *)
Theorem C10_click_with_selection_creates_none :
  tool selectedState = select /\
  selection selectedState = Some (mkRect 100 100 300 300) /\
  selection redrawingState = Some (mkRect 100 100 300 300) /\
  interactionMode redrawingState = drawing /\
  initialSelectionRef redrawingState = Some (mkRect 100 100 300 300) /\
  onSelectionChanges
    (snd (step addProps (EvPointerDown Background (pointerAt 500 500))
            selectedState)) = [] /\
  onSelectionChanges
    (snd (run addProps [EvPointerDown Background (pointerAt 500 500);
                        EvPointerUp (pointerAt 500 500)] selectedState))
  = [] /\
  selection
    (fst (run addProps [EvPointerDown Background (pointerAt 500 500);
                        EvPointerUp (pointerAt 500 500)] selectedState))
  = Some (mkRect 100 100 300 300) /\
  exists r : NormalizedRect,
    selection (fst (step addProps (EvPointerMove (pointerAt 700 700))
                      redrawingState)) = Some r /\
    rectEq r (mkRect 100 100 700 700) /\
    ~ rectEq r (mkRect 500 500 700 700).
Proof.
  do 8 (split; [reflexivity|]).
  eexists. split; [reflexivity|]. split.
  - unfold rectEq. cbn. repeat split.
  - intros (Hx & _). vm_compute in Hx. discriminate Hx.
Qed.


(** * Further properties of the component *)

(** ** What the handlers leave alone *)

Lemma setSelection_currentPageIndex (v : option NormalizedRect) (s : State) :
  currentPageIndex (setSelection v s) = currentPageIndex s.
Proof. unfold setSelection. destruct v, (selection s); reflexivity. Qed.

Lemma startDragState_currentPageIndex (e : PointerEvent)
  (m : InteractionMode) (s : State) :
  currentPageIndex (startDragState e m s) = currentPageIndex s.
Proof.
  unfold startDragState. destruct (selection s); [reflexivity|].
  rewrite setSelection_currentPageIndex. reflexivity.
Qed.

Lemma pointerDown_currentPageIndex (t : HitTarget) (e : PointerEvent)
  (s : State) :
  currentPageIndex (fst (pointerDown t e s)) = currentPageIndex s.
Proof.
  assert (Hbackground :
    currentPageIndex (fst (handleBackgroundDown e s)) = currentPageIndex s).
  { unfold handleBackgroundDown. destruct (tool s); cbn [fst].
    - rewrite startDragState_currentPageIndex.
      apply setPointerCapture_currentPageIndex.
    - cbn [currentPageIndex setLastPanPosition setInteractionMode].
      apply setPointerCapture_currentPageIndex. }
  unfold pointerDown, handleBoxDown, handleHandleDown.
  destruct t; [exact Hbackground | |];
    (destruct (tool s) eqn:Htool;
     cbn [fst snd existsb isStopPropagation orb];
     [rewrite startDragState_currentPageIndex;
      apply setPointerCapture_currentPageIndex
     | exact Hbackground]).
Qed.

Lemma handlePointerMove_currentPageIndex (e : PointerEvent) (s : State) :
  currentPageIndex (fst (handlePointerMove e s)) = currentPageIndex s.
Proof.
  unfold handlePointerMove. destruct (tool s).
  - destruct (interactionMode s); try reflexivity;
      destruct (dragStartPoint s), (initialSelectionRef s);
      try reflexivity; cbn [fst]; apply setSelection_currentPageIndex.
  - destruct (interactionMode s), (lastPanPosition s), (containerRef s);
      reflexivity.
Qed.

Lemma handlePointerUp_currentPageIndex (e : PointerEvent) (s : State) :
  currentPageIndex (handlePointerUp e s) = currentPageIndex s.
Proof.
  unfold handlePointerUp.
  cbn [currentPageIndex setInitialSelectionRef setDragStartPoint
       setInteractionMode].
  assert (Hreleased : forall s0 : State,
    currentPageIndex (releasePointerCapture (pointerId e) s0)
    = currentPageIndex s0)
    by (intros s0; apply releasePointerCapture_selectionGen).
  destruct (interactionMode s), (selection s) as [sel|];
    try (destruct (tooSmall sel));
    rewrite ?setSelection_currentPageIndex, Hreleased;
    destruct (tool s); reflexivity.
Qed.

Lemma handleConfirm_currentPageIndex (props : Props) (s : State) :
  currentPageIndex (fst (handleConfirm props s)) = currentPageIndex s.
Proof.
  unfold handleConfirm. destruct (selection s) eqn:Hsel; [|reflexivity].
  destruct (isEditing props); cbn [fst currentPageIndex setShowToast];
    apply setSelection_currentPageIndex.
Qed.

Lemma calculateLayout_currentPageIndex (props : Props) (preserve : bool)
  (s : State) :
  currentPageIndex (calculateLayout props preserve s) = currentPageIndex s.
Proof. unfold calculateLayout, setSelection. case_compute. Qed.

Lemma layoutEffect_currentPageIndex (props : Props) (s s1 : State) :
  currentPageIndex (layoutEffect props s s1) = currentPageIndex s1.
Proof.
  unfold layoutEffect. destruct (Z.eqb _ _); [reflexivity|].
  apply calculateLayout_currentPageIndex.
Qed.

(** A key press moves by at most one page and stays among the pages. *)
Lemma handleKeyDown_pageInRange (props : Props) (e : KeyEvent) (s : State) :
  pageInRange props s -> pageInRange props (fst (handleKeyDown props e s)).
Proof.
  unfold pageInRange. intros Hin. unfold handleKeyDown.
  set (toggled := match key e with
                  | Space => _
                  | _ => (s, [])
                  end).
  assert (Ht : currentPageIndex (fst toggled) = currentPageIndex s).
  { subst toggled. destruct (key e); try reflexivity.
    destruct (negb (repeat e) && negb (inputFocused e)); reflexivity. }
  destruct (inputFocused e); [rewrite Ht; exact Hin|].
  destruct (key e); cbn [fst currentPageIndex setCurrentPageIndex];
    rewrite ?Ht; try exact Hin; try lia.
  destruct (selection s); cbn [fst];
    rewrite ?handleConfirm_currentPageIndex, Ht; exact Hin.
Qed.

Lemma handle_pageInRange (props : Props) (ev : Event) (s : State) :
  pageInRange props s -> pageInRange props (fst (handle props ev s)).
Proof.
  intros Hin. destruct ev; cbn [handle fst].
  - unfold pageInRange. rewrite pointerDown_currentPageIndex. exact Hin.
  - unfold pageInRange. rewrite handlePointerMove_currentPageIndex.
    exact Hin.
  - unfold pageInRange. rewrite handlePointerUp_currentPageIndex. exact Hin.
  - unfold pageInRange. rewrite handleConfirm_currentPageIndex. exact Hin.
  - apply handleKeyDown_pageInRange, Hin.
  - unfold pageInRange. rewrite calculateLayout_currentPageIndex. exact Hin.
  - exact Hin.
Qed.

Lemma step_pageInRange (props : Props) (ev : Event) (s : State) :
  pageInRange props s -> pageInRange props (fst (step props ev s)).
Proof.
  intros Hin. unfold step. cbn [fst]. unfold pageInRange.
  rewrite layoutEffect_currentPageIndex. apply handle_pageInRange, Hin.
Qed.

Lemma handleWheel_pageInRange (props : Props) (e : WheelEvent)
  (n : NavState) :
  pageInRange props (component n) ->
  pageInRange props (component (fst (handleWheel props e n))).
Proof.
  unfold pageInRange. intros Hin. unfold handleWheel.
  destruct (containerRef (component n)); [|exact Hin].
  destruct (ctrlKey e); [exact Hin|].
  destruct (scrollThrottle n); [exact Hin|].
  cbv zeta.
  destruct (Qltb 0 (deltaY e)).
  - destruct (negb _ || _); [|exact Hin].
    destruct (Z.ltb_spec (currentPageIndex (component n))
                (Z.of_nat (List.length (pageImages props)) - 1));
      [|exact Hin].
    cbn [fst component currentPageIndex setCurrentPageIndex]. lia.
  - destruct (Qltb (deltaY e) 0); [|exact Hin].
    destruct (negb _ || _); [|exact Hin].
    destruct (Z.ltb_spec 0 (currentPageIndex (component n))); [|exact Hin].
    cbn [fst component currentPageIndex setCurrentPageIndex]. lia.
Qed.

Lemma navStep_pageInRange (props : Props) (ev : NavEvent) (n : NavState) :
  pageInRange props (component n) ->
  pageInRange props (component (fst (navStep props ev n))).
Proof.
  intros Hin. destruct ev; cbn [navStep fst component].
  - apply step_pageInRange, Hin.
  - unfold pageInRange. rewrite layoutEffect_currentPageIndex.
    apply handleWheel_pageInRange, Hin.
  - exact Hin.
  - unfold pageInRange in *. rewrite layoutEffect_currentPageIndex.
    unfold clickPrevious.
    destruct (Z.eqb_spec (currentPageIndex (component n)) 0); [exact Hin|].
    cbn [currentPageIndex setCurrentPageIndex]. lia.
  - unfold pageInRange in *. rewrite layoutEffect_currentPageIndex.
    unfold clickNext.
    destruct (Z.eqb_spec (currentPageIndex (component n))
                (Z.of_nat (List.length (pageImages props)) - 1));
      [exact Hin|].
    cbn [currentPageIndex setCurrentPageIndex]. lia.
  - exact Hin.
  - exact Hin.
  - exact Hin.
  - exact Hin.
Qed.

(** X1.  Whatever the user does (pointer, keys, wheel, page buttons,
    toolbar), the page index keeps pointing at a page of the document:
    the arrow keys, the buttons and the wheel stop at the first and at the
    last page. *)
Theorem nav_page_index_stays_in_range
  (props : Props) (evs : list NavEvent) :
  forall n : NavState,
    pageInRange props (component n) ->
    pageInRange props (component (fst (navRun props evs n))) /\
    currentPage props (component (fst (navRun props evs n))) <> None.
Proof.
  assert (Hpage : forall s : State,
    pageInRange props s -> currentPage props s <> None).
  { intros s [Hlo Hhi]. unfold currentPage.
    destruct (Z.ltb_spec (currentPageIndex s) 0); [lia|].
    apply nth_error_Some. lia. }
  induction evs as [|ev rest IH]; intros n Hin; cbn [navRun fst].
  - split; [exact Hin | apply Hpage, Hin].
  - apply IH, navStep_pageInRange, Hin.
Qed.

Lemma nav_page_index_witness :
  let evs := [NavComponent (EvKeyDown (keyPress ArrowRight));
              NavNextButton;
              NavWheel (mkWheel false 120);
              NavComponent (EvKeyDown (keyPress ArrowLeft));
              NavPreviousButton; NavPreviousButton] in
  pageInRange addProps (component (fst (navRun addProps evs navFresh))) /\
  currentPage addProps (component (fst (navRun addProps evs navFresh)))
  <> None.
Proof.
  intros evs.
  apply (nav_page_index_stays_in_range addProps evs navFresh).
  unfold pageInRange. cbn. lia.
Defined.

(** ** The zoom stays usable *)

Lemma zoomAndLatch_zoom (s s' : State) :
  zoomAndLatch s' = zoomAndLatch s -> zoom s' = zoom s.
Proof. unfold zoomAndLatch. intros H. injection H as Hz _. exact Hz. Qed.

Lemma zoom_setSelection (v : option NormalizedRect) (s : State) :
  zoom (setSelection v s) = zoom s.
Proof. apply (zoomAndLatch_zoom s), setSelection_zoomAndLatch. Qed.

Lemma calculateLayout_zoom (props : Props) (preserve : bool) (s : State) :
  zoom (calculateLayout props preserve s) = zoom s \/
  1 <= zoom (calculateLayout props preserve s) <= 3.
Proof.
  unfold calculateLayout.
  destruct (containerRef s) as [c|]; [|left; reflexivity].
  destruct (currentPage props s) as [page|]; [|left; reflexivity].
  destruct (Qle_bool _ _ || Qle_bool _ _); [left; reflexivity|].
  cbv zeta.
  pose proof (defaultZoom_range ((clientWidth c - padding) / width page)
                ((clientHeight c - padding) / height page)) as Hdefault.
  set (z := defaultZoom _ _) in *. clearbody z.
  destruct (currentPageIndex s =? initialPageIndex props)%Z,
           (isEditing props), (initialRect props), (hasInitializedZoom s),
           preserve, (preservedScrollRatio s);
    cbn [zoom setIsLayoutReady setHasInitializedZoom setTool setZoom
         setFitScale setViewportCenter setPreservedScrollRatio negb];
    rewrite ?zoom_setSelection;
    cbn [zoom setZoom setFitScale];
    first [left; reflexivity | right; exact Hdefault | right; lra].
Qed.

Lemma calculateLayout_zoomInRange (props : Props) (preserve : bool)
  (s : State) :
  zoomInRange s -> zoomInRange (calculateLayout props preserve s).
Proof.
  unfold zoomInRange. intros Hin.
  destruct (calculateLayout_zoom props preserve s) as [-> | Hz]; lra.
Qed.

Lemma step_zoomInRange (props : Props) (ev : Event) (s : State) :
  zoomInRange s -> zoomInRange (fst (step props ev s)).
Proof.
  intros Hin. unfold step. cbn [fst].
  assert (Hhandled : zoomInRange (fst (handle props ev s))).
  { unfold zoomInRange in *. destruct ev; cbn [handle fst].
    - rewrite (zoomAndLatch_zoom _ _ (pointerDown_zoomAndLatch t e s)).
      exact Hin.
    - rewrite (zoomAndLatch_zoom _ _ (handlePointerMove_zoomAndLatch e s)).
      exact Hin.
    - rewrite (zoomAndLatch_zoom _ _ (handlePointerUp_zoomAndLatch e s)).
      exact Hin.
    - rewrite (zoomAndLatch_zoom _ _ (handleConfirm_zoomAndLatch props s)).
      exact Hin.
    - rewrite (zoomAndLatch_zoom _ _ (handleKeyDown_zoomAndLatch props e s)).
      exact Hin.
    - apply (calculateLayout_zoomInRange props true
               (setContainerRef (Some c) s)). exact Hin.
    - exact Hin. }
  unfold layoutEffect. destruct (Z.eqb _ _); [exact Hhandled|].
  apply calculateLayout_zoomInRange, Hhandled.
Qed.

Lemma layoutEffect_zoomInRange (props : Props) (s s1 : State) :
  zoomInRange s1 -> zoomInRange (layoutEffect props s s1).
Proof.
  intros Hin. unfold layoutEffect. destruct (Z.eqb _ _); [exact Hin|].
  apply calculateLayout_zoomInRange, Hin.
Qed.

Lemma navStep_zoomInRange (props : Props) (ev : NavEvent) (n : NavState) :
  zoomInRange (component n) ->
  zoomInRange (component (fst (navStep props ev n))).
Proof.
  intros Hin. destruct ev; cbn [navStep fst component].
  - apply step_zoomInRange, Hin.
  - apply layoutEffect_zoomInRange. unfold handleWheel.
    destruct (containerRef (component n)); [|exact Hin].
    destruct (ctrlKey e); [exact Hin|].
    destruct (scrollThrottle n); [exact Hin|].
    cbv zeta.
    destruct (Qltb 0 (deltaY e)); [|destruct (Qltb (deltaY e) 0)];
      try exact Hin;
      (destruct (negb _ || _); [|exact Hin]);
      (destruct (Z.ltb _ _); exact Hin).
  - exact Hin.
  - apply layoutEffect_zoomInRange. unfold clickPrevious.
    destruct (Z.eqb _ _); exact Hin.
  - apply layoutEffect_zoomInRange. unfold clickNext.
    destruct (Z.eqb _ _); exact Hin.
  - exact Hin.
  - unfold zoomInRange, zoomOut in *. cbn [zoom setZoom]. minmax_lra.
  - unfold zoomInRange, zoomIn in *. cbn [zoom setZoom]. minmax_lra.
  - unfold zoomInRange, zoomReset. cbn [zoom setZoom]. lra.
Qed.

(** X2.  The zoom never leaves [0.1, 10]: the zoom buttons of the toolbar
    clamp to that range and the layout passes of the component only ever
    set a zoom between 1 and 3. *)
Theorem nav_zoom_stays_in_range (props : Props) (evs : list NavEvent) :
  forall n : NavState,
    zoomInRange (component n) ->
    zoomInRange (component (fst (navRun props evs n))).
Proof.
  induction evs as [|ev rest IH]; intros n Hin; cbn [navRun fst].
  - exact Hin.
  - apply IH, navStep_zoomInRange, Hin.
Qed.

Lemma nav_zoom_witness :
  zoomInRange
    (component
       (fst (navRun addProps
               [NavZoomOut; NavZoomOut; NavZoomOut; NavZoomOut; NavZoomOut;
                NavComponent (EvResize sampleContainer); NavZoomIn]
               navFresh))).
Proof.
  apply (nav_zoom_stays_in_range addProps).
  unfold zoomInRange. cbn. split; discriminate.
Defined.

(** ** Keys *)

Lemma setTool_twice (t : Tool) (s : State) :
  setTool (tool s) (setTool t s) = s.
Proof. destruct s; reflexivity. Qed.

(** X3.  While an [<input>] element has the focus (the test of the code
    is [tagName !== 'INPUT']; a [<textarea>] does not count) no key does
    anything: the state is the same and nothing is called. *)
Theorem keys_inert_while_typing (props : Props) (e : KeyEvent) (s : State) :
  inputFocused e = true ->
  step props (EvKeyDown e) s = (s, []).
Proof.
  intros Hfocus.
  assert (Hkey : handleKeyDown props e s = (s, [])).
  { unfold handleKeyDown. rewrite Hfocus.
    destruct (key e); rewrite ?andb_false_r; reflexivity. }
  unfold step. cbn [handle]. rewrite Hkey. cbn [fst snd].
  unfold layoutEffect. rewrite Z.eqb_refl, selectionEffect_same.
  reflexivity.
Qed.

Lemma keys_inert_witness :
  step addProps (EvKeyDown (mkKeyEvent Escape false true)) selectedState
  = (selectedState, []).
Proof.
  exact (keys_inert_while_typing addProps (mkKeyEvent Escape false true)
           selectedState eq_refl).
Defined.

(** X4.  The space bar, when it is not auto-repeating and no input has
    the focus, switches between the select and the pan tool and changes
    nothing else; pressed a second time it restores the state exactly.  An
    auto-repeated space does nothing. *)
Theorem space_toggles_tool (props : Props) (e : KeyEvent) (s : State) :
  key e = Space -> inputFocused e = false ->
  (repeat e = false ->
   let s1 := fst (step props (EvKeyDown e) s) in
   s1 = setTool (match tool s with select => pan | pan => select end) s /\
   tool s1 <> tool s /\
   snd (step props (EvKeyDown e) s) = [PreventDefault] /\
   fst (step props (EvKeyDown e) s1) = s) /\
  (repeat e = true -> step props (EvKeyDown e) s = (s, [])).
Proof.
  intros Hkey Hfocus.
  assert (Hstep : forall s0 : State,
    step props (EvKeyDown e) s0 =
    if repeat e then (s0, [])
    else (setTool (match tool s0 with select => pan | pan => select end) s0,
          [PreventDefault])).
  { intros s0. unfold step. cbn [handle]. unfold handleKeyDown.
    rewrite Hkey, Hfocus. destruct (repeat e); cbn [negb andb fst snd];
      unfold layoutEffect; cbn [currentPageIndex setTool];
      rewrite Z.eqb_refl, selectionEffect_same;
      [reflexivity|].
    unfold selectionEffect. cbn [selectionGen setTool].
    rewrite Nat.eqb_refl. reflexivity. }
  split.
  - intros Hrepeat s1. subst s1. rewrite !Hstep, Hrepeat. cbn [fst snd].
    split; [reflexivity|]. split; [destruct (tool s); discriminate|].
    split; [reflexivity|].
    destruct s as [? ? ? ? ? ? ? ? ? ? ? ? ? t ? ? ? ?].
    destruct t; reflexivity.
  - intros Hrepeat. rewrite Hstep, Hrepeat. reflexivity.
Qed.

Lemma space_toggles_witness :
  tool (fst (step addProps (EvKeyDown (keyPress Space)) selectedState)) = pan
  /\
  fst (step addProps (EvKeyDown (keyPress Space))
         (fst (step addProps (EvKeyDown (keyPress Space)) selectedState)))
  = selectedState.
Proof.
  destruct (space_toggles_tool addProps (keyPress Space) selectedState
              eq_refl eq_refl) as [Hpress _].
  destruct (Hpress eq_refl) as (Hs1 & _ & _ & Hback).
  split; [rewrite Hs1; reflexivity | exact Hback].
Defined.


(** ** Changing page *)

Lemma nav_eta (n : NavState) : mkNav (component n) (scrollThrottle n) = n.
Proof. destruct n; reflexivity. Qed.

Lemma layoutEffect_same (props : Props) (s : State) :
  layoutEffect props s s = s.
Proof. unfold layoutEffect. rewrite Z.eqb_refl. reflexivity. Qed.

(** The layout pass that follows a change of page, once the latch is
    set. *)
Lemma calculateLayout_page_change (props : Props) (s1 : State)
  (c : Container) (page : PageImage) :
  hasInitializedZoom s1 = true ->
  containerRef s1 = Some c ->
  0 < clientWidth c -> 0 < clientHeight c ->
  currentPage props s1 = Some page ->
  let s2 := calculateLayout props false s1 in
  currentPageIndex s2 = currentPageIndex s1 /\
  selection s2 = None /\
  viewportCenter s2 = Some (match preservedScrollRatio s1 with
                            | Some ratio => ratio
                            | None => mkPoint (1 # 2) 0
                            end) /\
  preservedScrollRatio s2 = None /\
  isLayoutReady s2 = true /\
  zoom s2 = zoom s1 /\
  tool s2 = tool s1 /\
  interactionMode s2 = interactionMode s1 /\
  selectionGen s2 = match selection s1 with
                    | Some _ => S (selectionGen s1)
                    | None => selectionGen s1
                    end.
Proof.
  intros Hlatch Hcont Hcw Hch Hpage. unfold calculateLayout.
  rewrite Hcont, Hpage, Hlatch.
  rewrite (Qle_bool_false (clientWidth c - padding) 0)
    by (unfold padding; lra).
  rewrite (Qle_bool_false (clientHeight c - padding) 0)
    by (unfold padding; lra).
  cbn [orb negb]. cbv zeta. unfold setSelection.
  cbn [selection setFitScale].
  destruct (isEditing props), (initialRect props),
           (preservedScrollRatio s1) eqn:Hratio, (selection s1) eqn:Hsel;
    cbn; rewrite ?Hratio, ?Hsel; repeat split.
Qed.

(** The render after a handler that went to another page. *)
Lemma page_change_rendered (props : Props) (s s1 : State)
  (c : Container) (page : PageImage) (anchor : Point) :
  currentPageIndex s1 <> currentPageIndex s ->
  selection s1 = selection s -> selectionGen s1 = selectionGen s ->
  zoom s1 = zoom s -> tool s1 = tool s ->
  interactionMode s1 = interactionMode s ->
  preservedScrollRatio s1 = Some anchor ->
  hasInitializedZoom s1 = true ->
  containerRef s1 = Some c ->
  0 < clientWidth c -> 0 < clientHeight c ->
  currentPage props s1 = Some page ->
  let s2 := layoutEffect props s s1 in
  arrivedAt s s2 (currentPageIndex s1) anchor /\
  onSelectionChanges (selectionEffect s s1 ++ selectionEffect s1 s2)
  = droppedSelection s.
Proof.
  intros Hidx Hsel Hgen Hzoom Htool Hmode Hratio Hlatch Hcont Hcw Hch Hpage.
  destruct (calculateLayout_page_change props s1 c page
              Hlatch Hcont Hcw Hch Hpage)
    as (Li & Ls & Lv & Lp & Lr & Lz & Lt & Lm & Lg).
  cbv zeta. unfold layoutEffect.
  destruct (Z.eqb_spec (currentPageIndex s) (currentPageIndex s1));
    [congruence|].
  rewrite Hratio in Lv.
  split.
  - unfold arrivedAt. repeat split; congruence.
  - unfold selectionEffect at 1. rewrite Hgen, Nat.eqb_refl. cbn [app].
    unfold selectionEffect, droppedSelection. rewrite Lg, Ls, Hsel.
    destruct (selection s);
      [destruct (Nat.eqb_neq (selectionGen s1) (S (selectionGen s1)))
         as [_ Hne]; rewrite Hne by lia
      | rewrite Nat.eqb_refl]; reflexivity.
Qed.

Lemma currentPage_at (props : Props) (s : State) (i : Z) :
  currentPageIndex s = i ->
  (0 <= i < Z.of_nat (List.length (pageImages props)))%Z ->
  exists page : PageImage, currentPage props s = Some page.
Proof.
  intros Hi Hrange. unfold currentPage. rewrite Hi.
  destruct (Z.ltb_spec i 0); [lia|].
  destruct (nth_error (pageImages props) (Z.to_nat i)) eqn:Hnth;
    [eexists; reflexivity|].
  apply nth_error_None in Hnth. lia.
Qed.

Lemma atBottom_test (c : Container) :
  atBottom c ->
  negb (Qltb (clientHeight c) (scrollHeight c))
  || Qltb (Qabs (scrollHeight c - clientHeight c - scrollTop c)) threshold
  = true.
Proof.
  intros [Hfits | Hnear]; apply orb_true_iff.
  - left. apply negb_true_iff, Qltb_false, Hfits.
  - right. apply Qltb_true, Hnear.
Qed.

Lemma atTop_test (c : Container) :
  atTop c ->
  negb (Qltb (clientHeight c) (scrollHeight c))
  || Qltb (scrollTop c) threshold = true.
Proof.
  intros [Hfits | Hnear]; apply orb_true_iff.
  - left. apply negb_true_iff, Qltb_false, Hfits.
  - right. apply Qltb_true, Hnear.
Qed.

(** The state a handler leaves when it goes to page [target]. *)
Lemma page_change_arrives (props : Props) (s : State) (c : Container)
  (target : Z) (anchor : Point) :
  hasInitializedZoom s = true ->
  containerRef s = Some c ->
  0 < clientWidth c -> 0 < clientHeight c ->
  target <> currentPageIndex s ->
  (0 <= target < Z.of_nat (List.length (pageImages props)))%Z ->
  let s1 := setCurrentPageIndex target
              (setPreservedScrollRatio (Some anchor) s) in
  arrivedAt s (layoutEffect props s s1) target anchor /\
  onSelectionChanges
    (selectionEffect s s1 ++ selectionEffect s1 (layoutEffect props s s1))
  = droppedSelection s.
Proof.
  intros Hlatch Hcont Hcw Hch Hne Hrange s1.
  destruct (currentPage_at props s1 target eq_refl Hrange) as [page Hpage].
  exact (page_change_rendered props s s1 c page anchor
           Hne eq_refl eq_refl eq_refl eq_refl eq_refl eq_refl
           Hlatch Hcont Hcw Hch Hpage).
Qed.

(** X5.  With a next page to go to, the right-arrow key, the next-page
    button and a wheel-down at the bottom of the page (or on a page that
    does not scroll) all lead to the same state: the next page, no
    selection, the scroll anchor at the former horizontal position and at
    the top, the zoom, the tool and the mode unchanged; the host hears
    [onSelectionChange(false)] exactly when a selection was dropped.  Only
    the wheel sets the throttle and starts its 500 ms timer. *)
Theorem next_page_three_ways
  (props : Props) (n : NavState) (c : Container)
  (ke : KeyEvent) (we : WheelEvent)
  (Hlatch : hasInitializedZoom (component n) = true)
  (Hcont : containerRef (component n) = Some c)
  (Hcw : 0 < clientWidth c) (Hch : 0 < clientHeight c)
  (Hsw : 0 < scrollWidth c)
  (Hlo : (0 <= currentPageIndex (component n))%Z)
  (Hhi : (currentPageIndex (component n) + 1
          < Z.of_nat (List.length (pageImages props)))%Z)
  (Hkey : key ke = ArrowRight) (Hfocus : inputFocused ke = false)
  (Hctrl : ctrlKey we = false) (Hthrottle : scrollThrottle n = false)
  (Hdown : 0 < deltaY we) (Hbottom : atBottom c) :
  let s := component n in
  let anchor := mkPoint (getCurrentXRatio s) 0 in
  let byKey := navStep props (NavComponent (EvKeyDown ke)) n in
  let byButton := navStep props NavNextButton n in
  let byWheel := navStep props (NavWheel we) n in
  arrivedAt s (component (fst byKey)) (currentPageIndex s + 1) anchor /\
  component (fst byButton) = component (fst byKey) /\
  component (fst byWheel) = component (fst byKey) /\
  onSelectionChanges (snd byKey) = droppedSelection s /\
  onSelectionChanges (snd byButton) = droppedSelection s /\
  onSelectionChanges (snd byWheel) = droppedSelection s /\
  scrollThrottle (fst byKey) = false /\
  scrollThrottle (fst byButton) = false /\
  scrollThrottle (fst byWheel) = true /\
  In (SetTimeout 500) (snd byWheel).
Proof.
  intros s anchor byKey byButton byWheel. subst s.
  set (s := component n) in *.
  set (s1 := setCurrentPageIndex (currentPageIndex s + 1)
               (setPreservedScrollRatio (Some anchor) s)).
  destruct (page_change_arrives props s c (currentPageIndex s + 1) anchor
              Hlatch Hcont Hcw Hch ltac:(lia) ltac:(lia))
    as [Harrived Hcalls].
  fold s1 in Harrived, Hcalls.
  assert (Hk : handleKeyDown props ke s = (s1, [])).
  { unfold handleKeyDown. rewrite Hkey, Hfocus. cbn [fst snd].
    subst s1. rewrite Z.min_r by lia. reflexivity. }
  assert (Hb : clickNext props s = s1).
  { unfold clickNext.
    destruct (Z.eqb_spec (currentPageIndex s)
                (Z.of_nat (List.length (pageImages props)) - 1));
      [lia|].
    subst s1. rewrite Z.min_r by lia. reflexivity. }
  assert (Hw : handleWheel props we n
               = (mkNav s1 true, [PreventDefault; SetTimeout 500])).
  { unfold handleWheel. fold s. rewrite Hcont, Hctrl, Hthrottle. cbv zeta.
    rewrite (proj2 (Qltb_true 0 (deltaY we)) Hdown).
    rewrite (atBottom_test c Hbottom).
    destruct (Z.ltb_spec (currentPageIndex s)
                (Z.of_nat (List.length (pageImages props)) - 1));
      [reflexivity | lia]. }
  assert (Hbykey : byKey = (mkNav (layoutEffect props s s1) false,
                            selectionEffect s s1
                            ++ selectionEffect s1 (layoutEffect props s s1))).
  { subst byKey. cbn [navStep]. fold s. unfold step. cbn [handle].
    rewrite Hk, Hthrottle. reflexivity. }
  assert (Hbybutton : byButton = (mkNav (layoutEffect props s s1) false,
                            selectionEffect s s1
                            ++ selectionEffect s1 (layoutEffect props s s1))).
  { subst byButton. cbn [navStep]. fold s. rewrite Hb, Hthrottle.
    reflexivity. }
  assert (Hbywheel : byWheel = (mkNav (layoutEffect props s s1) true,
                            [PreventDefault; SetTimeout 500]
                            ++ selectionEffect s s1
                            ++ selectionEffect s1 (layoutEffect props s s1))).
  { subst byWheel. cbn [navStep]. fold s. rewrite Hw. reflexivity. }
  rewrite Hbykey, Hbybutton, Hbywheel. cbn [fst snd component scrollThrottle].
  split; [exact Harrived|].
  do 2 (split; [reflexivity|]).
  do 2 (split; [exact Hcalls|]).
  split; [exact Hcalls|].
  do 3 (split; [reflexivity|]).
  cbn. tauto.
Qed.

Lemma next_page_witness :
  arrivedAt selectedState
    (component (fst (navStep addProps
                       (NavComponent (EvKeyDown (keyPress ArrowRight)))
                       navSelected)))
    1 (mkPoint (getCurrentXRatio selectedState) 0) /\
  onSelectionChanges
    (snd (navStep addProps (NavWheel (mkWheel false 120)) navSelected))
  = [false].
Proof.
  assert (Hcw : 0 < clientWidth unitContainer) by reflexivity.
  assert (Hch : 0 < clientHeight unitContainer) by reflexivity.
  assert (Hsw : 0 < scrollWidth unitContainer) by reflexivity.
  assert (Hlo : (0 <= currentPageIndex (component navSelected))%Z)
    by (cbn; lia).
  assert (Hhi : (currentPageIndex (component navSelected) + 1
                 < Z.of_nat (List.length (pageImages addProps)))%Z)
    by (cbn; lia).
  assert (Hdown : 0 < deltaY (mkWheel false 120)) by reflexivity.
  assert (Hbottom : atBottom unitContainer).
  { left. cbn. discriminate. }
  destruct (next_page_three_ways addProps navSelected unitContainer
              (keyPress ArrowRight) (mkWheel false 120)
              eq_refl eq_refl Hcw Hch Hsw Hlo Hhi eq_refl eq_refl
              eq_refl eq_refl Hdown Hbottom)
    as (Harrived & _ & _ & _ & _ & Hwheel & _).
  split; [exact Harrived | exact Hwheel].
Defined.

(** X6.  Going back differs by the way it is asked for: the left-arrow
    key and the previous-page button show the previous page from its top,
    a wheel-up at the top of the page shows it from its bottom (anchor
    y = 1).  In all three cases the page index goes down by one, the
    selection is dropped and the former horizontal position is kept. *)
Theorem previous_page_anchor
  (props : Props) (n : NavState) (c : Container)
  (ke : KeyEvent) (we : WheelEvent)
  (Hlatch : hasInitializedZoom (component n) = true)
  (Hcont : containerRef (component n) = Some c)
  (Hcw : 0 < clientWidth c) (Hch : 0 < clientHeight c)
  (Hsw : 0 < scrollWidth c)
  (Hlo : (0 < currentPageIndex (component n))%Z)
  (Hhi : (currentPageIndex (component n)
          < Z.of_nat (List.length (pageImages props)))%Z)
  (Hkey : key ke = ArrowLeft) (Hfocus : inputFocused ke = false)
  (Hctrl : ctrlKey we = false) (Hthrottle : scrollThrottle n = false)
  (Hup : deltaY we < 0) (Htop : atTop c) :
  let s := component n in
  let x := getCurrentXRatio s in
  let byKey := navStep props (NavComponent (EvKeyDown ke)) n in
  let byButton := navStep props NavPreviousButton n in
  let byWheel := navStep props (NavWheel we) n in
  arrivedAt s (component (fst byKey)) (currentPageIndex s - 1)
    (mkPoint x 0) /\
  component (fst byButton) = component (fst byKey) /\
  arrivedAt s (component (fst byWheel)) (currentPageIndex s - 1)
    (mkPoint x 1) /\
  onSelectionChanges (snd byKey) = droppedSelection s /\
  onSelectionChanges (snd byButton) = droppedSelection s /\
  onSelectionChanges (snd byWheel) = droppedSelection s /\
  scrollThrottle (fst byWheel) = true.
Proof.
  intros s x byKey byButton byWheel. subst s.
  set (s := component n) in *.
  set (top := setCurrentPageIndex (currentPageIndex s - 1)
                (setPreservedScrollRatio (Some (mkPoint x 0)) s)).
  set (bottom := setCurrentPageIndex (currentPageIndex s - 1)
                   (setPreservedScrollRatio (Some (mkPoint x 1)) s)).
  destruct (page_change_arrives props s c (currentPageIndex s - 1)
              (mkPoint x 0) Hlatch Hcont Hcw Hch ltac:(lia) ltac:(lia))
    as [Htoparrived Htopcalls].
  destruct (page_change_arrives props s c (currentPageIndex s - 1)
              (mkPoint x 1) Hlatch Hcont Hcw Hch ltac:(lia) ltac:(lia))
    as [Hbottomarrived Hbottomcalls].
  fold top in Htoparrived, Htopcalls.
  fold bottom in Hbottomarrived, Hbottomcalls.
  assert (Hk : handleKeyDown props ke s = (top, [])).
  { unfold handleKeyDown. rewrite Hkey, Hfocus. cbn [fst snd].
    subst top. rewrite Z.max_r by lia. reflexivity. }
  assert (Hb : clickPrevious s = top).
  { unfold clickPrevious.
    destruct (Z.eqb_spec (currentPageIndex s) 0); [lia|].
    subst top. rewrite Z.max_r by lia. reflexivity. }
  assert (Hw : handleWheel props we n
               = (mkNav bottom true, [PreventDefault; SetTimeout 500])).
  { unfold handleWheel. fold s. rewrite Hcont, Hctrl, Hthrottle. cbv zeta.
    rewrite (proj2 (Qltb_false 0 (deltaY we))) by lra.
    rewrite (proj2 (Qltb_true (deltaY we) 0) Hup).
    rewrite (atTop_test c Htop).
    destruct (Z.ltb_spec 0 (currentPageIndex s)); [reflexivity | lia]. }
  assert (Hbykey : byKey = (mkNav (layoutEffect props s top) false,
                            selectionEffect s top
                            ++ selectionEffect top (layoutEffect props s top))).
  { subst byKey. cbn [navStep]. fold s. unfold step. cbn [handle].
    rewrite Hk, Hthrottle. reflexivity. }
  assert (Hbybutton : byButton = (mkNav (layoutEffect props s top) false,
                            selectionEffect s top
                            ++ selectionEffect top (layoutEffect props s top))).
  { subst byButton. cbn [navStep]. fold s. rewrite Hb, Hthrottle.
    reflexivity. }
  assert (Hbywheel : byWheel = (mkNav (layoutEffect props s bottom) true,
                      [PreventDefault; SetTimeout 500]
                      ++ selectionEffect s bottom
                      ++ selectionEffect bottom (layoutEffect props s bottom))).
  { subst byWheel. cbn [navStep]. fold s. rewrite Hw. reflexivity. }
  rewrite Hbykey, Hbybutton, Hbywheel. cbn [fst snd component scrollThrottle].
  split; [exact Htoparrived|]. split; [reflexivity|].
  split; [exact Hbottomarrived|].
  do 2 (split; [exact Htopcalls|]).
  split; [exact Hbottomcalls | reflexivity].
Qed.

Lemma previous_page_witness :
  let n := fst (navStep addProps NavNextButton navSelected) in
  viewportCenter
    (component (fst (navStep addProps (NavWheel (mkWheel false (-120))) n)))
  = Some (mkPoint (getCurrentXRatio (component n)) 1) /\
  viewportCenter (component (fst (navStep addProps NavPreviousButton n)))
  = Some (mkPoint (getCurrentXRatio (component n)) 0).
Proof.
  intros n.
  assert (Hcw : 0 < clientWidth unitContainer) by reflexivity.
  assert (Hch : 0 < clientHeight unitContainer) by reflexivity.
  assert (Hsw : 0 < scrollWidth unitContainer) by reflexivity.
  assert (Hlo : (0 < currentPageIndex (component n))%Z)
    by (vm_compute; reflexivity).
  assert (Hhi : (currentPageIndex (component n)
                 < Z.of_nat (List.length (pageImages addProps)))%Z)
    by (vm_compute; reflexivity).
  assert (Hup : deltaY (mkWheel false (-120)) < 0) by reflexivity.
  assert (Htop : atTop unitContainer).
  { left. cbn. discriminate. }
  assert (Hlatch : hasInitializedZoom (component n) = true)
    by (vm_compute; reflexivity).
  assert (Hcont : containerRef (component n) = Some unitContainer)
    by (vm_compute; reflexivity).
  assert (Hthrottle : scrollThrottle n = false) by (vm_compute; reflexivity).
  destruct (previous_page_anchor addProps n unitContainer
              (keyPress ArrowLeft) (mkWheel false (-120))
              Hlatch Hcont Hcw Hch Hsw Hlo Hhi eq_refl eq_refl
              eq_refl Hthrottle Hup Htop)
    as (Hkeyarr & Hbutton & Hwheelarr & _).
  split.
  - exact (proj1 (proj2 (proj2 Hwheelarr))).
  - rewrite Hbutton. exact (proj1 (proj2 (proj2 Hkeyarr))).
Defined.

(** ** When the wheel does nothing *)

Lemma wheel_ignored_handler (props : Props) (e : WheelEvent) (n : NavState) :
  handleWheel props e n = (n, []) ->
  navStep props (NavWheel e) n = (n, []).
Proof.
  intros Hw. cbn [navStep]. rewrite Hw. cbn [fst snd app].
  rewrite layoutEffect_same, selectionEffect_same, nav_eta. reflexivity.
Qed.

(** X7.  A wheel event changes nothing and calls nothing (the browser
    scrolls the page as usual) when the control key is held, while the
    throttle is set, when the page scrolls and the view is more than 10
    pixels away from the edge the wheel moves towards, and at the end of
    the document: wheel-down on the last page, wheel-up on the first. *)
Theorem wheel_ignored (props : Props) (e : WheelEvent) (n : NavState)
  (c : Container)
  (Hcont : containerRef (component n) = Some c) :
  ctrlKey e = true \/
  scrollThrottle n = true \/
  deltaY e == 0 \/
  (0 < deltaY e /\
   ((clientHeight c < scrollHeight c /\
     threshold <= Qabs (scrollHeight c - clientHeight c - scrollTop c)) \/
    (Z.of_nat (List.length (pageImages props)) - 1
     <= currentPageIndex (component n))%Z)) \/
  (deltaY e < 0 /\
   ((clientHeight c < scrollHeight c /\ threshold <= scrollTop c) \/
    (currentPageIndex (component n) <= 0)%Z)) ->
  navStep props (NavWheel e) n = (n, []).
Proof.
  intros Hcase. apply wheel_ignored_handler. unfold handleWheel.
  rewrite Hcont.
  destruct (ctrlKey e); [reflexivity|].
  destruct (scrollThrottle n); [reflexivity|].
  cbv zeta.
  destruct Hcase as [H | [H | [Hzero | [[Hdown Hcase] | [Hup Hcase]]]]];
    try discriminate H.
  - rewrite (proj2 (Qltb_false 0 (deltaY e))) by lra.
    rewrite (proj2 (Qltb_false (deltaY e) 0)) by lra. reflexivity.
  - rewrite (proj2 (Qltb_true 0 (deltaY e)) Hdown).
    destruct Hcase as [[Hscroll Hfar] | Hlast].
    + rewrite (proj2 (Qltb_true _ _) Hscroll).
      rewrite (proj2 (Qltb_false _ _) Hfar). reflexivity.
    + destruct (negb _ || _); [|reflexivity].
      destruct (Z.ltb_spec (currentPageIndex (component n))
                  (Z.of_nat (List.length (pageImages props)) - 1));
        [lia | reflexivity].
  - rewrite (proj2 (Qltb_false 0 (deltaY e))) by lra.
    rewrite (proj2 (Qltb_true (deltaY e) 0) Hup).
    destruct Hcase as [[Hscroll Hfar] | Hfirst].
    + rewrite (proj2 (Qltb_true _ _) Hscroll).
      rewrite (proj2 (Qltb_false _ _) Hfar). reflexivity.
    + destruct (negb _ || _); [|reflexivity].
      destruct (Z.ltb_spec 0 (currentPageIndex (component n)));
        [lia | reflexivity].
Qed.

Lemma wheel_ignored_witness :
  navStep addProps (NavWheel (mkWheel false 120)) navMidPage
  = (navMidPage, []) /\
  navStep addProps (NavWheel (mkWheel true 120)) navSelected
  = (navSelected, []).
Proof.
  split.
  - apply (wheel_ignored addProps (mkWheel false 120) navMidPage
             midPageContainer eq_refl).
    right. right. right. left. split; [reflexivity|].
    left. split; [reflexivity | vm_compute; discriminate].
  - apply (wheel_ignored addProps (mkWheel true 120) navSelected
             unitContainer eq_refl).
    left. reflexivity.
Defined.

(** ** The wheel throttle *)

Lemma wheel_step_cases (props : Props) (e : WheelEvent) (n : NavState) :
  navStep props (NavWheel e) n = (n, []) \/
  (scrollThrottle n = false /\
   scrollThrottle (fst (navStep props (NavWheel e) n)) = true /\
   (currentPageIndex (component (fst (navStep props (NavWheel e) n)))
    = currentPageIndex (component n) + 1 \/
    currentPageIndex (component (fst (navStep props (NavWheel e) n)))
    = currentPageIndex (component n) - 1)%Z).
Proof.
  assert (Hnoop : handleWheel props e n = (n, []) ->
                  navStep props (NavWheel e) n = (n, []))
    by apply wheel_ignored_handler.
  cbn [navStep fst component scrollThrottle] in *.
  rewrite layoutEffect_currentPageIndex.
  revert Hnoop. unfold handleWheel.
  destruct (containerRef (component n)); [|intros H; left; apply H; reflexivity].
  destruct (ctrlKey e); [intros H; left; apply H; reflexivity|].
  destruct (scrollThrottle n); [intros H; left; apply H; reflexivity|].
  cbv zeta.
  destruct (Qltb 0 (deltaY e)); [|destruct (Qltb (deltaY e) 0)];
    try (intros H; left; apply H; reflexivity);
    (destruct (negb _ || _); [|intros H; left; apply H; reflexivity]);
    (destruct (Z.ltb _ _); [|intros H; left; apply H; reflexivity]);
    intros _; right; cbn [fst component scrollThrottle currentPageIndex
                          setCurrentPageIndex]; auto.
Qed.

(** X8.  Between two expiries of the throttle timer the wheel turns at
    most one page: once a wheel event has changed the page, every further
    wheel event is ignored, so a burst of wheel events moves the page
    index by one at most; while the throttle is set a burst changes
    nothing at all. *)
Theorem wheel_burst_turns_one_page (props : Props) (burst : list WheelEvent) :
  forall n : NavState,
    let n' := fst (navRun props (map NavWheel burst) n) in
    (currentPageIndex (component n) - 1
     <= currentPageIndex (component n')
     <= currentPageIndex (component n) + 1)%Z /\
    (scrollThrottle n = true ->
     navRun props (map NavWheel burst) n = (n, [])).
Proof.
  assert (Hthrottled : forall (evs : list WheelEvent) (n : NavState),
    scrollThrottle n = true ->
    navRun props (map NavWheel evs) n = (n, [])).
  { induction evs as [|e rest IH]; intros n Ht; cbn [map navRun];
      [reflexivity|].
    assert (Hstep : navStep props (NavWheel e) n = (n, [])).
    { destruct (wheel_step_cases props e n) as [H | [H _]];
        [exact H | congruence]. }
    rewrite Hstep. cbn [fst snd app]. rewrite (IH n Ht). reflexivity. }
  induction burst as [|e rest IH]; intros n; cbn [map navRun fst].
  - split; [lia | reflexivity].
  - split; [|intros Ht; apply (Hthrottled (e :: rest) n Ht)].
    destruct (wheel_step_cases props e n) as [Hsame | (_ & Hset & Hmoved)].
    + rewrite Hsame. cbn [fst]. apply IH.
    + rewrite (Hthrottled rest _ Hset). cbn [fst]. lia.
Qed.


Lemma wheel_burst_witness :
  let burst := [mkWheel false 120; mkWheel false 120; mkWheel false (-120)] in
  let n' := fst (navRun addProps (map NavWheel burst) navSelected) in
  (currentPageIndex (component navSelected) - 1
   <= currentPageIndex (component n')
   <= currentPageIndex (component navSelected) + 1)%Z /\
  currentPageIndex (component n') = 1%Z.
Proof.
  intros burst n'. split.
  - exact (proj1 (wheel_burst_turns_one_page addProps burst navSelected)).
  - vm_compute. reflexivity.
Defined.

(** ** The ends of the document *)

Lemma setCurrentPageIndex_same (s : State) :
  setCurrentPageIndex (currentPageIndex s) s = s.
Proof. destruct s; reflexivity. Qed.

(** X9.  At the first page the left-arrow key and the previous-page
    button change neither the page nor the selection and call nothing,
    and likewise the right-arrow key and the next-page button at the last
    page.  The buttons are disabled and leave the state untouched; the
    keys still record the horizontal scroll ratio for the next change of
    page. *)
Theorem document_ends_stop_navigation
  (props : Props) (n : NavState) (ke : KeyEvent)
  (Hfocus : inputFocused ke = false) :
  let s := component n in
  let recorded :=
    setPreservedScrollRatio (Some (mkPoint (getCurrentXRatio s) 0)) s in
  (currentPageIndex s = 0%Z ->
   (key ke = ArrowLeft ->
    navStep props (NavComponent (EvKeyDown ke)) n
    = (mkNav recorded (scrollThrottle n), [])) /\
   navStep props NavPreviousButton n = (n, [])) /\
  (currentPageIndex s
   = (Z.of_nat (List.length (pageImages props)) - 1)%Z ->
   (key ke = ArrowRight ->
    navStep props (NavComponent (EvKeyDown ke)) n
    = (mkNav recorded (scrollThrottle n), [])) /\
   navStep props NavNextButton n = (n, [])) /\
  selection recorded = selection s /\
  currentPageIndex recorded = currentPageIndex s.
Proof.
  intros s recorded.
  assert (Hrendered : forall s1 : State,
    currentPageIndex s1 = currentPageIndex s ->
    selectionGen s1 = selectionGen s ->
    (mkNav (layoutEffect props s s1) (scrollThrottle n),
     ([] ++ selectionEffect s s1
         ++ selectionEffect s1 (layoutEffect props s s1))%list)
    = (mkNav s1 (scrollThrottle n), [])).
  { intros s1 Hidx Hgen. unfold layoutEffect. rewrite Hidx, Z.eqb_refl.
    rewrite selectionEffect_same. unfold selectionEffect.
    rewrite Hgen, Nat.eqb_refl. reflexivity. }
  assert (Hkeystep : forall s1 : State,
    handleKeyDown props ke s = (s1, []) ->
    currentPageIndex s1 = currentPageIndex s ->
    selectionGen s1 = selectionGen s ->
    navStep props (NavComponent (EvKeyDown ke)) n
    = (mkNav s1 (scrollThrottle n), [])).
  { intros s1 Hk Hidx Hgen. cbn [navStep]. fold s. unfold step.
    cbn [handle]. rewrite Hk. cbn [fst snd].
    exact (Hrendered s1 Hidx Hgen). }
  split; [|split; [|split; reflexivity]].
  - intros Hfirst. split.
    + intros Hkey. apply Hkeystep; [|reflexivity|reflexivity].
      unfold handleKeyDown. rewrite Hkey, Hfocus. cbn [fst snd].
      rewrite Hfirst. cbn [Z.sub Z.max Z.add Z.opp Z.compare].
      f_equal. subst recorded.
      rewrite <- Hfirst at 1.
      apply (setCurrentPageIndex_same
               (setPreservedScrollRatio
                  (Some (mkPoint (getCurrentXRatio s) 0)) s)).
    + assert (Hdisabled : clickPrevious s = s)
        by (unfold clickPrevious; rewrite Hfirst; reflexivity).
      cbn [navStep]. fold s. rewrite Hdisabled.
      transitivity (mkNav s (scrollThrottle n), @nil Call);
        [exact (Hrendered s eq_refl eq_refl)|].
      subst s. rewrite nav_eta. reflexivity.
  - intros Hlast. split.
    + intros Hkey. apply Hkeystep; [|reflexivity|reflexivity].
      unfold handleKeyDown. rewrite Hkey, Hfocus. cbn [fst snd].
      rewrite Z.min_l by lia.
      f_equal. subst recorded. rewrite <- Hlast.
      apply (setCurrentPageIndex_same
               (setPreservedScrollRatio
                  (Some (mkPoint (getCurrentXRatio s) 0)) s)).
    + assert (Hdisabled : clickNext props s = s)
        by (unfold clickNext; rewrite Hlast, Z.eqb_refl; reflexivity).
      cbn [navStep]. fold s. rewrite Hdisabled.
      transitivity (mkNav s (scrollThrottle n), @nil Call);
        [exact (Hrendered s eq_refl eq_refl)|].
      subst s. rewrite nav_eta. reflexivity.
Qed.

Lemma document_ends_witness :
  navStep addProps NavPreviousButton navSelected = (navSelected, []) /\
  selection
    (component
       (fst (navStep addProps (NavComponent (EvKeyDown (keyPress ArrowLeft)))
               navSelected)))
  = selection selectedState.
Proof.
  destruct (document_ends_stop_navigation addProps navSelected
              (keyPress ArrowLeft) eq_refl) as (Hfirst & _ & Hsel & _).
  destruct (Hfirst eq_refl) as [Hkey Hbutton].
  split; [exact Hbutton|].
  rewrite (Hkey eq_refl). exact Hsel.
Defined.


(** ** Scroll restoration *)



(** ** The end of a gesture *)

Lemma released_not_captured (id : nat) (l : list nat) :
  existsb (Nat.eqb id) (filter (fun j => negb (Nat.eqb id j)) l) = false.
Proof.
  induction l as [|j rest IH]; [reflexivity|]. cbn [filter].
  destruct (Nat.eqb id j) eqn:E; cbn [negb]; [exact IH|].
  cbn [existsb]. rewrite E, IH. reflexivity.
Qed.

Lemma releasePointerCapture_released (id : nat) (s : State) :
  existsb (Nat.eqb id) (pointerCapture (releasePointerCapture id s)) = false.
Proof.
  unfold releasePointerCapture.
  destruct (existsb (Nat.eqb id) (pointerCapture s)) eqn:E; [|exact E].
  cbn [pointerCapture setPointerCaptureList]. apply released_not_captured.
Qed.

Lemma pointerCapture_setSelection (v : option NormalizedRect) (s : State) :
  pointerCapture (setSelection v s) = pointerCapture s /\
  tool (setSelection v s) = tool s /\
  lastPanPosition (setSelection v s) = lastPanPosition s.
Proof. unfold setSelection. destruct v, (selection s); repeat split. Qed.

(** A state in which no gesture is under way is left alone by a
    pointer-up of a pointer that is not captured. *)
Lemma handlePointerUp_idle (e : PointerEvent) (s : State) :
  interactionMode s = none -> dragStartPoint s = None ->
  initialSelectionRef s = None ->
  existsb (Nat.eqb (pointerId e)) (pointerCapture s) = false ->
  (tool s = pan -> lastPanPosition s = None) ->
  handlePointerUp e s = s.
Proof.
  destruct s as [i sel g f r m t d ini lp vc pr hz tl z ic cr pc].
  cbn [interactionMode dragStartPoint initialSelectionRef pointerCapture
       tool lastPanPosition].
  intros -> -> -> Hcap Hpan. unfold handlePointerUp, releasePointerCapture.
  cbn [tool interactionMode selection].
  destruct tl; cbn [pointerCapture setLastPanPosition];
    rewrite Hcap; [reflexivity|].
  rewrite (Hpan eq_refl). reflexivity.
Qed.

(** X11.  A pointer-up or pointer-cancel always ends the gesture: the
    mode is [none], the drag point and the drag snapshot are cleared, the
    pointer is no longer captured and, under the pan tool, the pan
    position is cleared.  Pointer moves that follow do nothing, and a
    second pointer-up of the same pointer changes nothing. *)
Theorem pointer_up_ends_gesture (e e' : PointerEvent) (s : State) :
  let s' := handlePointerUp e s in
  interactionMode s' = none /\
  dragStartPoint s' = None /\
  initialSelectionRef s' = None /\
  existsb (Nat.eqb (pointerId e)) (pointerCapture s') = false /\
  (tool s = pan -> lastPanPosition s' = None) /\
  handlePointerMove e' s' = (s', []) /\
  handlePointerUp e s' = s'.
Proof.
  intros s'.
  assert (Hmode : interactionMode s' = none) by reflexivity.
  assert (Hstart : dragStartPoint s' = None) by reflexivity.
  assert (Hinit : initialSelectionRef s' = None) by reflexivity.
  assert (Hframe : pointerCapture s'
                   = pointerCapture (releasePointerCapture (pointerId e) s)
                   /\ tool s' = tool s /\
                   (tool s = pan -> lastPanPosition s' = None)).
  { subst s'. unfold handlePointerUp.
    cbn [pointerCapture tool lastPanPosition setInitialSelectionRef
         setDragStartPoint setInteractionMode].
    set (s1 := match tool s with
               | select => s
               | pan => setLastPanPosition None s
               end).
    assert (H1 : pointerCapture s1 = pointerCapture s /\ tool s1 = tool s /\
                 (tool s = pan -> lastPanPosition s1 = None)).
    { subst s1. destruct (tool s) eqn:Ht; repeat split;
        try assumption; try reflexivity; intros Hp; discriminate Hp. }
    destruct H1 as (C1 & T1 & P1).
    set (s2 := releasePointerCapture (pointerId e) s1).
    assert (H2 : pointerCapture s2
                 = pointerCapture (releasePointerCapture (pointerId e) s)
                 /\ tool s2 = tool s /\
                 (tool s = pan -> lastPanPosition s2 = None)).
    { subst s2. unfold releasePointerCapture. rewrite C1.
      destruct (existsb _ _);
        cbn [pointerCapture tool lastPanPosition setPointerCaptureList];
        rewrite ?C1, ?T1; repeat split; assumption. }
    destruct H2 as (C2 & T2 & P2).
    destruct (interactionMode s), (selection s) as [sel|];
      try (destruct (tooSmall sel));
      rewrite ?(proj1 (pointerCapture_setSelection _ _)),
              ?(proj1 (proj2 (pointerCapture_setSelection _ _))),
              ?(proj2 (proj2 (pointerCapture_setSelection _ _)));
      (split; [exact C2 | split; [exact T2 | exact P2]]). }
  destruct Hframe as (Hcap & Htool & Hpan).
  assert (Hreleased :
    existsb (Nat.eqb (pointerId e)) (pointerCapture s') = false)
    by (rewrite Hcap; apply releasePointerCapture_released).
  do 4 (split; [assumption|]).
  split; [exact Hpan|]. split.
  - unfold handlePointerMove. rewrite Hmode.
    destruct (tool s'); reflexivity.
  - apply handlePointerUp_idle; try assumption.
    intros Hp. apply Hpan. congruence.
Qed.

(** ** Panning *)

Lemma clampScroll_within (extent client v : Q) :
  0 <= v <= extent - client -> clampScroll extent client v == v.
Proof. intros Hv. unfold clampScroll. minmax_lra. Qed.

Lemma clampScroll_range (extent client v : Q) :
  client <= extent ->
  0 <= clampScroll extent client v <= extent - client.
Proof. intros Hsize. unfold clampScroll. minmax_lra. Qed.

(** X12.  A drag with the pan tool scrolls by the displacement of the
    pointer for as long as the view does not reach an end of the scroll
    range: when every position of the drag is one that the container can
    follow, the offsets after any number of pointer moves are those at
    pointer-down minus the vector from the pointer-down position to the
    last position, whatever the path in between.  In every case the
    offsets are the clamped ones (a drag that starts inside the scroll
    range never leaves it), the sizes of the container and the selection
    are untouched, and the last pan position is the last pointer
    position. *)
Theorem pan_drag_follows_pointer (moves : list PointerEvent) :
  forall (s : State) (start : Point) (c : Container),
    tool s = pan -> interactionMode s = moving ->
    lastPanPosition s = Some start -> containerRef s = Some c ->
    let s' := dragThrough moves s in
    let final := lastPosition start moves in
    exists c' : Container,
      containerRef s' = Some c' /\
      clientWidth c' = clientWidth c /\ clientHeight c' = clientHeight c /\
      scrollWidth c' = scrollWidth c /\ scrollHeight c' = scrollHeight c /\
      lastPanPosition s' = Some final /\
      selection s' = selection s /\
      tool s' = pan /\ interactionMode s' = moving /\
      (scrolledInRange c -> scrolledInRange c') /\
      (Forall (fun e => panInRange c start (mkPoint (clientX e) (clientY e)))
              moves ->
       scrollLeft c' == scrollLeft c - (px final - px start) /\
       scrollTop c' == scrollTop c - (py final - py start)).
Proof.
  induction moves as [|e rest IH]; intros s start c Htool Hmode Hlast Hcont.
  - exists c. cbn [dragThrough fold_left lastPosition].
    do 9 (split; [first [assumption | reflexivity]|]).
    split; [intros Hrange; exact Hrange|].
    intros _. split; lra.
  - cbn [dragThrough fold_left lastPosition].
    assert (Hmove : fst (handlePointerMove e s)
      = setLastPanPosition (Some (mkPoint (clientX e) (clientY e)))
          (setContainerRef
             (Some (scrollBy (clientX e - px start) (clientY e - py start) c))
             s)).
    { unfold handlePointerMove. rewrite Htool, Hmode, Hlast, Hcont.
      reflexivity. }
    rewrite Hmove.
    set (c1 := scrollBy (clientX e - px start) (clientY e - py start) c).
    set (p1 := mkPoint (clientX e) (clientY e)).
    destruct (IH (setLastPanPosition (Some p1)
                    (setContainerRef (Some c1) s))
                p1 c1 Htool Hmode eq_refl eq_refl)
      as (c' & Hc' & Hcw & Hch & Hsw & Hsh & Hl & Hsel & Ht & Hm
          & Hkept & Hfollow).
    exists c'. unfold dragThrough in *.
    split; [exact Hc'|].
    cbn [c1 scrollBy clientWidth clientHeight scrollWidth scrollHeight]
      in Hcw, Hch, Hsw, Hsh.
    do 8 (split; [assumption|]).
    split.
    + intros (Hx & Hy). apply Hkept. unfold scrolledInRange.
      cbn [c1 scrollBy scrollLeft scrollTop clientWidth clientHeight
           scrollWidth scrollHeight].
      split; apply clampScroll_range; lra.
    + intros Hpath. inversion Hpath as [|e0 rest0 Hfirst Hrest]. subst.
      destruct Hfirst as (Hfx & Hfy). cbn [px py] in Hfx, Hfy.
      assert (Hx1 : scrollLeft c1 == scrollLeft c - (clientX e - px start)).
      { cbn [c1 scrollBy scrollLeft]. apply clampScroll_within. exact Hfx. }
      assert (Hy1 : scrollTop c1 == scrollTop c - (clientY e - py start)).
      { cbn [c1 scrollBy scrollTop]. apply clampScroll_within. exact Hfy. }
      assert (Hsizes : clientWidth c1 = clientWidth c
                       /\ clientHeight c1 = clientHeight c
                       /\ scrollWidth c1 = scrollWidth c
                       /\ scrollHeight c1 = scrollHeight c)
        by (repeat split).
      destruct Hsizes as (Ecw & Ech & Esw & Esh).
      destruct Hfollow as (Hx & Hy).
      { eapply Forall_impl; [|exact Hrest].
        intros e' (Hex & Hey). cbn [px py] in Hex, Hey.
        unfold panInRange. cbn [px py p1].
        rewrite Ecw, Ech, Esw, Esh, Hx1, Hy1. split; lra. }
      rewrite Hx, Hy, Hx1, Hy1. cbn [px py p1]. split; ring.
Qed.

Lemma pan_drag_witness :
  exists c' : Container,
    containerRef
      (dragThrough [pointerAt 380 300; pointerAt 500 250; pointerAt 350 280]
         panningZoomedState) = Some c' /\
    scrolledInRange c' /\
    scrollLeft c' == 350 /\ scrollTop c' == 420.
Proof.
  assert (Hstart : scrolledInRange zoomedContainer).
  { unfold scrolledInRange. cbn. split; split; discriminate. }
  assert (Hpath : Forall (fun e => panInRange zoomedContainer
                                     (mkPoint 400 300)
                                     (mkPoint (clientX e) (clientY e)))
                    [pointerAt 380 300; pointerAt 500 250;
                     pointerAt 350 280]).
  { repeat constructor; cbn; discriminate. }
  destruct (pan_drag_follows_pointer
              [pointerAt 380 300; pointerAt 500 250; pointerAt 350 280]
              panningZoomedState (mkPoint 400 300) zoomedContainer
              eq_refl eq_refl eq_refl eq_refl)
    as (c' & Hc' & _ & _ & _ & _ & _ & _ & _ & _ & Hkept & Hfollow).
  destruct (Hfollow Hpath) as (Hx & Hy).
  exists c'. split; [exact Hc'|]. split; [exact (Hkept Hstart)|].
  split; [rewrite Hx; reflexivity | rewrite Hy; reflexivity].
Defined.


(** ** The overlay *)

(** X13.  For a selection inside the page the rectangle that the overlay
    clears lies inside the canvas and has a non-negative size, and, with
    the canvas sized to the page, it is displayed exactly where the
    selection box with its handles is laid out: the hole scaled to the
    displayed canvas has the left, top, width and height that the
    percentages of the box resolve to. *)
Theorem overlay_hole_matches_box
  (page : PageImage) (r : NormalizedRect) (c : Canvas)
  (Hin : inPage r)
  (Hpw : 0 < width page) (Hph : 0 < height page)
  (Hcw : canvasWidth c = width page) (Hch : canvasHeight c = height page)
  (Hrw : 0 < rectWidth c) (Hrh : 0 < rectHeight c) :
  let hole := overlayHole page r in
  let box := selectionBoxStyle r in
  (0 <= holeX hole /\ 0 <= holeW hole /\
   holeX hole + holeW hole <= width page) /\
  (0 <= holeY hole /\ 0 <= holeH hole /\
   holeY hole + holeH hole <= height page) /\
  holeX hole * (rectWidth c / canvasWidth c)
  == percentOf (leftPercent box) (rectWidth c) /\
  holeY hole * (rectHeight c / canvasHeight c)
  == percentOf (topPercent box) (rectHeight c) /\
  holeW hole * (rectWidth c / canvasWidth c)
  == percentOf (widthPercent box) (rectWidth c) /\
  holeH hole * (rectHeight c / canvasHeight c)
  == percentOf (heightPercent box) (rectHeight c).
Proof.
  destruct Hin as (Hx0 & Hx1 & Hx2 & Hy0 & Hy1 & Hy2).
  cbv zeta. unfold overlayHole, selectionBoxStyle, percentOf.
  cbn [holeX holeY holeW holeH leftPercent topPercent widthPercent
       heightPercent].
  rewrite Hcw, Hch.
  assert (Hscale : forall a len : Q,
    0 < len -> 0 <= a -> a <= 1000 ->
    0 <= a / 1000 * len /\ a / 1000 * len <= len).
  { intros a len Hlen Ha0 Ha1. unfold Qdiv.
    change (/ 1000) with (1 # 1000). split.
    - apply Qmult_le_0_compat; lra.
    - apply Qle_trans with (1 * len); [|lra].
      apply Qmult_le_compat_r; lra. }
  split; [|split].
  - destruct (Hscale (xmin r) (width page) Hpw ltac:(lra) ltac:(lra)).
    destruct (Hscale (xmax r - xmin r) (width page) Hpw ltac:(lra)
                ltac:(lra)).
    destruct (Hscale (xmax r) (width page) Hpw ltac:(lra) ltac:(lra)).
    split; [assumption|]. split; [assumption|].
    setoid_replace (xmin r / 1000 * width page
                    + (xmax r - xmin r) / 1000 * width page)
      with (xmax r / 1000 * width page) by field.
    assumption.
  - destruct (Hscale (ymin r) (height page) Hph ltac:(lra) ltac:(lra)).
    destruct (Hscale (ymax r - ymin r) (height page) Hph ltac:(lra)
                ltac:(lra)).
    destruct (Hscale (ymax r) (height page) Hph ltac:(lra) ltac:(lra)).
    split; [assumption|]. split; [assumption|].
    setoid_replace (ymin r / 1000 * height page
                    + (ymax r - ymin r) / 1000 * height page)
      with (ymax r / 1000 * height page) by field.
    assumption.
  - repeat split; field; lra.
Qed.

Lemma overlay_hole_witness :
  holeX (overlayHole (mkPage 1 "data:image/png;base64,AAAA" 2000 2800)
           (mkRect 100 100 300 300)) == 200 /\
  holeW (overlayHole (mkPage 1 "data:image/png;base64,AAAA" 2000 2800)
           (mkRect 100 100 300 300)) * (rectWidth sampleCanvas / 2000)
  == percentOf 20 (rectWidth sampleCanvas).
Proof.
  assert (Hin : inPage (mkRect 100 100 300 300)).
  { unfold inPage. cbn. repeat split; discriminate. }
  assert (Hpw : 0 < width (mkPage 1 "data:image/png;base64,AAAA" 2000 2800))
    by reflexivity.
  assert (Hph : 0 < height (mkPage 1 "data:image/png;base64,AAAA" 2000 2800))
    by reflexivity.
  assert (Hrw : 0 < rectWidth sampleCanvas) by reflexivity.
  assert (Hrh : 0 < rectHeight sampleCanvas) by reflexivity.
  destruct (overlay_hole_matches_box
              (mkPage 1 "data:image/png;base64,AAAA" 2000 2800)
              (mkRect 100 100 300 300) sampleCanvas
              Hin Hpw Hph eq_refl eq_refl Hrw Hrh)
    as (_ & _ & _ & _ & Hw & _).
  split; [reflexivity|].
  apply (Qeq_trans _ _ _ Hw). reflexivity.
Defined.

(** ** What the first layout shows *)

Lemma scale_times_size (len size : Q) :
  0 < size -> size * (len / size) == len.
Proof. intros Hsize. field. lra. Qed.

(** X14.  After the first layout of a session that is not editing, the
    page at the fit scale fits inside the container and touches it on one
    axis; at the default zoom the page is never wider than the container,
    and it is exactly as wide as the container whenever that takes a zoom
    of at most 3. *)
Theorem default_layout_fits_page
  (props : Props) (s : State) (c : Container) (page : PageImage)
  (Hedit : isEditing props = false)
  (Hlatch : hasInitializedZoom s = false)
  (Hcont : containerRef s = Some c)
  (Hpage : currentPage props s = Some page)
  (Hcw : 0 < clientWidth c) (Hch : 0 < clientHeight c)
  (Hpw : 0 < width page) (Hph : 0 < height page) :
  let s1 := calculateLayout props false s in
  width page * fitScale s1 <= clientWidth c /\
  height page * fitScale s1 <= clientHeight c /\
  (width page * fitScale s1 == clientWidth c \/
   height page * fitScale s1 == clientHeight c) /\
  displayedWidth page s1 <= clientWidth c /\
  (clientWidth c / width page <= 3 * (clientHeight c / height page) ->
   displayedWidth page s1 == clientWidth c).
Proof.
  intros s1.
  destruct (calculateLayout_first_default props s c page
              Hedit Hlatch Hcont Hpage Hcw Hch)
    as (Hfit & Hzoom & _).
  fold s1 in Hfit, Hzoom. unfold displayedWidth. rewrite Hfit, Hzoom.
  unfold padding, defaultZoom.
  assert (Hx : width page * ((clientWidth c - 0) / width page)
               == clientWidth c) by (field; lra).
  assert (Hy : height page * ((clientHeight c - 0) / height page)
               == clientHeight c) by (field; lra).
  assert (Hsx : 0 < (clientWidth c - 0) / width page)
    by (apply Qlt_shift_div_l; lra).
  assert (Hsy : 0 < (clientHeight c - 0) / height page)
    by (apply Qlt_shift_div_l; lra).
  assert (Hsx3 : (clientWidth c - 0) / width page
                 == clientWidth c / width page) by (field; lra).
  assert (Hsy3 : (clientHeight c - 0) / height page
                 == clientHeight c / height page) by (field; lra).
  rewrite <- Hsx3, <- Hsy3.
  set (sx := (clientWidth c - 0) / width page) in *.
  set (sy := (clientHeight c - 0) / height page) in *.
  clearbody sx sy.
  assert (Hratio : sy * (sx / sy) == sx) by (field; lra).
  destruct (Q.min_spec sx sy) as [[Hlt Hmin] | [Hle Hmin]]; rewrite Hmin.
  - (* the width decides: zoom 1 *)
    rewrite (proj2 (Qltb_false sy sx)) by lra.
    split; [lra|]. split; [nra|]. split; [left; exact Hx|].
    split; [nra | intros _; nra].
  - destruct (Qlt_le_dec sy sx) as [Hportrait | Hsame].
    + rewrite (proj2 (Qltb_true sy sx) Hportrait). cbv zeta.
      split; [nra|]. split; [lra|]. split; [right; exact Hy|].
      assert (Hone : 1 <= sx / sy) by (apply Qle_shift_div_l; lra).
      destruct (Q.min_spec (sx / sy * 1) 3) as [[Hz Hzmin] | [Hz Hzmin]];
        destruct (Q.max_spec (Qmin (sx / sy * 1) 3) 1)
          as [[Hm Hmmax] | [Hm Hmmax]];
        rewrite Hmmax, ?Hzmin; try lra.
      * split.
        -- setoid_replace (width page * sy * (sx / sy * 1))
             with (width page * sx) by (field; lra). lra.
        -- intros _.
           setoid_replace (width page * sy * (sx / sy * 1))
             with (width page * sx) by (field; lra). exact Hx.
      * assert (Hthree : 3 * sy <= sx).
        { apply Qmult_le_r with (z := / sy).
          - apply Qinv_lt_0_compat. exact Hsy.
          - setoid_replace (3 * sy * / sy) with 3 by (field; lra).
            setoid_replace (sx * / sy) with (sx / sy * 1) by (field; lra).
            exact Hz. }
        split; [nra | intros Hcap; nra].
    + rewrite (proj2 (Qltb_false sy sx) Hsame).
      split; [nra|]. split; [lra|]. split; [right; exact Hy|].
      split; [nra | intros _; nra].
Qed.

Lemma default_layout_witness :
  displayedWidth (mkPage 1 "data:image/png;base64,AAAA" 2000 2800)
    portraitState == 800 /\
  height (mkPage 1 "data:image/png;base64,AAAA" 2000 2800)
  * fitScale portraitState == 600.
Proof.
  assert (Hcw : 0 < clientWidth sampleContainer) by reflexivity.
  assert (Hch : 0 < clientHeight sampleContainer) by reflexivity.
  assert (Hpw : 0 < width (mkPage 1 "data:image/png;base64,AAAA" 2000 2800))
    by reflexivity.
  assert (Hph : 0 < height (mkPage 1 "data:image/png;base64,AAAA" 2000 2800))
    by reflexivity.
  destruct (default_layout_fits_page portraitProps
              (initialState portraitProps select 1 (Some sampleCanvas)
                 (Some sampleContainer))
              sampleContainer
              (mkPage 1 "data:image/png;base64,AAAA" 2000 2800)
              eq_refl eq_refl eq_refl eq_refl Hcw Hch Hpw Hph)
    as (_ & _ & _ & _ & Hfill).
  split; [|reflexivity].
  apply (Qeq_trans _ _ _ (Hfill ltac:(vm_compute; discriminate))).
  reflexivity.
Defined.

(** ** The layout of an edit session *)

Lemma rectCenter_in_unit (r : NormalizedRect) :
  inPage r ->
  0 <= px (rectCenter r) <= 1 /\ 0 <= py (rectCenter r) <= 1.
Proof.
  intros (Hx0 & Hx1 & Hx2 & Hy0 & Hy1 & Hy2). unfold rectCenter, Qdiv.
  cbn [px py]. change (/ 2) with (1 # 2). change (/ 1000) with (1 # 1000).
  repeat split; lra.
Qed.

(** X15.  The first layout of an edit session fits the page to the width
    of the container at zoom 1, so that the page is shown exactly as wide
    as the container; on the page of the edited question it seeds the
    selection with the stored rectangle and anchors the view on the centre
    of that rectangle, a point of the unit square when the rectangle is
    inside the page; on another page it seeds nothing.  The host hears
    [onSelectionChange(false)], then [true] when the selection was
    seeded. *)
Theorem edit_layout_seeds_selection
  (props : Props) (s : State) (c : Container) (page : PageImage)
  (r : NormalizedRect)
  (Hedit : isEditing props = true)
  (Hrect : initialRect props = Some r)
  (Hlatch : hasInitializedZoom s = false)
  (Hcont : containerRef s = Some c)
  (Hpage : currentPage props s = Some page)
  (Hcw : 0 < clientWidth c) (Hch : 0 < clientHeight c)
  (Hpw : 0 < width page) :
  let s1 := calculateLayout props false s in
  fitScale s1 == clientWidth c / width page /\
  zoom s1 = 1 /\
  displayedWidth page s1 == clientWidth c /\
  hasInitializedZoom s1 = true /\
  isLayoutReady s1 = true /\
  tool s1 = tool s /\
  (currentPageIndex s = initialPageIndex props ->
   selection s1 = Some r /\
   viewportCenter s1 = Some (rectCenter r) /\
   selectionEffect s s1 = [OnSelectionChange true] /\
   (inPage r ->
    0 <= px (rectCenter r) <= 1 /\ 0 <= py (rectCenter r) <= 1)) /\
  (currentPageIndex s <> initialPageIndex props ->
   selection s1 = selection s /\ viewportCenter s1 = viewportCenter s /\
   selectionEffect s s1 = []).
Proof.
  intros s1.
  assert (Hs1 : s1 =
    setIsLayoutReady true
      (setHasInitializedZoom true
         (if (currentPageIndex s =? initialPageIndex props)%Z
          then setViewportCenter (Some (rectCenter r))
                 (setSelection (Some r)
                    (setZoom 1
                       (setFitScale
                          ((clientWidth c - padding) / width page) s)))
          else setZoom 1
                 (setFitScale
                    ((clientWidth c - padding) / width page) s)))).
  { subst s1. unfold calculateLayout.
    rewrite Hcont, Hpage, Hedit, Hrect, Hlatch.
    rewrite (Qle_bool_false (clientWidth c - padding) 0)
      by (unfold padding; lra).
    rewrite (Qle_bool_false (clientHeight c - padding) 0)
      by (unfold padding; lra).
    reflexivity. }
  assert (Hfit : fitScale s1 = (clientWidth c - padding) / width page).
  { rewrite Hs1. destruct (Z.eqb _ _); reflexivity. }
  assert (Hzoom : zoom s1 = 1).
  { rewrite Hs1. destruct (Z.eqb _ _); reflexivity. }
  split; [rewrite Hfit; unfold padding; field; lra|].
  split; [exact Hzoom|].
  split.
  { unfold displayedWidth. rewrite Hfit, Hzoom. unfold padding.
    field. lra. }
  split; [rewrite Hs1; reflexivity|].
  split; [rewrite Hs1; reflexivity|].
  split; [rewrite Hs1; destruct (Z.eqb _ _); reflexivity|].
  split.
  - intros Hsame. apply Z.eqb_eq in Hsame. rewrite Hsame in Hs1.
    split; [rewrite Hs1; reflexivity|].
    split; [rewrite Hs1; reflexivity|].
    split; [|apply rectCenter_in_unit].
    unfold selectionEffect. rewrite Hs1.
    cbn [selectionGen selection setIsLayoutReady setHasInitializedZoom
         setViewportCenter setSelection setZoom setFitScale].
    destruct (Nat.eqb_neq (selectionGen s) (S (selectionGen s))) as [_ Hne].
    rewrite Hne by lia. reflexivity.
  - intros Hother. apply Z.eqb_neq in Hother. rewrite Hother in Hs1.
    split; [rewrite Hs1; reflexivity|].
    split; [rewrite Hs1; reflexivity|].
    unfold selectionEffect. rewrite Hs1.
    cbn [selectionGen setIsLayoutReady setHasInitializedZoom setZoom
         setFitScale].
    rewrite Nat.eqb_refl. reflexivity.
Qed.

Lemma edit_layout_witness :
  selection (calculateLayout editProps false editUnlaidState)
  = Some (mkRect 100 100 300 300) /\
  viewportCenter (calculateLayout editProps false editUnlaidState)
  = Some (rectCenter (mkRect 100 100 300 300)) /\
  displayedWidth (mkPage 2 "data:image/png;base64,DDDD" 1000 1000)
    (calculateLayout editProps false editUnlaidState) == 1000.
Proof.
  assert (Hcw : 0 < clientWidth unitContainer) by reflexivity.
  assert (Hch : 0 < clientHeight unitContainer) by reflexivity.
  assert (Hpw : 0 < width (mkPage 2 "data:image/png;base64,DDDD" 1000 1000))
    by reflexivity.
  destruct (edit_layout_seeds_selection editProps editUnlaidState
              unitContainer
              (mkPage 2 "data:image/png;base64,DDDD" 1000 1000)
              (mkRect 100 100 300 300)
              eq_refl eq_refl eq_refl eq_refl eq_refl Hcw Hch Hpw)
    as (_ & _ & Hwidth & _ & _ & _ & Hseed & _).
  destruct (Hseed eq_refl) as (Hsel & Hcenter & _).
  split; [exact Hsel|]. split; [exact Hcenter|].
  apply (Qeq_trans _ _ _ Hwidth). reflexivity.
Defined.

(** After the latch is set no layout pass seeds the selection: it leaves
    the selection as it is or clears it. *)
Lemma calculateLayout_latched_selection (props : Props) (preserve : bool)
  (s : State) :
  hasInitializedZoom s = true ->
  selection (calculateLayout props preserve s) = selection s \/
  selection (calculateLayout props preserve s) = None.
Proof.
  intros Hlatch. unfold calculateLayout. rewrite Hlatch.
  destruct (containerRef s); [|left; reflexivity].
  destruct (currentPage props s); [|left; reflexivity].
  destruct (Qle_bool _ _ || Qle_bool _ _); [left; reflexivity|].
  cbv zeta. cbn [negb].
  destruct (isEditing props), (initialRect props), preserve,
           (preservedScrollRatio s);
    cbn [selection setIsLayoutReady setFitScale setViewportCenter
         setPreservedScrollRatio];
    first [left; reflexivity | right; apply selection_setSelection].
Qed.

(** X16.  In an edit session the stored rectangle is seeded by the first
    layout pass only if that pass resets the view.  When the first pass
    that finds a sized container is the one of the resize observer, which
    preserves the view, it sets the latch without seeding; and since
    nothing is seeded once the latch is set, no later layout pass shows
    the stored rectangle. *)
Theorem edit_rectangle_lost_after_resize_first
  (props : Props) (s : State) (c : Container) (page : PageImage)
  (r : NormalizedRect)
  (Hedit : isEditing props = true)
  (Hrect : initialRect props = Some r)
  (Hlatch : hasInitializedZoom s = false)
  (Hnone : selection s = None)
  (Hcont : containerRef s = Some c)
  (Hpage : currentPage props s = Some page)
  (Hcw : 0 < clientWidth c) (Hch : 0 < clientHeight c) :
  let s1 := calculateLayout props true s in
  hasInitializedZoom s1 = true /\
  selection s1 = None /\
  zoom s1 = zoom s /\
  viewportCenter s1 = viewportCenter s /\
  forall passes : list bool,
    selection (fold_left (fun acc preserve =>
                            calculateLayout props preserve acc) passes s1)
    = None.
Proof.
  intros s1.
  assert (Hs1 : s1 =
    setIsLayoutReady true
      (setHasInitializedZoom true
         (setFitScale ((clientWidth c - padding) / width page) s))).
  { subst s1. unfold calculateLayout.
    rewrite Hcont, Hpage, Hedit, Hrect, Hlatch.
    rewrite (Qle_bool_false (clientWidth c - padding) 0)
      by (unfold padding; lra).
    rewrite (Qle_bool_false (clientHeight c - padding) 0)
      by (unfold padding; lra).
    reflexivity. }
  assert (Hl1 : hasInitializedZoom s1 = true) by (rewrite Hs1; reflexivity).
  assert (Hsel1 : selection s1 = None) by (rewrite Hs1; exact Hnone).
  split; [exact Hl1|]. split; [exact Hsel1|].
  split; [rewrite Hs1; reflexivity|].
  split; [rewrite Hs1; reflexivity|].
  intros passes. revert Hl1 Hsel1. generalize s1. clear.
  induction passes as [|preserve rest IH]; intros t Hl Hsel;
    cbn [fold_left]; [exact Hsel|].
  apply IH.
  - apply calculateLayout_latched, Hl.
  - destruct (calculateLayout_latched_selection props preserve t Hl)
      as [Hkept | Hcleared]; congruence.
Qed.

Lemma edit_rectangle_lost_witness :
  selection
    (fold_left (fun acc preserve => calculateLayout editProps preserve acc)
       [false; true; false]
       (calculateLayout editProps true editUnlaidState)) = None.
Proof.
  assert (Hcw : 0 < clientWidth unitContainer) by reflexivity.
  assert (Hch : 0 < clientHeight unitContainer) by reflexivity.
  destruct (edit_rectangle_lost_after_resize_first editProps editUnlaidState
              unitContainer
              (mkPage 2 "data:image/png;base64,DDDD" 1000 1000)
              (mkRect 100 100 300 300)
              eq_refl eq_refl eq_refl eq_refl eq_refl eq_refl Hcw Hch)
    as (_ & _ & _ & _ & Hlost).
  exact (Hlost [false; true; false]).
Defined.

(** * Properties of the host *)

(** ** From a rectangle to pixels *)

Lemma round_mono (a b : Q) : a <= b -> (round a <= round b)%Z.
Proof. intros Hab. unfold round. apply Qfloor_resp_le. lra. Qed.

Lemma round_zero : round 0 = 0%Z.
Proof. reflexivity. Qed.

Lemma round_gap (a b : Q) : a + 1 <= b -> (round a + 1 <= round b)%Z.
Proof.
  intros Hab. unfold round.
  rewrite <- (Qfloor_Z (Qfloor (a + (1 # 2)) + 1)).
  apply Qfloor_resp_le. rewrite inject_Z_plus.
  pose proof (Qfloor_le (a + (1 # 2))) as Hfloor.
  change (inject_Z 1) with 1. lra.
Qed.







(** The exact model of [cropImage] is its rounded model without
    rounding. *)
Lemma cropImage_unrounded (loads hasContext : bool)
  (x0 y0 x1 y1 w h : Q) :
  App.cropImageRounded (fun x => x) loads hasContext x0 y0 x1 y1 w h
  = App.cropImage loads hasContext x0 y0 x1 y1 w h.
Proof. reflexivity. Qed.

Lemma unitRoundoff_small : 0 <= unitRoundoff /\ unitRoundoff <= 1 # 1000000.
Proof. split; apply Qle_bool_imp_le; vm_compute; reflexivity. Qed.

Lemma underflowError_small :
  0 <= underflowError /\ underflowError <= unitRoundoff.
Proof. split; apply Qle_bool_imp_le; vm_compute; reflexivity. Qed.

Lemma binary64Range_large : 2 <= binary64Range.
Proof. apply Qle_bool_imp_le. vm_compute. reflexivity. Qed.

(** The two rounded operations of a corner, [(v / 1000) * size], stay
    within [4 * 2^-53] of the exact product, relative to the size, and of
    one more underflow error. *)
Lemma rounded_corner (fl : Q -> Q) (v size : Q) :
  roundsAsBinary64 fl ->
  0 <= v <= 1000 -> 0 <= size -> 2 * size <= binary64Range ->
  Qabs (fl (fl (v / 1000) * size) - v / 1000 * size)
  <= 4 * unitRoundoff * size + underflowError.
Proof.
  intros Hfl Hv Hsize Hrange.
  destruct unitRoundoff_small as [Hu0 Hu1].
  destruct underflowError_small as [He0 He1].
  pose proof binary64Range_large as Hlarge.
  unfold roundsAsBinary64 in Hfl.
  set (u := unitRoundoff) in *. set (eta := underflowError) in *.
  set (range := binary64Range) in *.
  set (q := v / 1000).
  assert (Hq : 0 <= q <= 1).
  { unfold q, Qdiv. change (/ 1000) with (1 # 1000). lra. }
  assert (Hqabs : Qabs q == q) by (apply Qabs_pos; lra).
  pose proof (Hfl q) as H1. rewrite Hqabs in H1.
  specialize (H1 ltac:(lra)).
  apply Qabs_Qle_condition in H1. destruct H1 as [H1lo H1hi].
  set (f1 := fl q) in *.
  assert (Hf1 : q - (u + eta) <= f1 <= q + (u + eta)) by (split; nra).
  assert (Hx2 : q * size - (u + eta) * size <= f1 * size
                <= q * size + (u + eta) * size) by (split; nra).
  assert (Habs2 : Qabs (f1 * size) <= 2 * size).
  { apply Qabs_Qle_condition. split; nra. }
  pose proof (Hfl (f1 * size)) as H2.
  specialize (H2 ltac:(lra)).
  apply Qabs_Qle_condition in H2. destruct H2 as [H2lo H2hi].
  assert (Hprod : Qabs (f1 * size) * u <= 2 * size * u) by nra.
  set (f2 := fl (f1 * size)) in *.
  apply Qabs_Qle_condition. split; nra.
Qed.

(** X18.  A rectangle inside the page that is at least 10 units wide and
    high yields a real crop of at least one pixel by one pixel on a page
    of at least 101 by 101 pixels, whatever the rounding of the two
    binary64 operations of each corner does: the whole page image is then
    returned only if the image fails to load or no 2d context is
    available.  (The span of 10 units is what a drawing has once it
    survives the pointer-up and what the resize clamps keep; a commit made
    with the Enter key in the middle of a drawing need not have it.  On a
    page of exactly 100 pixels the exact corners can be one pixel apart
    and the rounding of a product can then make them coincide.) *)
Theorem crop_of_min_span_is_not_empty
  (fl : Q -> Q) (r : NormalizedRect) (w h : Q)
  (Hfl : roundsAsBinary64 fl)
  (Hin : inPage r) (Hspan : minSpan r)
  (Hw : 101 <= w) (Hh : 101 <= h)
  (Hwmax : 2 * w <= binary64Range) (Hhmax : 2 * h <= binary64Range) :
  exists xStart yStart width height : Z,
    App.cropImageRounded fl true true (xmin r) (ymin r) (xmax r) (ymax r)
      w h
    = App.Cropped xStart yStart width height /\
    (1 <= width)%Z /\ (1 <= height)%Z.
Proof.
  destruct Hin as (Hx0 & Hx1 & Hx2 & Hy0 & Hy1 & Hy2).
  destruct Hspan as [Hsx Hsy].
  destruct unitRoundoff_small as [Hu0 Hu1].
  destruct underflowError_small as [He0 He1].
  assert (Hgap : forall lo hi len : Q,
    0 <= lo -> lo <= hi - 10 -> hi <= 1000 ->
    101 <= len -> 2 * len <= binary64Range ->
    Z.le (round (fl (fl (lo / 1000) * len)) + 1)
         (round (fl (fl (hi / 1000) * len)))).
  { intros lo hi len Hlo Hlohi Hhi Hlen Hmax. apply round_gap.
    pose proof (rounded_corner fl lo len Hfl ltac:(lra) ltac:(lra) Hmax)
      as Ha.
    pose proof (rounded_corner fl hi len Hfl ltac:(lra) ltac:(lra) Hmax)
      as Hb.
    apply Qabs_Qle_condition in Ha. apply Qabs_Qle_condition in Hb.
    set (ta := fl (fl (lo / 1000) * len)) in *.
    set (tb := fl (fl (hi / 1000) * len)) in *.
    assert (Hexact : lo / 1000 * len + len * (1 # 100) <= hi / 1000 * len).
    { unfold Qdiv. change (/ 1000) with (1 # 1000). nra. }
    set (ea := lo / 1000 * len) in *. set (eb := hi / 1000 * len) in *.
    set (u := unitRoundoff) in *. set (eta := underflowError) in *.
    assert (Hsmall : 4 * u * len <= len * (1 # 250000)) by nra.
    lra. }
  pose proof (Hgap (xmin r) (xmax r) w Hx0 Hsx Hx2 Hw Hwmax) as Hx.
  pose proof (Hgap (ymin r) (ymax r) h Hy0 Hsy Hy2 Hh Hhmax) as Hy.
  unfold App.cropImageRounded. cbv zeta.
  destruct (Z.leb_spec
              (round (fl (fl (xmax r / 1000) * w))
               - round (fl (fl (xmin r / 1000) * w))) 0)
    as [Hxe | Hxe]; [lia|].
  destruct (Z.leb_spec
              (round (fl (fl (ymax r / 1000) * h))
               - round (fl (fl (ymin r / 1000) * h))) 0)
    as [Hye | Hye]; [lia|].
  cbn [orb]. do 4 eexists. split; [reflexivity|]. lia.
Qed.

Lemma crop_of_min_span_witness :
  exists xStart yStart width height : Z,
    App.cropImageRounded (fun x => x) true true 135 100 145 300 101 101
    = App.Cropped xStart yStart width height /\
    (1 <= width)%Z /\ (1 <= height)%Z.
Proof.
  assert (Hfl : roundsAsBinary64 (fun x => x)).
  { intros x _. setoid_replace (x - x) with 0 by ring.
    destruct unitRoundoff_small as [Hu _].
    destruct underflowError_small as [He _].
    pose proof (Qabs_nonneg x) as Hx.
    change (Qabs 0) with 0. nra. }
  assert (Hin : inPage (mkRect 135 100 145 300)).
  { unfold inPage. cbn. split; [|split; [|split; [|split; [|split]]]];
      discriminate. }
  assert (Hspan : minSpan (mkRect 135 100 145 300)).
  { unfold minSpan. cbn. split; discriminate. }
  assert (Hw : 101 <= 101) by discriminate.
  assert (Hmax : 2 * 101 <= binary64Range).
  { apply Qle_bool_imp_le. vm_compute. reflexivity. }
  exact (crop_of_min_span_is_not_empty (fun x => x)
           (mkRect 135 100 145 300) 101 101 Hfl Hin Hspan Hw Hw Hmax Hmax).
Defined.

(** ** Commits of the editor reach the host *)

Lemma commits_app (a b : list Call) :
  commits (a ++ b) = (commits a ++ commits b)%list.
Proof. unfold commits. apply flat_map_app. Qed.

Lemma selectionEffect_no_commit (s s' : State) :
  commits (selectionEffect s s') = [].
Proof. unfold selectionEffect. destruct (Nat.eqb _ _); reflexivity. Qed.

Lemma pointerDown_no_commit (t : HitTarget) (e : PointerEvent) (s : State) :
  commits (snd (pointerDown t e s)) = [].
Proof.
  unfold pointerDown, handleBoxDown, handleHandleDown, handleBackgroundDown.
  destruct t, (tool s) eqn:Htool;
    cbn [fst snd existsb isStopPropagation orb app];
    rewrite ?Htool; reflexivity.
Qed.

Lemma handlePointerMove_no_commit (e : PointerEvent) (s : State) :
  commits (snd (handlePointerMove e s)) = [].
Proof.
  unfold handlePointerMove.
  destruct (tool s), (interactionMode s); try reflexivity;
    try (destruct (dragStartPoint s), (initialSelectionRef s); reflexivity).
  destruct (lastPanPosition s), (containerRef s); reflexivity.
Qed.

Lemma handleConfirm_commits (props : Props) (s : State) :
  commits (snd (handleConfirm props s))
  = match selection s with
    | Some sel => [(currentPageIndex s, sel)]
    | None => []
    end.
Proof.
  unfold handleConfirm.
  destruct (selection s); [destruct (isEditing props)|]; reflexivity.
Qed.

Lemma handleKeyDown_commits (props : Props) (e : KeyEvent) (s : State) :
  forall c : Z * NormalizedRect,
    In c (commits (snd (handleKeyDown props e s))) ->
    fst c = currentPageIndex s /\ selection s = Some (snd c).
Proof.
  intros c. unfold handleKeyDown.
  destruct (inputFocused e) eqn:Hfocus.
  - destruct (key e); [destruct (negb (repeat e) && negb true)|..];
      cbn; intros [].
  - destruct (key e) eqn:Hkey.
    + destruct (negb (repeat e) && negb false); cbn; intros [].
    + cbn. intros [].
    + cbn. intros [].
    + cbn. intros [].
    + destruct (selection s) as [sel|] eqn:Hsel; cbn [fst snd app].
      * cbn [commits flat_map app]. fold (commits (snd (handleConfirm props s))).
        rewrite handleConfirm_commits, Hsel.
        intros [Hc | []]. subst c. split; reflexivity.
      * intros [].
    + cbn. intros [].
Qed.

Lemma step_commits (props : Props) (ev : Event) (s : State) :
  forall c : Z * NormalizedRect,
    In c (commits (snd (step props ev s))) ->
    fst c = currentPageIndex s /\ selection s = Some (snd c).
Proof.
  intros c. unfold step. cbn [snd].
  rewrite !commits_app, !selectionEffect_no_commit, !app_nil_r.
  destruct ev as [t e | e | e | | e | cont | ]; cbn [handle snd].
  - rewrite pointerDown_no_commit. intros [].
  - rewrite handlePointerMove_no_commit. intros [].
  - intros [].
  - rewrite handleConfirm_commits.
    destruct (selection s) as [sel|]; [|intros []].
    intros [Hc | []]. subst c. split; reflexivity.
  - apply handleKeyDown_commits.
  - intros [].
  - intros [].
Qed.

Lemma handleWheel_no_commit (props : Props) (e : WheelEvent) (n : NavState) :
  commits (snd (handleWheel props e n)) = [].
Proof.
  unfold handleWheel.
  repeat match goal with
         | |- context [match ?x with _ => _ end] => destruct x
         end; reflexivity.
Qed.

Lemma navStep_commits (props : Props) (ev : NavEvent) (n : NavState) :
  forall c : Z * NormalizedRect,
    In c (commits (snd (navStep props ev n))) ->
    fst c = currentPageIndex (component n)
    /\ selection (component n) = Some (snd c).
Proof.
  intros c. destruct ev; cbn [navStep snd fst];
    rewrite ?commits_app, ?selectionEffect_no_commit, ?app_nil_r,
      ?handleWheel_no_commit;
    try (intros []).
  apply step_commits.
Qed.

Lemma pageAt_in_range (pages : list PageImage) (i : Z) :
  (0 <= i < Z.of_nat (List.length pages))%Z ->
  exists page : PageImage, App.pageAt pages i = Some page.
Proof.
  intros [Hlo Hhi]. unfold App.pageAt.
  destruct (Z.ltb_spec i 0) as [Hneg | _]; [lia|].
  destruct (nth_error pages (Z.to_nat i)) as [page|] eqn:Hnth.
  - exists page. reflexivity.
  - apply nth_error_None in Hnth. lia.
Qed.

(** X19.  The host ignores a commit whose page index has no page
    ([if (!page) return]).  That never happens to a commit of the editor:
    whatever the events, a commit carries the index of the page on display,
    which points at a page of the document, and the rectangle that was
    selected when the commit was made. *)
Theorem every_commit_reaches_a_page
  (props : Props) (evs : list NavEvent) :
  forall n : NavState,
    pageInRange props (component n) ->
    Forall (fun c : Z * NormalizedRect =>
              exists page : PageImage,
                App.pageAt (pageImages props) (fst c) = Some page /\
                forall (h : App.Host) (url : string) (now : N),
                  App.pageImages h = pageImages props ->
                  App.editingQuestionId h = None ->
                  App.questions
                    (App.handleManualCropConfirm h (fst c) (snd c) url now h)
                  = (App.questions h
                     ++ [App.mkQuestion (App.manualId now) url "other" true
                           (Some (pageNumberOf page)) (Some (snd c))])%list)
           (commits (snd (navRun props evs n))).
Proof.
  induction evs as [|ev rest IH]; intros n Hin; cbn [navRun snd].
  - constructor.
  - rewrite commits_app. apply Forall_app. split.
    + apply Forall_forall. intros c Hc.
      destruct (navStep_commits props ev n c Hc) as [Hindex _].
      destruct (pageAt_in_range (pageImages props) (fst c)) as [page Hpage].
      { rewrite Hindex. exact Hin. }
      exists page. split; [exact Hpage|].
      intros h url now Hpages Hadd. unfold App.handleManualCropConfirm.
      rewrite Hpages, Hpage, Hadd. reflexivity.
    + apply IH, navStep_pageInRange, Hin.
Qed.

Lemma every_commit_witness :
  let evs := [NavComponent (EvKeyDown (keyPress ArrowRight));
              NavComponent (EvPointerDown Background (pointerAt 100 100));
              NavComponent (EvPointerMove (pointerAt 300 300));
              NavComponent (EvPointerUp (pointerAt 300 300));
              NavComponent EvConfirm] in
  commits (snd (navRun addProps evs navFresh)) <> [] /\
  Forall (fun c : Z * NormalizedRect =>
            exists page : PageImage,
              App.pageAt (pageImages addProps) (fst c) = Some page /\
              forall (h : App.Host) (url : string) (now : N),
                App.pageImages h = pageImages addProps ->
                App.editingQuestionId h = None ->
                App.questions
                  (App.handleManualCropConfirm h (fst c) (snd c) url now h)
                = (App.questions h
                   ++ [App.mkQuestion (App.manualId now) url "other" true
                         (Some (pageNumberOf page)) (Some (snd c))])%list)
         (commits (snd (navRun addProps evs navFresh))).
Proof.
  intros evs. split.
  - vm_compute. discriminate.
  - apply (every_commit_reaches_a_page addProps evs navFresh).
    unfold pageInRange. cbn. lia.
Defined.

(** ** What is committed is what the editor reopens on *)

Lemma has_In (qid : string) (ids : list string) :
  App.has qid ids = true <-> In qid ids.
Proof.
  unfold App.has. rewrite existsb_exists. split.
  - intros [x [Hin Heq]]. apply String.eqb_eq in Heq. subst x. exact Hin.
  - intros Hin. exists qid. split; [exact Hin | apply String.eqb_refl].
Qed.

Lemma find_fresh (qid : string) (qs : list App.QuestionSegment) :
  App.has qid (map App.id qs) = false ->
  find (fun q => String.eqb (App.id q) qid) qs = None.
Proof.
  intros Hfresh. induction qs as [|q rest IH]; [reflexivity|].
  cbn [map App.has existsb] in Hfresh. apply orb_false_elim in Hfresh.
  destruct Hfresh as [Hhead Hrest]. cbn [find].
  rewrite String.eqb_sym, Hhead. apply IH, Hrest.
Qed.

Lemma find_app_fresh (qid : string) (qs : list App.QuestionSegment)
  (q : App.QuestionSegment) :
  App.has qid (map App.id qs) = false -> App.id q = qid ->
  find (fun q' => String.eqb (App.id q') qid) (qs ++ [q]) = Some q.
Proof.
  intros Hfresh Hid. induction qs as [|q0 rest IH].
  - cbn. rewrite Hid, String.eqb_refl. reflexivity.
  - cbn [map App.has existsb] in Hfresh. apply orb_false_elim in Hfresh.
    destruct Hfresh as [Hhead Hrest]. cbn [app find].
    rewrite String.eqb_sym, Hhead. apply IH, Hrest.
Qed.

Lemma find_updated (qid : string) (qs : list App.QuestionSegment)
  (q : App.QuestionSegment) (update : App.QuestionSegment -> App.QuestionSegment) :
  (forall q' : App.QuestionSegment, App.id (update q') = App.id q') ->
  find (fun q' => String.eqb (App.id q') qid) qs = Some q ->
  find (fun q' => String.eqb (App.id q') qid)
    (map (fun q' => if String.eqb (App.id q') qid then update q' else q') qs)
  = Some (update q).
Proof.
  intros Hid. induction qs as [|q0 rest IH]; [discriminate|].
  cbn [find map]. destruct (String.eqb (App.id q0) qid) eqn:Hhead.
  - intros Hfound. injection Hfound as Hq. subst q0.
    rewrite Hid, Hhead. reflexivity.
  - rewrite Hhead. exact IH.
Qed.

(** [findIndex] on pages whose numbers are distinct finds the page that
    was asked for. *)
Lemma findIndexFrom_nth (pages : list PageImage) :
  NoDup (map pageNumberOf pages) ->
  forall (k : nat) (page : PageImage) (from : Z),
    nth_error pages k = Some page ->
    App.findIndexFrom (pageNumberOf page) pages from
    = (from + Z.of_nat k)%Z.
Proof.
  induction pages as [|p rest IH]; intros Hdistinct k page from Hnth.
  - destruct k; discriminate.
  - cbn [map] in Hdistinct. inversion Hdistinct as [|x l Hnotin Hrest]. subst.
    destruct k as [|k]; cbn [nth_error] in Hnth; cbn [App.findIndexFrom].
    + injection Hnth as Hp. subst p. rewrite Nat.eqb_refl. lia.
    + destruct (Nat.eqb_spec (pageNumberOf p) (pageNumberOf page)) as [Heq|_].
      * exfalso. apply Hnotin. rewrite Heq. apply in_map.
        apply nth_error_In with k. exact Hnth.
      * rewrite (IH Hrest k page (from + 1)%Z Hnth). lia.
Qed.

Lemma pageAt_nth (pages : list PageImage) (i : Z) (page : PageImage) :
  App.pageAt pages i = Some page ->
  (0 <= i)%Z /\ nth_error pages (Z.to_nat i) = Some page.
Proof.
  unfold App.pageAt. destruct (Z.ltb_spec i 0); [discriminate|].
  intros Hnth. split; [lia | exact Hnth].
Qed.

Lemma initial_index_of_page (pages : list PageImage) (i : Z)
  (page : PageImage) :
  NoDup (map pageNumberOf pages) ->
  App.pageAt pages i = Some page ->
  (if (0 <=? App.findIndexFrom (pageNumberOf page) pages 0)%Z
   then App.findIndexFrom (pageNumberOf page) pages 0 else 0%Z) = i.
Proof.
  intros Hdistinct Hpage. apply pageAt_nth in Hpage.
  destruct Hpage as [Hlo Hnth].
  rewrite (findIndexFrom_nth pages Hdistinct _ page 0 Hnth).
  destruct (Z.leb_spec 0 (0 + Z.of_nat (Z.to_nat i))); lia.
Qed.

(** X20.  A rectangle committed in add mode becomes a card that reopens
    the editor where it was drawn.  With pages of distinct numbers and an
    id that no card has yet, the commit appends one card and leaves the
    editor open; clicking the edit button of the new card then opens the
    editor in edit mode on the page of the commit (as an index of the page
    list, not as a page number) with the committed rectangle as initial
    selection. *)
Theorem added_crop_reopens_where_it_was_drawn
  (h : App.Host) (i : Z) (r : NormalizedRect) (url : string) (now : N)
  (page : PageImage)
  (Hpage : App.pageAt (App.pageImages h) i = Some page)
  (Hadd : App.editingQuestionId h = None)
  (Hdistinct : NoDup (map pageNumberOf (App.pageImages h)))
  (Hfresh : App.has (App.manualId now) (App.questionIds h) = false) :
  let h1 := App.act (App.Confirm i r url now) h in
  let h2 := App.act (App.Edit (App.manualId now)) h1 in
  List.length (App.questions h1) = S (List.length (App.questions h)) /\
  firstn (List.length (App.questions h)) (App.questions h1)
  = App.questions h /\
  App.isManualCropping h1 = App.isManualCropping h /\
  App.editingQuestionId h1 = None /\
  App.isManualCropping h2 = true /\
  App.questions h2 = App.questions h1 /\
  App.editorProps h2
  = mkProps (App.pageImages h) i true (Some r)
      (List.length (App.questions h) + 2).
Proof.
  cbv zeta. cbn [App.act]. unfold App.handleManualCropConfirm.
  rewrite Hpage, Hadd. cbn [App.truthy].
  set (q := App.mkQuestion (App.manualId now) url "other" true
              (Some (pageNumberOf page)) (Some r)).
  set (h1 := App.mkHost (App.questions h ++ [q]) (App.pageImages h)
               (App.isManualCropping h) None (App.isBatchMode h)
               (App.selectedIds h)).
  assert (Hfound : App.findQuestion (App.manualId now) h1 = Some q).
  { unfold App.findQuestion. cbn [h1 App.questions].
    apply find_app_fresh; [exact Hfresh | reflexivity]. }
  unfold App.handleEditQuestion. rewrite Hfound.
  cbn [q App.isImage App.pageIndex].
  split; [|split; [|split; [|split; [|split; [|split]]]]].
  - cbn [h1 App.questions]. rewrite length_app. cbn [List.length]. lia.
  - cbn [h1 App.questions]. rewrite firstn_app, Nat.sub_diag, firstn_all.
    cbn [firstn]. apply app_nil_r.
  - reflexivity.
  - reflexivity.
  - reflexivity.
  - reflexivity.
  - unfold App.editorProps, App.getInitialPageIndex, App.getInitialRect.
    cbn [App.editingQuestionId App.pageImages App.questions h1].
    change (App.truthy (Some (App.manualId now)))
      with (Some (App.manualId now)).
    unfold App.findQuestion in Hfound. cbn [h1 App.questions] in Hfound.
    unfold App.findQuestion. cbn [App.questions]. rewrite Hfound.
    cbn [q App.pageIndex App.rect]. cbv zeta.
    rewrite (initial_index_of_page _ i page Hdistinct Hpage).
    rewrite length_app. cbn [List.length].
    replace (List.length (App.questions h) + 1 + 1)%nat
      with (List.length (App.questions h) + 2)%nat by lia.
    reflexivity.
Qed.

Lemma added_crop_witness :
  let r := mkRect 100 100 300 300 in
  let h1 := App.act (App.Confirm 2 r "data:image/png;base64,DDDD" 1700000000000)
              App.sampleHost in
  let h2 := App.act (App.Edit (App.manualId 1700000000000)) h1 in
  List.length (App.questions h1)
  = S (List.length (App.questions App.sampleHost)) /\
  firstn (List.length (App.questions App.sampleHost)) (App.questions h1)
  = App.questions App.sampleHost /\
  App.isManualCropping h1 = App.isManualCropping App.sampleHost /\
  App.editingQuestionId h1 = None /\
  App.isManualCropping h2 = true /\
  App.questions h2 = App.questions h1 /\
  App.editorProps h2
  = mkProps (App.pageImages App.sampleHost) 2 true (Some r)
      (List.length (App.questions App.sampleHost) + 2).
Proof.
  intros r.
  assert (Hdistinct :
            NoDup (map pageNumberOf (App.pageImages App.sampleHost))).
  { cbn. repeat constructor; cbn; intuition discriminate. }
  exact (added_crop_reopens_where_it_was_drawn App.sampleHost 2 r
           "data:image/png;base64,DDDD" 1700000000000
           (mkPage 3 "data:image/png;base64,CCCC" 2000 2800)
           eq_refl eq_refl Hdistinct eq_refl).
Defined.

Lemma map_id_updated (qid : string) (qs : list App.QuestionSegment)
  (update : App.QuestionSegment -> App.QuestionSegment) :
  (forall q : App.QuestionSegment, App.id (update q) = App.id q) ->
  map App.id
    (map (fun q => if String.eqb (App.id q) qid then update q else q) qs)
  = map App.id qs.
Proof.
  intros Hid. rewrite map_map. apply map_ext. intros q.
  destruct (String.eqb (App.id q) qid); [apply Hid | reflexivity].
Qed.

(** X21.  A rectangle committed in edit mode replaces the crop of the
    edited card and of no other.  When the editor is open on a card that
    can be edited (its id is not the empty string, which the host reads as
    no card), the commit closes the editor, leaves the number, the
    order and the ids of the cards as they were and every card with another
    id untouched; opening the editor on the card again shows the page and
    the rectangle of the commit. *)
Theorem edited_crop_reopens_where_it_was_redrawn
  (h : App.Host) (i : Z) (r : NormalizedRect) (url : string) (now : N)
  (page : PageImage) (editing : string) (q : App.QuestionSegment)
  (Hpage : App.pageAt (App.pageImages h) i = Some page)
  (Hedit : App.editingQuestionId h = Some editing)
  (Hid : editing <> ""%string)
  (Hfound : App.findQuestion editing h = Some q)
  (Himage : App.isImage q = true)
  (Hdistinct : NoDup (map pageNumberOf (App.pageImages h))) :
  let h1 := App.act (App.Confirm i r url now) h in
  let h2 := App.act (App.Edit editing) h1 in
  App.isManualCropping h1 = false /\
  App.editingQuestionId h1 = None /\
  App.questionIds h1 = App.questionIds h /\
  (forall (k : nat) (q' : App.QuestionSegment),
     nth_error (App.questions h) k = Some q' -> App.id q' <> editing ->
     nth_error (App.questions h1) k = Some q') /\
  App.findQuestion editing h1
  = Some (App.mkQuestion (App.id q) url (App.type q) true
            (Some (pageNumberOf page)) (Some r)) /\
  App.editorProps h2
  = mkProps (App.pageImages h) i true (Some r)
      (List.length (App.questions h) + 1).
Proof.
  assert (Htruthy : App.truthy (Some editing) = Some editing).
  { destruct editing; [contradiction | reflexivity]. }
  cbv zeta. cbn [App.act]. unfold App.handleManualCropConfirm.
  rewrite Hpage, Hedit, Htruthy.
  pose (update := fun q' : App.QuestionSegment =>
          App.mkQuestion (App.id q') url (App.type q') (App.isImage q')
            (Some (pageNumberOf page)) (Some r)).
  pose (qs := map (fun q' => if String.eqb (App.id q') editing
                             then update q' else q') (App.questions h)).
  pose (h1 := App.mkHost qs (App.pageImages h) false None (App.isBatchMode h)
                (App.selectedIds h)).
  change (App.mkHost (map _ (App.questions h)) (App.pageImages h) false None
            (App.isBatchMode h) (App.selectedIds h)) with h1.
  assert (Hupdated : App.findQuestion editing h1 = Some (update q)).
  { unfold App.findQuestion. cbn [h1 App.questions]. unfold qs.
    apply find_updated; [reflexivity | exact Hfound]. }
  split; [reflexivity|]. split; [reflexivity|].
  split.
  { unfold App.questionIds. cbn [h1 App.questions]. unfold qs.
    apply map_id_updated. reflexivity. }
  split.
  { intros k q' Hnth Hother. cbn [h1 App.questions]. unfold qs.
    rewrite nth_error_map, Hnth. cbn [option_map].
    destruct (String.eqb_spec (App.id q') editing) as [Heq|_];
      [contradiction | reflexivity]. }
  split.
  { rewrite Hupdated. unfold update. rewrite Himage. reflexivity. }
  unfold App.handleEditQuestion. rewrite Hupdated.
  unfold update at 1 2. cbn [App.isImage App.pageIndex]. rewrite Himage.
  unfold App.editorProps, App.getInitialPageIndex, App.getInitialRect.
  cbn [App.editingQuestionId App.pageImages App.questions h1].
  rewrite Htruthy.
  unfold App.findQuestion in Hupdated. cbn [h1 App.questions] in Hupdated.
  unfold App.findQuestion. cbn [App.questions]. rewrite Hupdated.
  unfold update. cbn [App.pageIndex App.rect]. cbv zeta.
  rewrite (initial_index_of_page _ i page Hdistinct Hpage).
  unfold qs. rewrite length_map. reflexivity.
Qed.

Lemma edited_crop_witness :
  let h := App.act (App.Edit (App.manualId 1700000000000))
             (App.act (App.Confirm 2 (mkRect 100 100 300 300)
                         "data:image/png;base64,DDDD" 1700000000000)
                App.sampleHost) in
  let r := mkRect 200 200 500 400 in
  let q := App.mkQuestion (App.manualId 1700000000000)
             "data:image/png;base64,DDDD" "other" true (Some 3%nat)
             (Some (mkRect 100 100 300 300)) in
  let h1 := App.act (App.Confirm 0 r "data:image/png;base64,EEEE"
                       1700000005000) h in
  let h2 := App.act (App.Edit (App.manualId 1700000000000)) h1 in
  App.isManualCropping h1 = false /\
  App.editingQuestionId h1 = None /\
  App.questionIds h1 = App.questionIds h /\
  (forall (k : nat) (q' : App.QuestionSegment),
     nth_error (App.questions h) k = Some q' ->
     App.id q' <> App.manualId 1700000000000 ->
     nth_error (App.questions h1) k = Some q') /\
  App.findQuestion (App.manualId 1700000000000) h1
  = Some (App.mkQuestion (App.id q) "data:image/png;base64,EEEE"
            (App.type q) true (Some 1%nat) (Some r)) /\
  App.editorProps h2
  = mkProps (App.pageImages h) 0 true (Some r)
      (List.length (App.questions h) + 1).
Proof.
  intros h r q.
  assert (Hdistinct : NoDup (map pageNumberOf (App.pageImages h))).
  { cbn. repeat constructor; cbn; intuition discriminate. }
  assert (Hid : App.manualId 1700000000000 <> ""%string) by discriminate.
  exact (edited_crop_reopens_where_it_was_redrawn h 0 r
           "data:image/png;base64,EEEE" 1700000005000
           (mkPage 1 "data:image/png;base64,AAAA" 2000 2800)
           (App.manualId 1700000000000) q
           eq_refl eq_refl Hid eq_refl eq_refl Hdistinct).
Defined.

(** ** The batch selection *)

Lemma In_delete (qid x : string) (ids : list string) :
  In x (App.delete qid ids) <-> In x ids /\ x <> qid.
Proof.
  unfold App.delete. rewrite filter_In. split.
  - intros [Hin Hne]. split; [exact Hin|]. intros Heq. subst x.
    rewrite String.eqb_refl in Hne. discriminate.
  - intros [Hin Hne]. split; [exact Hin|].
    destruct (String.eqb_spec qid x) as [Heq|_]; [|reflexivity].
    exfalso. apply Hne. symmetry. exact Heq.
Qed.

Lemma In_add (qid x : string) (ids : list string) :
  In x (App.add qid ids) <-> In x ids \/ x = qid.
Proof.
  unfold App.add. destruct (App.has qid ids) eqn:Hhas.
  - apply has_In in Hhas. split; [auto|].
    intros [Hin | Heq]; [exact Hin | subst x; exact Hhas].
  - rewrite in_app_iff. cbn [In]. intuition.
Qed.

Lemma In_setOf_from (ids acc : list string) (x : string) :
  In x (fold_left (fun acc i => App.add i acc) ids acc)
  <-> In x acc \/ In x ids.
Proof.
  revert acc. induction ids as [|i rest IH]; intros acc; cbn [fold_left In].
  - intuition.
  - rewrite IH, In_add. intuition.
Qed.

Lemma In_setOf (ids : list string) (x : string) :
  In x (App.setOf ids) <-> In x ids.
Proof. unfold App.setOf. rewrite In_setOf_from. cbn [In]. intuition. Qed.

Lemma NoDup_delete (qid : string) (ids : list string) :
  NoDup ids -> NoDup (App.delete qid ids).
Proof. unfold App.delete. apply NoDup_filter. Qed.

Lemma NoDup_add (qid : string) (ids : list string) :
  NoDup ids -> NoDup (App.add qid ids).
Proof.
  intros Hids. unfold App.add. destruct (App.has qid ids) eqn:Hhas;
    [exact Hids|].
  apply NoDup_app; [exact Hids | repeat constructor; intros [] |].
  intros x Hin [Heq | []]. subst x. apply has_In in Hin. congruence.
Qed.

Lemma NoDup_setOf_from (ids acc : list string) :
  NoDup acc -> NoDup (fold_left (fun acc i => App.add i acc) ids acc).
Proof.
  revert acc. induction ids as [|i rest IH]; intros acc Hacc;
    cbn [fold_left]; [exact Hacc|].
  apply IH, NoDup_add, Hacc.
Qed.

Lemma selectionWithinList_In (h : App.Host) :
  App.selectionWithinList h
  <-> (forall x : string, In x (App.selectedIds h) ->
                          In x (App.questionIds h)).
Proof.
  unfold App.selectionWithinList. split; intros Hwithin x Hx.
  - apply has_In, Hwithin, has_In, Hx.
  - apply has_In, Hwithin, has_In, Hx.
Qed.

Lemma act_keeps_selection (a : App.Action) (h : App.Host) :
  App.selectionWithinList h /\ NoDup (App.selectedIds h) ->
  App.selectionWithinList (App.act a h)
  /\ NoDup (App.selectedIds (App.act a h)).
Proof.
  intros [Hwithin Hset]. rewrite selectionWithinList_In in *.
  destruct a as [i r url now | | qid | qid | | qid | | | name parsed t b
                | blobOf]; cbn [App.act].
  - unfold App.handleManualCropConfirm.
    destruct (App.pageAt (App.pageImages h) i) as [page|];
      [|split; assumption].
    destruct (App.truthy (App.editingQuestionId h)) as [editing|];
      (split; [|exact Hset]); intros x Hx; unfold App.questionIds;
      cbn [App.questions App.selectedIds] in *.
    + rewrite map_id_updated by reflexivity. apply Hwithin, Hx.
    + rewrite map_app. apply in_or_app. left. apply Hwithin, Hx.
  - split; [|exact Hset]. exact Hwithin.
  - unfold App.handleEditQuestion.
    destruct (App.findQuestion qid h) as [q|]; [|split; assumption].
    destruct (App.isImage q), (App.pageIndex q); split; assumption.
  - split; [|apply NoDup_delete, Hset].
    intros x Hx. unfold App.questionIds.
    cbn [App.handleDeleteQuestion App.questions App.selectedIds] in *.
    apply In_delete in Hx. destruct Hx as [Hx Hne].
    apply Hwithin in Hx. unfold App.questionIds in Hx.
    apply in_map_iff in Hx. destruct Hx as [q [Hid Hq]].
    apply in_map_iff. exists q. split; [exact Hid|].
    apply filter_In. split; [exact Hq|].
    destruct (String.eqb_spec (App.id q) qid) as [Heq|_]; [|reflexivity].
    exfalso. apply Hne. rewrite <- Hid. exact Heq.
  - split; [intros x []| constructor].
  - destruct (App.enabled (App.ToggleSelect qid) h) eqn:Henabled;
      [|split; assumption].
    cbn [App.enabled] in Henabled. apply has_In in Henabled.
    unfold App.toggleSelect. cbn [App.selectedIds].
    destruct (App.has qid (App.selectedIds h)).
    + split; [|apply NoDup_delete, Hset].
      intros x Hx. apply In_delete in Hx. apply Hwithin, Hx.
    + split; [|apply NoDup_add, Hset].
      intros x Hx. apply In_add in Hx.
      destruct Hx as [Hx | Heq]; [apply Hwithin, Hx | subst x; exact Henabled].
  - unfold App.toggleSelectAll. cbn [App.selectedIds].
    destruct (Nat.eqb _ _).
    + split; [intros x [] | constructor].
    + split; [|apply NoDup_setOf_from; constructor].
      intros x Hx. exact (proj1 (In_setOf _ x) Hx).
  - split; [intros x [] | constructor].
  - unfold App.handleFileSelect.
    destruct parsed as [[pages | text]|]; (split; [intros x [] | constructor]).
  - unfold App.handleBatchExport.
    destruct (App.selectedIds h) as [|first others] eqn:Hselected;
      cbn [fst]; [rewrite Hselected; split; assumption|].
    destruct (App.exportFiles blobOf (first :: others) (App.questions h) 0)
      as [[|file files]|]; cbn [fst App.selectedIds];
      rewrite ?Hselected; try (split; assumption).
    split; [intros x [] | constructor].
Qed.

(** X22.  The batch selection never points at a card that is gone.
    Whatever the user does (commits, closing, opening a card for
    editing, deleting a card, switching batch mode, ticking a card, select
    all, reset), every selected id is the id of a card of the list, no id
    is selected twice, and there are never more selected ids than
    cards. *)
Theorem batch_selection_stays_within_list (actions : list App.Action) :
  forall h : App.Host,
    App.selectionWithinList h -> NoDup (App.selectedIds h) ->
    let h' := fold_left (fun h a => App.act a h) actions h in
    App.selectionWithinList h' /\ NoDup (App.selectedIds h') /\
    (List.length (App.selectedIds h') <= List.length (App.questions h'))%nat.
Proof.
  induction actions as [|a rest IH]; intros h Hwithin Hset;
    cbn [fold_left].
  - split; [exact Hwithin|]. split; [exact Hset|].
    rewrite <- (length_map App.id (App.questions h)).
    apply NoDup_incl_length; [exact Hset|].
    intros x Hx.
    exact (proj1 (selectionWithinList_In h) Hwithin x Hx).
  - destruct (act_keeps_selection a h (conj Hwithin Hset)) as [Hw Hs].
    apply IH; assumption.
Qed.

Lemma batch_selection_witness :
  let h := App.act (App.Confirm 2 (mkRect 100 100 300 300)
                      "data:image/png;base64,DDDD" 1700000000000)
             App.sampleHost in
  let actions := [App.ToggleBatchMode; App.ToggleSelectAll;
                  App.Delete "title-1"; App.ToggleSelect "title-1";
                  App.ToggleSelect (App.manualId 1700000000000);
                  App.ToggleSelectAll] in
  let h' := fold_left (fun h a => App.act a h) actions h in
  App.selectionWithinList h' /\ NoDup (App.selectedIds h') /\
  (List.length (App.selectedIds h') <= List.length (App.questions h'))%nat.
Proof.
  intros h actions.
  apply (batch_selection_stays_within_list actions h).
  - intros qid Hqid. discriminate Hqid.
  - constructor.
Defined.

(** * Properties of the services *)

(** ** Which parser a file gets *)

Lemma split_not_empty (name current : string) :
  Parser.split current name <> [].
Proof.
  revert current. induction name as [|c rest IH]; intros current;
    cbn [Parser.split]; [discriminate|].
  destruct (Ascii.eqb c "."%char); [discriminate | apply IH].
Qed.

Lemma pop_cons (piece : string) (pieces : list string) :
  pieces <> [] -> Parser.pop (piece :: pieces) = Parser.pop pieces.
Proof. destruct pieces; [congruence | reflexivity]. Qed.

Lemma pop_after_dot (base extension current : string) :
  Parser.pop (Parser.split current (base ++ String "."%char extension))
  = Parser.pop (Parser.split "" extension).
Proof.
  revert current. induction base as [|c rest IH]; intros current.
  - cbn. destruct (Parser.split "" extension) eqn:Hsplit; [|reflexivity].
    exfalso. exact (split_not_empty _ _ Hsplit).
  - cbn [append Parser.split]. destruct (Ascii.eqb c "."%char).
    + rewrite pop_cons by apply split_not_empty. apply IH.
    + apply IH.
Qed.

Lemma lowerAscii_dot (c : ascii) :
  Ascii.eqb (Parser.lowerAscii c) "."%char = Ascii.eqb c "."%char.
Proof.
  destruct c as [[] [] [] [] [] [] [] []]; reflexivity.
Qed.

Lemma lowerAscii_twice (c : ascii) :
  Parser.lowerAscii (Parser.lowerAscii c) = Parser.lowerAscii c.
Proof.
  destruct c as [[] [] [] [] [] [] [] []]; reflexivity.
Qed.

Lemma toLowerCase_twice (s : string) :
  Parser.toLowerCase (Parser.toLowerCase s) = Parser.toLowerCase s.
Proof.
  induction s as [|c rest IH]; [reflexivity|].
  cbn [Parser.toLowerCase]. rewrite lowerAscii_twice, IH. reflexivity.
Qed.

Lemma toLowerCase_app (a b : string) :
  Parser.toLowerCase (a ++ b)
  = (Parser.toLowerCase a ++ Parser.toLowerCase b)%string.
Proof.
  induction a as [|c rest IH]; [reflexivity|].
  cbn [append Parser.toLowerCase]. rewrite IH. reflexivity.
Qed.

Lemma split_toLowerCase (name current : string) :
  Parser.split (Parser.toLowerCase current) (Parser.toLowerCase name)
  = map Parser.toLowerCase (Parser.split current name).
Proof.
  revert current. induction name as [|c rest IH]; intros current;
    cbn [Parser.toLowerCase Parser.split]; [reflexivity|].
  rewrite lowerAscii_dot. destruct (Ascii.eqb c "."%char).
  - cbn [map]. f_equal. exact (IH ""%string).
  - rewrite <- IH, toLowerCase_app. reflexivity.
Qed.

Lemma last_mapped (f : string -> string) (pieces : list string)
  (default : string) :
  last (map f pieces) (f default) = f (last pieces default).
Proof.
  induction pieces as [|p rest IH]; [reflexivity|].
  destruct rest as [|p' rest]; [reflexivity|].
  exact IH.
Qed.

Lemma pop_map (f : string -> string) (pieces : list string) :
  f ""%string = ""%string ->
  Parser.pop (map f pieces) = option_map f (Parser.pop pieces).
Proof.
  intros Hempty. destruct pieces as [|p rest]; [reflexivity|].
  cbn [map Parser.pop option_map]. f_equal.
  change (f p :: map f rest) with (map f (p :: rest)).
  rewrite <- Hempty at 1. apply last_mapped.
Qed.

(** X23.  [parseFile] chooses the parser by the text after the last dot
    of the file name and by nothing else, whatever the case of the
    letters; a name without a dot is taken whole as its own extension, so
    a file called [pdf] is parsed as a PDF document. *)
Theorem parser_chosen_by_last_extension (base extension name : string) :
  Parser.parseFile (base ++ String "."%char extension)
  = Parser.parseFile extension /\
  Parser.parseFile (Parser.toLowerCase name) = Parser.parseFile name /\
  Parser.parseFile (base ++ ".PDF") = Some Parser.pdf /\
  Parser.parseFile (base ++ ".Docx") = Some Parser.docx /\
  Parser.parseFile (base ++ ".txt") = Some Parser.txt /\
  Parser.parseFile "pdf" = Some Parser.pdf /\
  Parser.parseFile (base ++ ".pdf.") = None /\
  Parser.parseFile (base ++ ".doc") = None.
Proof.
  assert (Hsuffix : forall b e : string,
    Parser.parseFile (b ++ String "."%char e) = Parser.parseFile e).
  { intros b e. unfold Parser.parseFile. rewrite pop_after_dot.
    reflexivity. }
  split; [apply Hsuffix|]. split.
  { unfold Parser.parseFile.
    change ""%string with (Parser.toLowerCase "") at 1.
    rewrite split_toLowerCase, pop_map by reflexivity.
    destruct (Parser.pop (Parser.split "" name)) as [piece|];
      [|reflexivity].
    cbn [option_map]. rewrite toLowerCase_twice. reflexivity. }
  repeat split.
  - change (base ++ ".PDF")%string with (base ++ String "."%char "PDF")%string.
    rewrite Hsuffix. reflexivity.
  - change (base ++ ".Docx")%string
      with (base ++ String "."%char "Docx")%string.
    rewrite Hsuffix. reflexivity.
  - change (base ++ ".txt")%string with (base ++ String "."%char "txt")%string.
    rewrite Hsuffix. reflexivity.
  - change (base ++ ".pdf.")%string
      with (base ++ String "."%char "pdf.")%string.
    rewrite Hsuffix. reflexivity.
  - change (base ++ ".doc")%string with (base ++ String "."%char "doc")%string.
    rewrite Hsuffix. reflexivity.
Qed.

(** ** The pages of a PDF document *)

Lemma renderPages_unfolded (render : nat -> Parser.PageOutcome) :
  forall (count i : nat) (pages : list PageImage),
    Parser.renderPages render i count pages
    = if existsb (fun j => match render j with
                           | Parser.Rejected => true
                           | _ => false
                           end) (seq i count)
      then None
      else Some (pages
                 ++ flat_map (fun j => match render j with
                                       | Parser.Rendered data w h =>
                                         [mkPage j data w h]
                                       | _ => []
                                       end) (seq i count))%list.
Proof.
  induction count as [|count IH]; intros i pages;
    cbn [Parser.renderPages seq existsb flat_map].
  - rewrite app_nil_r. reflexivity.
  - destruct (render i) as [|data w h|]; cbn [orb app].
    + apply IH.
    + rewrite IH, <- app_assoc. reflexivity.
    + reflexivity.
Qed.

Lemma numbers_of_rendered (render : nat -> Parser.PageOutcome)
  (numbers : list nat) :
  map pageNumberOf
    (flat_map (fun j => match render j with
                        | Parser.Rendered data w h => [mkPage j data w h]
                        | _ => []
                        end) numbers)
  = filter (fun j => match render j with
                     | Parser.Rendered _ _ _ => true
                     | _ => false
                     end) numbers.
Proof.
  induction numbers as [|j rest IH]; [reflexivity|].
  cbn [flat_map filter]. rewrite map_app, IH.
  destruct (render j); reflexivity.
Qed.

Lemma nth_filter_seq (keep : nat -> bool) :
  forall (count first k x : nat),
    nth_error (filter keep (seq first count)) k = Some x ->
    (first + k <= x < first + count)%nat.
Proof.
  induction count as [|count IH]; intros first k x Hnth.
  - destruct k; discriminate.
  - cbn [seq filter] in Hnth. destruct (keep first).
    + destruct k as [|k]; cbn [nth_error] in Hnth.
      * injection Hnth as Hx. lia.
      * apply IH in Hnth. lia.
    + apply IH in Hnth. lia.
Qed.

(** X24.  The pages that [parsePdfToImages] returns carry the numbers of
    the pages of the document, counted from 1, in increasing order: page
    [k] of the list (counted from 0) has a number greater than [k], which
    is [k + 1] when no page was skipped for lack of a 2d context.  The
    numbers are distinct, so looking a page up by its number, as the host
    does to reopen a crop, finds its index in the list.  Each page is the
    rendering of the page of its number, and one rejected page makes the
    whole parse fail. *)
Theorem pdf_pages_are_numbered_in_order
  (numPages : nat) (render : nat -> Parser.PageOutcome)
  (pages : list PageImage)
  (Hparsed : Parser.parsePdfToImages (Some numPages) render = Some pages) :
  NoDup (map pageNumberOf pages) /\
  (forall (k : nat) (page : PageImage),
     nth_error pages k = Some page ->
     (k < pageNumberOf page <= numPages)%nat /\
     render (pageNumberOf page)
     = Parser.Rendered (imageData page) (width page) (height page) /\
     App.findIndexFrom (pageNumberOf page) pages 0 = Z.of_nat k) /\
  (forall j : nat, (1 <= j <= numPages)%nat ->
                   render j <> Parser.Rejected) /\
  ((forall j : nat, (1 <= j <= numPages)%nat ->
                    render j <> Parser.NoContext) ->
   map pageNumberOf pages = seq 1 numPages).
Proof.
  unfold Parser.parsePdfToImages in Hparsed.
  rewrite renderPages_unfolded in Hparsed.
  destruct (existsb _ (seq 1 numPages)) eqn:Hrejected; [discriminate|].
  injection Hparsed as Hpages. cbn [app] in Hpages.
  assert (Hnumbers :
    map pageNumberOf pages
    = filter (fun j => match render j with
                       | Parser.Rendered _ _ _ => true
                       | _ => false
                       end) (seq 1 numPages)).
  { rewrite <- Hpages. apply numbers_of_rendered. }
  assert (Hdistinct : NoDup (map pageNumberOf pages)).
  { rewrite Hnumbers. apply NoDup_filter, seq_NoDup. }
  assert (Hnone : forall j : nat, (1 <= j <= numPages)%nat ->
                                  render j <> Parser.Rejected).
  { intros j Hj Hreject.
    assert (Hin : In j (seq 1 numPages)) by (apply in_seq; lia).
    assert (Hex : existsb (fun j => match render j with
                                    | Parser.Rejected => true
                                    | _ => false
                                    end) (seq 1 numPages) = true).
    { apply existsb_exists. exists j. split; [exact Hin|].
      rewrite Hreject. reflexivity. }
    congruence. }
  split; [exact Hdistinct|]. split; [|split; [exact Hnone|]].
  - intros k page Hnth. split; [|split].
    + assert (Hk : nth_error (map pageNumberOf pages) k
                   = Some (pageNumberOf page)).
      { rewrite nth_error_map, Hnth. reflexivity. }
      rewrite Hnumbers in Hk. apply nth_filter_seq in Hk. lia.
    + apply nth_error_In in Hnth. rewrite <- Hpages in Hnth.
      apply in_flat_map in Hnth. destruct Hnth as [j [_ Hpage]].
      destruct (render j) as [|data w h|] eqn:Hrender; cbn [In] in Hpage;
        try contradiction.
      destruct Hpage as [Hpage | []]. subst page.
      cbn [pageNumberOf pageIndex imageData width height]. exact Hrender.
    + rewrite (findIndexFrom_nth pages Hdistinct k page 0 Hnth). lia.
  - intros Hcontext. rewrite Hnumbers.
    rewrite <- (filter_ext_in (fun _ => true)).
    + clear. induction (seq 1 numPages) as [|j rest IH]; [reflexivity|].
      cbn [filter]. rewrite IH. reflexivity.
    + intros j Hj. apply in_seq in Hj.
      specialize (Hcontext j). specialize (Hnone j).
      destruct (render j); [|reflexivity|]; exfalso;
        [apply Hcontext | apply Hnone]; try reflexivity; lia.
Qed.

Lemma pdf_pages_witness :
  let render := fun j : nat =>
    if Nat.eqb j 2 then Parser.NoContext
    else Parser.Rendered "data:image/png;base64,AAAA" 2000 2800 in
  let pages := [mkPage 1 "data:image/png;base64,AAAA" 2000 2800;
                mkPage 3 "data:image/png;base64,AAAA" 2000 2800] in
  Parser.parsePdfToImages (Some 3%nat) render = Some pages /\
  NoDup (map pageNumberOf pages) /\
  (forall (k : nat) (page : PageImage),
     nth_error pages k = Some page ->
     (k < pageNumberOf page <= 3)%nat /\
     render (pageNumberOf page)
     = Parser.Rendered (imageData page) (width page) (height page) /\
     App.findIndexFrom (pageNumberOf page) pages 0 = Z.of_nat k) /\
  (forall j : nat, (1 <= j <= 3)%nat -> render j <> Parser.Rejected) /\
  ((forall j : nat, (1 <= j <= 3)%nat -> render j <> Parser.NoContext) ->
   map pageNumberOf pages = seq 1 3).
Proof.
  intros render pages. split; [reflexivity|].
  exact (pdf_pages_are_numbered_in_order 3 render pages eq_refl).
Defined.

(** ** The image that is sent for analysis *)

Lemma round_quotient (a b : Z) :
  (0 < b)%Z ->
  (2 * round (inject_Z a / inject_Z b) * b - b <= 2 * a
   < 2 * round (inject_Z a / inject_Z b) * b + b)%Z.
Proof.
  intros Hb. unfold round.
  set (q := inject_Z a / inject_Z b).
  pose proof (Qfloor_le (q + (1 # 2))) as Hlow.
  pose proof (Qlt_floor (q + (1 # 2))) as Hhigh.
  set (z := Qfloor (q + (1 # 2))) in *.
  assert (HbQ : 0 < inject_Z b).
  { change 0 with (inject_Z 0). rewrite <- Zlt_Qlt. exact Hb. }
  assert (Hq : q * inject_Z b == inject_Z a).
  { unfold q. field. lra. }
  rewrite inject_Z_plus in Hhigh. change (inject_Z 1) with 1 in Hhigh.
  assert (Hbelow : (2 * z * b <= 2 * a + b)%Z).
  { rewrite Zle_Qle.
    rewrite inject_Z_plus, !inject_Z_mult, <- Hq.
    change (inject_Z 2) with 2. nra. }
  assert (Habove : (2 * a < 2 * z * b + b)%Z).
  { rewrite Zlt_Qlt.
    rewrite inject_Z_plus, !inject_Z_mult, <- Hq.
    change (inject_Z 2) with 2. nra. }
  lia.
Qed.

(** X25.  The image sent for analysis never has a side longer than
    [maxDimension] and is never larger than the original.  An image within
    the limit keeps its size; a larger one gets its longer side set to the
    limit and its shorter side scaled in proportion, to the nearest pixel.
    The shorter side comes out as zero pixels exactly when the image is
    more than [2 * maxDimension] times as long as it is wide (or the other
    way round). *)
Theorem analysis_image_fits_the_limit (width height maxDimension : Z)
  (Hmax : (0 < maxDimension)%Z) (Hw : (0 <= width)%Z)
  (Hh : (0 <= height)%Z) :
  let size := Gemini.resizeImageForAnalysis width height maxDimension in
  (0 <= fst size <= Z.min width maxDimension)%Z /\
  (0 <= snd size <= Z.min height maxDimension)%Z /\
  (2 * Z.abs (fst size * height - snd size * width)
   <= Z.max width height)%Z /\
  ((width <= maxDimension)%Z -> (height <= maxDimension)%Z ->
   size = (width, height)) /\
  ((maxDimension < width \/ maxDimension < height)%Z ->
   Z.max (fst size) (snd size) = maxDimension /\
   (Z.min (fst size) (snd size) = 0%Z
    <-> (2 * Z.min width height * maxDimension < Z.max width height)%Z)).
Proof.
  cbv zeta. unfold Gemini.resizeImageForAnalysis.
  destruct (Z.ltb_spec maxDimension width) as [Hwide | Hwide];
    destruct (Z.ltb_spec maxDimension height) as [Htall | Htall];
    cbn [orb].
  4: { cbn [fst snd].
       split; [lia|]. split; [lia|]. split; [lia|]. split; [reflexivity|].
       intros [Hbig | Hbig]; lia. }
  all: destruct (Z.ltb_spec height width) as [Hlandscape | Hportrait];
    cbn [fst snd].
  all: try lia.
  all: try (pose proof (round_quotient (height * maxDimension) width) as Hr;
            set (z := round (inject_Z (height * maxDimension)
                             / inject_Z width)) in *;
            specialize (Hr ltac:(lia));
            assert (Hz0 : (0 <= z)%Z) by nia;
            assert (Hzh : (z <= height)%Z) by nia;
            assert (Hzm : (z <= maxDimension)%Z) by nia).
  all: try (pose proof (round_quotient (width * maxDimension) height) as Hr;
            set (z := round (inject_Z (width * maxDimension)
                             / inject_Z height)) in *;
            specialize (Hr ltac:(lia));
            assert (Hz0 : (0 <= z)%Z) by nia;
            assert (Hzh : (z <= width)%Z) by nia;
            assert (Hzm : (z <= maxDimension)%Z) by nia).
  all: clearbody z.
  all: split; [lia|]; split; [lia|]; split; [nia|]; split; [lia|].
  all: intros _; split; [lia|].
  all: rewrite ?(Z.min_r maxDimension z), ?(Z.min_l z maxDimension) by lia.
  all: rewrite ?(Z.min_r width height), ?(Z.max_l width height) by lia.
  all: rewrite ?(Z.min_l width height), ?(Z.max_r width height) by lia.
  all: split; [intros Hzero; subst z; lia | intros Hthin; nia].
Qed.

Lemma analysis_image_witness :
  Gemini.resizeImageForAnalysis 3000 2000 1024 = (1024, 683)%Z /\
  let size := Gemini.resizeImageForAnalysis 3000 2000 1024 in
  (0 <= fst size <= Z.min 3000 1024)%Z /\
  (0 <= snd size <= Z.min 2000 1024)%Z /\
  (2 * Z.abs (fst size * 2000 - snd size * 3000) <= Z.max 3000 2000)%Z /\
  ((3000 <= 1024)%Z -> (2000 <= 1024)%Z -> size = (3000, 2000)%Z) /\
  ((1024 < 3000 \/ 1024 < 2000)%Z ->
   Z.max (fst size) (snd size) = 1024%Z /\
   (Z.min (fst size) (snd size) = 0%Z
    <-> (2 * Z.min 3000 2000 * 1024 < Z.max 3000 2000)%Z)).
Proof.
  split; [reflexivity|].
  apply (analysis_image_fits_the_limit 3000 2000 1024); lia.
Defined.

(** ** Asking for the segments of a page *)

(** X26.  [segmentPageImage] sends at most three requests and sleeps at
    most three seconds.  It stops at the first request that succeeds and
    returns its segments; before request [n + 1] it has slept 1000 ms after
    the first failure and 2000 ms after the second, and it does not sleep
    after the third; when all three fail it returns the empty list instead
    of throwing.  Without an API key it throws before any request is sent:
    the fallback to the empty list does not cover that case. *)
Theorem segmentation_gives_up_after_three_requests
  (key : option string) (respond : nat -> option (list Gemini.BoxSegment)) :
  let result := Gemini.segmentPageImage key respond in
  let sent := Gemini.requests (snd result) in
  match Gemini.parseApiKey key with
  | None => exists message : string,
      fst result = Gemini.Throws message /\ snd result = []
  | Some _ =>
    (1 <= sent <= 3)%nat /\
    (forall attempt : nat, (1 <= attempt < sent)%nat ->
                           respond attempt = None) /\
    fst result = Gemini.Returns (match respond sent with
                                 | Some segments => segments
                                 | None => []
                                 end) /\
    (respond sent = None -> sent = 3%nat) /\
    (2 * Gemini.slept (snd result)
     = 1000 * N.of_nat (sent * (sent - 1)))%N
  end.
Proof.
  cbv zeta. unfold Gemini.segmentPageImage.
  destruct (Gemini.parseApiKey key) as [k|];
    [|eexists; split; reflexivity].
  unfold Gemini.MAX_RETRIES. cbn [Gemini.attempts].
  destruct (respond 1%nat) as [first|] eqn:Hfirst.
  { cbn. rewrite Hfirst. repeat split; try lia.
    intros Hnone. discriminate Hnone. }
  destruct (respond 2%nat) as [second|] eqn:Hsecond.
  { cbn. rewrite Hsecond. repeat split; try lia.
    - intros attempt Hattempt.
      assert (attempt = 1%nat) as -> by lia. exact Hfirst.
    - intros Hnone. discriminate Hnone. }
  destruct (respond 3%nat) as [third|] eqn:Hthird.
  { cbn. rewrite Hthird. repeat split; try lia.
    intros attempt Hattempt.
    assert (attempt = 1%nat \/ attempt = 2%nat) as [-> | ->] by lia;
      assumption. }
  cbn. rewrite Hthird. repeat split; try lia.
  intros attempt Hattempt.
  assert (attempt = 1%nat \/ attempt = 2%nat) as [-> | ->] by lia;
    assumption.
Qed.

(** * Uploading and exporting *)

Lemma isExtension_dotted (a b : string) :
  App.isExtension (a ++ String "."%char b) = false.
Proof.
  induction a as [|c rest IH].
  - reflexivity.
  - cbn [append App.isExtension].
    destruct (rest ++ String "."%char b)%string eqn:Hrest.
    + destruct rest; discriminate.
    + rewrite IH. apply andb_false_r.
Qed.

Lemma stripExtension_suffix (base extension : string) :
  App.isExtension extension = true ->
  App.stripExtension (base ++ String "."%char extension) = base.
Proof.
  intros Hext. induction base as [|c rest IH].
  - cbn [append App.stripExtension]. rewrite Hext. reflexivity.
  - cbn [append App.stripExtension].
    rewrite isExtension_dotted, andb_false_r, IH. reflexivity.
Qed.

(** X27.  Uploading a PDF document opens the editor on its first page.
    When the name of the file ends in [.pdf] (in any case) and the pages
    are rendered, the host shows one card, the title, which is the file
    name without its last extension and cannot be opened in the editor; the
    batch selection is empty; and the editor is mounted in add mode, without
    an initial rectangle, on index 0 of the rendered pages, which is a page
    when at least one page was rendered. *)
Theorem uploaded_pdf_opens_editor_on_first_page
  (name : string) (numPages : nat) (render : nat -> Parser.PageOutcome)
  (docxHtml : option string) (text : string) (titleNow bodyNow : N)
  (h : App.Host) (pages : list PageImage)
  (Hkind : Parser.parseFile name = Some Parser.pdf)
  (Hparsed : Parser.parsePdfToImages (Some numPages) render = Some pages) :
  let parsed := parseUpload name (Some numPages) render docxHtml text in
  let h' := App.handleFileSelect name parsed titleNow bodyNow h in
  App.isManualCropping h' = true /\
  App.questions h' = [App.titleQuestion name titleNow] /\
  (forall base extension : string,
     name = (base ++ String "."%char extension)%string ->
     App.isExtension extension = true ->
     App.content (App.titleQuestion name titleNow)
     = ("<div style=" ++ App.doubleQuote
        ++ "text-align: center; font-weight: bold; font-size: 28px; "
        ++ "line-height: 1.4; color: #1e293b; padding: 20px 10px;"
        ++ App.doubleQuote ++ ">" ++ base ++ "</div>")%string) /\
  (forall qid : string, App.act (App.Edit qid) h' = h') /\
  App.selectedIds h' = [] /\ App.isBatchMode h' = false /\
  App.editorProps h' = mkProps pages 0 false None 2 /\
  NoDup (map pageNumberOf (pageImages (App.editorProps h'))) /\
  (pages <> [] ->
   forall (t : Tool) (z : Q) (canvas : option Canvas)
          (container : option Container),
     pageInRange (App.editorProps h')
       (initialState (App.editorProps h') t z canvas container)).
Proof.
  cbv zeta. unfold parseUpload. rewrite Hkind, Hparsed.
  cbn [option_map App.handleFileSelect].
  split; [reflexivity|]. split; [reflexivity|]. split.
  { intros base extension Hname Hext. subst name.
    cbn [App.titleQuestion App.content].
    rewrite stripExtension_suffix by exact Hext. reflexivity. }
  split.
  { intros qid. cbn [App.act]. unfold App.handleEditQuestion, App.findQuestion.
    cbn [App.questions find].
    destruct (String.eqb _ qid); reflexivity. }
  split; [reflexivity|]. split; [reflexivity|]. split; [reflexivity|].
  split.
  { cbn [App.editorProps pageImages App.pageImages].
    unfold Parser.parsePdfToImages in Hparsed.
    rewrite renderPages_unfolded in Hparsed.
    destruct (existsb _ (seq 1 numPages)); [discriminate|].
    injection Hparsed as Hpages. cbn [app] in Hpages. rewrite <- Hpages.
    rewrite numbers_of_rendered. apply NoDup_filter, seq_NoDup. }
  intros Hpages t z canvas container. unfold pageInRange.
  cbn [App.editorProps pageImages App.pageImages initialState
       currentPageIndex initialPageIndex App.getInitialPageIndex
       App.editingQuestionId App.truthy].
  destruct pages; [contradiction|]. cbn [List.length]. lia.
Qed.

Lemma uploaded_pdf_witness :
  let render := fun j : nat =>
    Parser.Rendered "data:image/png;base64,AAAA" 2000 2800 in
  let pages := [mkPage 1 "data:image/png;base64,AAAA" 2000 2800;
                mkPage 2 "data:image/png;base64,AAAA" 2000 2800] in
  let name := "exam.2024.PDF"%string in
  let parsed := parseUpload name (Some 2%nat) render None "" in
  let h' := App.handleFileSelect name parsed 1700000000000 1700000000001
              App.sampleHost in
  App.isManualCropping h' = true /\
  App.questions h' = [App.titleQuestion name 1700000000000] /\
  (forall base extension : string,
     name = (base ++ String "."%char extension)%string ->
     App.isExtension extension = true ->
     App.content (App.titleQuestion name 1700000000000)
     = ("<div style=" ++ App.doubleQuote
        ++ "text-align: center; font-weight: bold; font-size: 28px; "
        ++ "line-height: 1.4; color: #1e293b; padding: 20px 10px;"
        ++ App.doubleQuote ++ ">" ++ base ++ "</div>")%string) /\
  (forall qid : string, App.act (App.Edit qid) h' = h') /\
  App.selectedIds h' = [] /\ App.isBatchMode h' = false /\
  App.editorProps h' = mkProps pages 0 false None 2 /\
  NoDup (map pageNumberOf (pageImages (App.editorProps h'))) /\
  (pages <> [] ->
   forall (t : Tool) (z : Q) (canvas : option Canvas)
          (container : option Container),
     pageInRange (App.editorProps h')
       (initialState (App.editorProps h') t z canvas container)).
Proof.
  intros render pages name.
  exact (uploaded_pdf_opens_editor_on_first_page name 2 render None ""
           1700000000000 1700000000001 App.sampleHost pages
           eq_refl eq_refl).
Defined.

(** ** The files of a batch export *)

Lemma length_appended (a b : string) :
  String.length (a ++ b) = (String.length a + String.length b)%nat.
Proof.
  induction a as [|c rest IH]; [reflexivity|].
  cbn [append String.length]. rewrite IH. reflexivity.
Qed.

Lemma append_cancel_r (c : string) :
  forall a b : string, (a ++ c = b ++ c)%string -> a = b.
Proof.
  induction a as [|x a IH]; intros b Heq.
  - destruct b as [|y b]; [reflexivity|].
    apply (f_equal String.length) in Heq.
    rewrite !length_appended in Heq. cbn [String.length] in Heq. lia.
  - destruct b as [|y b].
    + apply (f_equal String.length) in Heq.
      rewrite !length_appended in Heq. cbn [String.length] in Heq. lia.
    + cbn [append] in Heq. injection Heq as Hx Hrest.
      rewrite Hx, (IH b Hrest). reflexivity.
Qed.

Lemma exportFileName_inj (i j : nat) :
  App.exportFileName i = App.exportFileName j -> i = j.
Proof.
  unfold App.exportFileName. intros Heq.
  cbn [append] in Heq.
  repeat match type of Heq with
         | String _ _ = String _ _ => injection Heq as Heq
         end.
  apply append_cancel_r in Heq.
  assert (Hsome : Some (Nat.to_uint (i + 1)) = Some (Nat.to_uint (j + 1))).
  { rewrite <- !NilEmpty.usu, Heq. reflexivity. }
  injection Hsome as Huint. apply Unsigned.to_uint_inj in Huint. lia.
Qed.

Lemma exportFiles_spec (blobOf : App.QuestionSegment -> App.BlobOutcome)
  (selected : list string) :
  forall (qs : list App.QuestionSegment) (from : nat) (files : list string),
    App.exportFiles blobOf selected qs from = Some files ->
    (forall file : string,
       In file files <->
       exists (k : nat) (q : App.QuestionSegment),
         file = App.exportFileName (from + k) /\ nth_error qs k = Some q /\
         App.has (App.id q) selected = true /\ blobOf q = App.Blob) /\
    NoDup files /\
    (forall q : App.QuestionSegment,
       In q qs -> App.has (App.id q) selected = true ->
       blobOf q <> App.BlobFails).
Proof.
  induction qs as [|q rest IH]; intros from files Hfiles.
  - injection Hfiles as Hfiles. subst files. split; [|split].
    + intros file. split; [intros []|].
      intros (k & q & _ & Hnth & _). destruct k; discriminate.
    + constructor.
    + intros q [].
  - cbn [App.exportFiles] in Hfiles.
    assert (Hshift : forall (files' : list string) (file : string),
      (forall f : string,
         In f files' <->
         exists (k : nat) (q' : App.QuestionSegment),
           f = App.exportFileName (S from + k) /\
           nth_error rest k = Some q' /\
           App.has (App.id q') selected = true /\ blobOf q' = App.Blob) ->
      (exists (k : nat) (q' : App.QuestionSegment),
         file = App.exportFileName (from + S k) /\
         nth_error rest k = Some q' /\
         App.has (App.id q') selected = true /\ blobOf q' = App.Blob)
      <-> In file files').
    { intros files' file Hspec. rewrite Hspec.
      split; intros (k & q' & Hname & Hrest); exists k, q';
        (split; [|exact Hrest]); rewrite Hname; f_equal; lia. }
    destruct (App.has (App.id q) selected) eqn:Hselected.
    + destruct (blobOf q) eqn:Hblob; [| |discriminate].
      * destruct (App.exportFiles blobOf selected rest (S from))
          as [files'|] eqn:Hrest; [|discriminate].
        cbn [option_map] in Hfiles. injection Hfiles as Hfiles.
        subst files. destruct (IH (S from) files' Hrest)
          as (Hspec & Hdistinct & Hgood).
        split; [|split].
        -- intros file. cbn [In]. split.
           ++ intros [Hhead | Htail].
              ** exists 0%nat, q. rewrite Nat.add_0_r.
                 repeat split; auto.
              ** apply Hspec in Htail.
                 destruct Htail as (k & q' & Hname & Hnth & Hsel & Hb).
                 exists (S k), q'. repeat split; auto.
                 rewrite Hname. f_equal. lia.
           ++ intros (k & q' & Hname & Hnth & Hsel & Hb).
              destruct k as [|k].
              ** left. rewrite Hname, Nat.add_0_r. reflexivity.
              ** right. apply (Hshift files' file Hspec).
                 exists k, q'. repeat split; auto.
        -- constructor; [|exact Hdistinct].
           intros Hin. apply Hspec in Hin.
           destruct Hin as (k & q' & Hname & _).
           apply exportFileName_inj in Hname. lia.
        -- intros q' [Hq | Hq] Hsel; [subst q'; congruence|].
           apply Hgood; assumption.
      * destruct (IH (S from) files Hfiles) as (Hspec & Hdistinct & Hgood).
        split; [|split].
        -- intros file. rewrite <- (Hshift files file Hspec). split.
           ++ intros (k & q' & Hrest). exists (S k), q'. exact Hrest.
           ++ intros (k & q' & Hname & Hnth & Hsel & Hb).
              destruct k as [|k].
              ** cbn [nth_error] in Hnth. injection Hnth as Hq. subst q'.
                 congruence.
              ** exists k, q'. repeat split; auto.
        -- exact Hdistinct.
        -- intros q' [Hq | Hq] Hsel; [subst q'; congruence|].
           apply Hgood; assumption.
    + destruct (IH (S from) files Hfiles) as (Hspec & Hdistinct & Hgood).
      split; [|split].
      * intros file. rewrite <- (Hshift files file Hspec). split.
        -- intros (k & q' & Hrest). exists (S k), q'. exact Hrest.
        -- intros (k & q' & Hname & Hnth & Hsel & Hb).
           destruct k as [|k].
           ++ cbn [nth_error] in Hnth. injection Hnth as Hq. subst q'.
              congruence.
           ++ exists k, q'. repeat split; auto.
      * exact Hdistinct.
      * intros q' [Hq | Hq] Hsel; [subst q'; congruence|].
        apply Hgood; assumption.
Qed.

(** X28.  A batch export that saves an archive puts into it one file for
    each selected card that yields an image, named after the position of
    the card in the list (not in the selection), so no two files share a
    name and none overwrites another.  The archive is never empty; the
    cards are left as they are, and afterwards batch mode is off and nothing
    is selected.  When nothing is archived the state does not change. *)
Theorem export_files_follow_the_list
  (blobOf : App.QuestionSegment -> App.BlobOutcome) (h : App.Host) :
  match snd (App.handleBatchExport blobOf h) with
  | Some files =>
    files <> [] /\ NoDup files /\
    (forall file : string,
       In file files <->
       exists (k : nat) (q : App.QuestionSegment),
         file = App.exportFileName k /\
         nth_error (App.questions h) k = Some q /\
         App.has (App.id q) (App.selectedIds h) = true /\
         blobOf q = App.Blob) /\
    App.questions (fst (App.handleBatchExport blobOf h)) = App.questions h /\
    App.isBatchMode (fst (App.handleBatchExport blobOf h)) = false /\
    App.selectedIds (fst (App.handleBatchExport blobOf h)) = []
  | None => fst (App.handleBatchExport blobOf h) = h
  end.
Proof.
  unfold App.handleBatchExport.
  destruct (App.selectedIds h) as [|first others] eqn:Hselected;
    [reflexivity|].
  destruct (App.exportFiles blobOf (first :: others) (App.questions h) 0)
    as [[|file files]|] eqn:Hfiles; cbn [fst snd]; try reflexivity.
  destruct (exportFiles_spec blobOf _ _ _ _ Hfiles) as (Hspec & Hdistinct & _).
  split; [discriminate|]. split; [exact Hdistinct|].
  split; [|repeat split].
  intros f. apply Hspec.
Qed.

(** * From the gesture to the pixels *)

Lemma round_le_floor_succ (q : Q) : (round q <= Qfloor q + 1)%Z.
Proof.
  unfold round.
  pose proof (Qfloor_le (q + (1 # 2))) as Hlow.
  pose proof (Qlt_floor q) as Hhigh.
  rewrite inject_Z_plus in Hhigh. change (inject_Z 1) with 1 in Hhigh.
  assert (Hlt : inject_Z (Qfloor (q + (1 # 2))) < inject_Z (Qfloor q + 2)).
  { rewrite inject_Z_plus. change (inject_Z 2) with 2. lra. }
  rewrite <- Zlt_Qlt in Hlt. lia.
Qed.

(** The rounded corners of a rectangle inside the page are in order and
    within the page, whatever the rounding of the operations does. *)
Lemma rounded_columns (fl : Q -> Q) (lo hi len : Q) :
  monotoneRounding fl -> representable fl 0 -> representable fl 1 ->
  representable fl len ->
  0 <= len -> 0 <= lo -> lo <= hi -> hi <= 1000 ->
  (0 <= round (fl (fl (lo / 1000) * len)%Q)
   <= round (fl (fl (hi / 1000) * len)%Q))%Z /\
  (round (fl (fl (hi / 1000) * len)%Q) <= round len)%Z.
Proof.
  intros Hmono H0 H1 Hrep Hlen Hlo Hmid Hhi.
  unfold representable in *.
  assert (Hscaled : forall a b : Q, a <= b -> a / 1000 <= b / 1000).
  { intros a b Hab. unfold Qdiv. change (/ 1000) with (1 # 1000). lra. }
  assert (Hstep : forall a b : Q,
    a <= b -> fl (fl (a / 1000) * len) <= fl (fl (b / 1000) * len)).
  { intros a b Hab. apply Hmono. apply Qmult_le_compat_r; [|exact Hlen].
    apply Hmono, Hscaled, Hab. }
  assert (Hfirst : 0 <= fl (lo / 1000)).
  { apply Qle_trans with (fl 0); [rewrite H0; apply Qle_refl|].
    apply Hmono. unfold Qdiv. change (/ 1000) with (1 # 1000). lra. }
  assert (Hzero : 0 <= fl (fl (lo / 1000) * len)).
  { apply Qle_trans with (fl 0); [rewrite H0; apply Qle_refl|].
    apply Hmono. apply Qmult_le_0_compat; assumption. }
  assert (Hone : fl (hi / 1000) <= 1).
  { apply Qle_trans with (fl 1); [|rewrite H1; apply Qle_refl].
    apply Hmono. unfold Qdiv. change (/ 1000) with (1 # 1000). lra. }
  assert (Hfull : fl (fl (hi / 1000) * len) <= len).
  { apply Qle_trans with (fl len); [|rewrite Hrep; apply Qle_refl].
    apply Hmono. apply Qle_trans with (1 * len); [|lra].
    apply Qmult_le_compat_r; assumption. }
  split; [split|].
  - rewrite <- round_zero. apply round_mono, Hzero.
  - apply round_mono, Hstep, Hmid.
  - apply round_mono, Hfull.
Qed.

Lemma cropImageRounded_cases (fl : Q -> Q) (loads hasContext : bool)
  (r : NormalizedRect) (page : PageImage) :
  monotoneRounding fl -> representable fl 0 -> representable fl 1 ->
  representable fl (width page) -> representable fl (height page) ->
  inPage r -> 0 <= width page -> 0 <= height page ->
  match App.cropImageRounded fl loads hasContext
          (xmin r) (ymin r) (xmax r) (ymax r) (width page) (height page) with
  | App.Cropped xStart yStart wd ht =>
    (0 <= xStart /\ 0 < wd /\ xStart + wd <= round (width page)
     /\ xStart + wd <= imageWidth page + 1)%Z /\
    (0 <= yStart /\ 0 < ht /\ yStart + ht <= round (height page)
     /\ yStart + ht <= imageHeight page + 1)%Z
  | App.WholeImage =>
    loads = false \/ hasContext = false \/
    round (fl (fl (xmax r / 1000) * width page))
    = round (fl (fl (xmin r / 1000) * width page)) \/
    round (fl (fl (ymax r / 1000) * height page))
    = round (fl (fl (ymin r / 1000) * height page))
  end.
Proof.
  intros Hmono H0 H1 Hrw Hrh (Hx0 & Hx1 & Hx2 & Hy0 & Hy1 & Hy2) Hw Hh.
  destruct (rounded_columns fl (xmin r) (xmax r) (width page)
              Hmono H0 H1 Hrw Hw Hx0 Hx1 Hx2) as [Hxa Hxb].
  destruct (rounded_columns fl (ymin r) (ymax r) (height page)
              Hmono H0 H1 Hrh Hh Hy0 Hy1 Hy2) as [Hya Hyb].
  pose proof (round_le_floor_succ (width page)) as Hfw.
  pose proof (round_le_floor_succ (height page)) as Hfh.
  unfold imageWidth, imageHeight, App.cropImageRounded.
  destruct loads; [|left; reflexivity]. cbv zeta.
  destruct (Z.leb_spec
              (round (fl (fl (xmax r / 1000) * width page))
               - round (fl (fl (xmin r / 1000) * width page))) 0)
    as [Hxe | Hxe]; cbn [orb]; [right; right; left; lia|].
  destruct (Z.leb_spec
              (round (fl (fl (ymax r / 1000) * height page))
               - round (fl (fl (ymin r / 1000) * height page))) 0)
    as [Hye | Hye]; [right; right; right; lia|].
  destruct hasContext; [|right; left; reflexivity]. lia.
Qed.

Lemma navStep_imageCanvasRef (props : Props) (ev : NavEvent) (n : NavState) :
  imageCanvasRef (component (fst (navStep props ev n)))
  = imageCanvasRef (component n).
Proof.
  assert (Hlayout : forall s1 : State,
    imageCanvasRef s1 = imageCanvasRef (component n) ->
    imageCanvasRef (layoutEffect props (component n) s1)
    = imageCanvasRef (component n)).
  { intros s1 Hs1. unfold layoutEffect. destruct (Z.eqb _ _); [exact Hs1|].
    rewrite calculateLayout_imageCanvasRef. exact Hs1. }
  destruct ev; cbn [navStep fst component].
  - apply step_imageCanvasRef.
  - apply Hlayout. unfold handleWheel.
    repeat match goal with
           | |- context [match ?x with _ => _ end] => destruct x
           end; reflexivity.
  - reflexivity.
  - apply Hlayout. unfold clickPrevious.
    destruct (Z.eqb _ _); reflexivity.
  - apply Hlayout. unfold clickNext.
    destruct (Z.eqb _ _); reflexivity.
  - reflexivity.
  - reflexivity.
  - reflexivity.
  - reflexivity.
Qed.

Lemma navStep_pageInvariant (props : Props) (ev : NavEvent) (n : NavState) :
  canvasLaidOut (component n) ->
  optInPage (initialRect props) ->
  isNavResizeHandleDown ev = false ->
  pageInvariant (component n) ->
  pageInvariant (component (fst (navStep props ev n))).
Proof.
  intros Hlaid Hrect Hev Hinv.
  assert (Hlayout : forall s1 : State,
    pageInvariant s1 ->
    pageInvariant (layoutEffect props (component n) s1)).
  { intros s1 Hs1. unfold layoutEffect. destruct (Z.eqb _ _); [exact Hs1|].
    apply calculateLayout_pageInvariant; assumption. }
  assert (Hkept : forall s1 : State,
    selection s1 = selection (component n) ->
    initialSelectionRef s1 = initialSelectionRef (component n) ->
    interactionMode s1 = interactionMode (component n) ->
    pageInvariant s1).
  { intros s1 Hsel Href Hmode. destruct Hinv as (H1 & H2 & H3).
    unfold pageInvariant. rewrite Hsel, Href, Hmode.
    split; [|split]; assumption. }
  destruct ev; cbn [navStep fst component].
  - apply step_pageInvariant; assumption.
  - apply Hlayout. unfold handleWheel.
    repeat match goal with
           | |- context [match ?x with _ => _ end] => destruct x
           end; cbn [fst component]; try exact Hinv;
      apply Hkept; reflexivity.
  - exact Hinv.
  - apply Hlayout. unfold clickPrevious.
    destruct (Z.eqb _ _); [exact Hinv | apply Hkept; reflexivity].
  - apply Hlayout. unfold clickNext.
    destruct (Z.eqb _ _); [exact Hinv | apply Hkept; reflexivity].
  - apply Hkept; reflexivity.
  - apply Hkept; reflexivity.
  - apply Hkept; reflexivity.
  - apply Hkept; reflexivity.
Qed.

(** X29.  As long as no resize handle is grabbed, what the host cuts for
    a commit stays within the stored size of the page.  Take a canvas
    with a non-empty bounding rectangle and any sequence of events of the
    editor without a pointer-down on a resize handle (drawing, moving,
    panning, keys, wheel, buttons, zoom, window resizes).  Each commit
    carries the index of a page of the document and a rectangle inside the
    page, which may be degenerate: the Enter key commits in the middle of a
    drawing.  For such a commit [cropImage] either returns the whole page
    image, which it does when the image does not load, when there is no 2d
    context or when two rounded corners of the rectangle coincide, or cuts
    a box that starts at a non-negative pixel, is at least one pixel wide
    and high and ends within the rounded stored size of the page.  The
    image itself has the integer part of the stored size, so the box ends
    at most one pixel beyond it, and inside it when the stored size rounds
    down.  This holds whatever the rounding of the binary64 operations
    does, as long as it keeps the order and leaves 0, 1 and the stored
    sizes, which are doubles, as they are. *)
Theorem committed_crop_lies_within_the_image
  (fl : Q -> Q) (props : Props) (evs : list NavEvent)
  (Hmono : monotoneRounding fl)
  (Hzero : representable fl 0) (Hone : representable fl 1)
  (Hrect : optInPage (initialRect props))
  (Hevs : forallb (fun ev => negb (isNavResizeHandleDown ev)) evs = true)
  (Hsizes : Forall (fun p : PageImage =>
                      0 <= width p /\ 0 <= height p /\
                      representable fl (width p) /\
                      representable fl (height p))
              (pageImages props)) :
  forall n : NavState,
    canvasLaidOut (component n) ->
    pageInRange props (component n) ->
    pageInvariant (component n) ->
    Forall (fun c : Z * NormalizedRect =>
              inPage (snd c) /\
              exists page : PageImage,
                App.pageAt (pageImages props) (fst c) = Some page /\
                forall loads hasContext : bool,
                  match App.cropImageRounded fl loads hasContext
                          (xmin (snd c)) (ymin (snd c))
                          (xmax (snd c)) (ymax (snd c))
                          (width page) (height page) with
                  | App.Cropped xStart yStart wd ht =>
                    (0 <= xStart /\ 0 < wd
                     /\ xStart + wd <= round (width page)
                     /\ xStart + wd <= imageWidth page + 1)%Z /\
                    (0 <= yStart /\ 0 < ht
                     /\ yStart + ht <= round (height page)
                     /\ yStart + ht <= imageHeight page + 1)%Z
                  | App.WholeImage =>
                    loads = false \/ hasContext = false \/
                    round (fl (fl (xmax (snd c) / 1000) * width page))
                    = round (fl (fl (xmin (snd c) / 1000) * width page)) \/
                    round (fl (fl (ymax (snd c) / 1000) * height page))
                    = round (fl (fl (ymin (snd c) / 1000) * height page))
                  end)
           (commits (snd (navRun props evs n))).
Proof.
  induction evs as [|ev rest IH]; intros n Hlaid Hin Hinv; cbn [navRun snd].
  - constructor.
  - cbn [forallb] in Hevs. apply andb_true_iff in Hevs.
    destruct Hevs as [Hev Hrest]. apply negb_true_iff in Hev.
    rewrite commits_app. apply Forall_app. split.
    + apply Forall_forall. intros c Hc.
      destruct (navStep_commits props ev n c Hc) as [Hindex Hsel].
      assert (Hpage : inPage (snd c)).
      { destruct Hinv as (Hselection & _ & _).
        rewrite Hsel in Hselection. exact Hselection. }
      split; [exact Hpage|].
      destruct (pageAt_in_range (pageImages props) (fst c)) as [page Hat].
      { rewrite Hindex. exact Hin. }
      exists page. split; [exact Hat|].
      intros loads hasContext.
      apply pageAt_nth in Hat. destruct Hat as [_ Hnth].
      apply nth_error_In in Hnth.
      rewrite Forall_forall in Hsizes.
      destruct (Hsizes page Hnth) as (Hw & Hh & Hrw & Hrh).
      apply cropImageRounded_cases; assumption.
    + apply (IH Hrest).
      * unfold canvasLaidOut. rewrite navStep_imageCanvasRef. exact Hlaid.
      * apply navStep_pageInRange, Hin.
      * apply navStep_pageInvariant; assumption.
Qed.

Lemma committed_crop_witness :
  let evs := [NavComponent (EvPointerDown Background (pointerAt 500 500));
              NavComponent (EvKeyDown (keyPress Enter));
              NavComponent (EvPointerUp (pointerAt 500 500));
              NavComponent (EvPointerDown Background (pointerAt 100 100));
              NavComponent (EvPointerMove (pointerAt 300 300));
              NavComponent (EvPointerUp (pointerAt 300 300));
              NavZoomIn;
              NavComponent (EvPointerDown SelectionBody (pointerAt 200 200));
              NavComponent (EvPointerMove (pointerAt 900 900));
              NavComponent (EvPointerUp (pointerAt 900 900));
              NavComponent EvConfirm] in
  let fl := fun x : Q => x in
  List.length (commits (snd (navRun addProps evs navFresh))) = 2%nat /\
  Forall (fun c : Z * NormalizedRect =>
            inPage (snd c) /\
            exists page : PageImage,
              App.pageAt (pageImages addProps) (fst c) = Some page /\
              forall loads hasContext : bool,
                match App.cropImageRounded fl loads hasContext
                        (xmin (snd c)) (ymin (snd c))
                        (xmax (snd c)) (ymax (snd c))
                        (width page) (height page) with
                | App.Cropped xStart yStart wd ht =>
                  (0 <= xStart /\ 0 < wd
                   /\ xStart + wd <= round (width page)
                   /\ xStart + wd <= imageWidth page + 1)%Z /\
                  (0 <= yStart /\ 0 < ht
                   /\ yStart + ht <= round (height page)
                   /\ yStart + ht <= imageHeight page + 1)%Z
                | App.WholeImage =>
                  loads = false \/ hasContext = false \/
                  round (fl (fl (xmax (snd c) / 1000) * width page))
                  = round (fl (fl (xmin (snd c) / 1000) * width page)) \/
                  round (fl (fl (ymax (snd c) / 1000) * height page))
                  = round (fl (fl (ymin (snd c) / 1000) * height page))
                end)
         (commits (snd (navRun addProps evs navFresh))).
Proof.
  intros evs fl. split.
  - vm_compute. reflexivity.
  - apply (committed_crop_lies_within_the_image fl addProps evs).
    + intros x y Hxy. exact Hxy.
    + unfold representable, fl. reflexivity.
    + unfold representable, fl. reflexivity.
    + exact I.
    + reflexivity.
    + cbn. repeat constructor; try discriminate;
        unfold representable, fl; reflexivity.
    + unfold canvasLaidOut. cbn. split; [|split; [|split]]; reflexivity.
    + unfold pageInRange. cbn. lia.
    + unfold pageInvariant. cbn. split; [exact I|]. split; [exact I|].
      reflexivity.
Defined.

(** * Closing the editor *)

Lemma handleWheel_no_close (props : Props) (e : WheelEvent) (n : NavState) :
  existsb isOnClose (snd (handleWheel props e n)) = false.
Proof.
  unfold handleWheel.
  repeat match goal with
         | |- context [match ?x with _ => _ end] => destruct x
         end; reflexivity.
Qed.

(** X30.  The editor asks to be closed on one event only: the Escape key
    while no text input has the focus.  No pointer gesture, commit, wheel
    turn, button or other key does.  Closing is not committing: the handler
    of the host switches the editor off and forgets which card was being
    edited, and leaves the cards as they are, so a selection that was not
    committed is dropped. *)
Theorem editor_closes_only_on_escape
  (props : Props) (ev : NavEvent) (n : NavState)
  (Hclose : existsb isOnClose (snd (navStep props ev n)) = true) :
  (exists e : KeyEvent,
     ev = NavComponent (EvKeyDown e) /\ key e = Escape
     /\ inputFocused e = false) /\
  commits (snd (navStep props ev n)) = [] /\
  forall h : App.Host,
    App.isManualCropping (App.handleCloseCropper h) = false /\
    App.editingQuestionId (App.handleCloseCropper h) = None /\
    App.questions (App.handleCloseCropper h) = App.questions h /\
    App.selectedIds (App.handleCloseCropper h) = App.selectedIds h.
Proof.
  assert (Hescape : exists e : KeyEvent,
            ev = NavComponent (EvKeyDown e) /\ key e = Escape
            /\ inputFocused e = false).
  { destruct ev; cbn [navStep snd] in Hclose;
      rewrite ?existsb_app, ?selectionEffect_no_close,
        ?handleWheel_no_close in Hclose;
      try discriminate Hclose.
    destruct (onClose_only_from_escape props ev (component n) Hclose)
      as (e & Hev & Hkey & Hfocus).
    exists e. subst ev. repeat split; assumption. }
  split; [exact Hescape|]. split.
  - destruct Hescape as (e & Hev & Hkey & Hfocus). subst ev.
    cbn [navStep snd]. unfold step. cbn [snd handle].
    rewrite !commits_app, !selectionEffect_no_commit, !app_nil_r.
    unfold handleKeyDown. rewrite Hfocus, Hkey. reflexivity.
  - intros h. repeat split.
Qed.

Lemma editor_closes_witness :
  let ev := NavComponent (EvKeyDown (keyPress Escape)) in
  existsb isOnClose (snd (navStep addProps ev navSelected)) = true /\
  (exists e : KeyEvent,
     ev = NavComponent (EvKeyDown e) /\ key e = Escape
     /\ inputFocused e = false) /\
  commits (snd (navStep addProps ev navSelected)) = [] /\
  forall h : App.Host,
    App.isManualCropping (App.handleCloseCropper h) = false /\
    App.editingQuestionId (App.handleCloseCropper h) = None /\
    App.questions (App.handleCloseCropper h) = App.questions h /\
    App.selectedIds (App.handleCloseCropper h) = App.selectedIds h.
Proof.
  intros ev.
  assert (Hclose : existsb isOnClose (snd (navStep addProps ev navSelected))
                   = true) by reflexivity.
  split; [exact Hclose|].
  exact (editor_closes_only_on_escape addProps ev navSelected Hclose).
Defined.
